(** * Workshop publisher: the metadata merger, the notebook processor and the
    index builder of [publish.py], embedded as Rocq functions.

    Python values loaded from YAML and JSON are trees: mappings are finite
    maps keyed by strings, compared extensionally as Python's [==] does.
    A string holds the UTF-8 bytes of a Python [str]; shell patterns and
    the table of contents of [Toc] read it character by character
    ([codepoints]), and the character classes of the string functions on
    bytes are the ASCII ones.  Exceptions and [sys.exit] are explicit outcomes, and what
    the script does to the file system is recorded as a trace of events,
    which the reads of the file system may depend on. *)

From stdpp Require Import gmap strings list fin_maps sorting.
From Stdlib Require Import ZArith Ascii.

#[local] Set Warnings "-register-all".

(** ** Python values *)

Inductive json :=
  | JNull
  | JBool (b : bool)
  | JNum (z : Z)
  | JStr (s : string)
  | JList (l : list json)
  | JDict (m : gmap string json).

(** [bool(x)]: what [if x:], [x or y] and [not x] test. *)
Definition truthy (j : json) : bool :=
  match j with
  | JNull => false
  | JBool b => b
  | JNum z => negb (z =? 0)%Z
  | JStr s => negb (String.eqb s "")
  | JList l => negb (Nat.eqb (length l) 0)
  | JDict m => negb (Nat.eqb (size m) 0)
  end.

(** [d.get(k)], with Python's [None] for a missing key. *)
Definition get (k : string) (d : gmap string json) : json :=
  default JNull (d !! k).

(** [a or b] *)
Definition py_or (a b : json) : json := if truthy a then a else b.

Definition is_dict (j : json) : bool :=
  match j with JDict _ => true | _ => false end.

Fixpoint jsize (j : json) : nat :=
  match j with
  | JList l => S (list_sum (map jsize l))
  | JDict m => S (map_fold (fun _ v n => jsize v + n) 0 m)
  | _ => 1
  end.

(** ** Exceptions

    [OutsideModel] is no exception of Python: it stands for a call that
    returns a mapping which [json] cannot hold, one with a key that is no
    string or one that depends on the order of the keys of a mapping. *)

Inductive exn :=
  | KeyError (key : string)
  | TypeError
  | AttributeError
  | ValueError
  | OutsideModel.

Inductive result (A : Type) :=
  | Ok (a : A)
  | Err (e : exn).
Arguments Ok {A} a.
Arguments Err {A} e.

#[global] Instance result_ret : MRet result := fun A a => Ok a.
#[global] Instance result_bind : MBind result := fun A B f r =>
  match r with Ok a => f a | Err e => Err e end.

(** ** Strings *)

Definition dq : string := String (ascii_of_nat 34) "".
Definition nl : string := String (ascii_of_nat 10) "".

Definition chars (s : string) : list ascii := String.list_ascii_of_string s.
Definition text (l : list ascii) : string := String.string_of_list_ascii l.

Definition code (c : ascii) : nat := nat_of_ascii c.

(** [str.isspace] on ASCII: tab to carriage return, the four separators and
    the space. *)
Definition is_space (c : ascii) : bool :=
  let n := code c in
  (9 <=? n) && (n <=? 13) || (28 <=? n) && (n <=? 32).

Definition is_upper (c : ascii) : bool := (65 <=? code c) && (code c <=? 90).
Definition is_lower (c : ascii) : bool := (97 <=? code c) && (code c <=? 122).
Definition is_digit (c : ascii) : bool := (48 <=? code c) && (code c <=? 57).

(** [\w] on ASCII: letters, digits and the underscore. *)
Definition is_word (c : ascii) : bool :=
  is_upper c || is_lower c || is_digit c || (code c =? 95).

Definition to_lower (c : ascii) : ascii :=
  if is_upper c then ascii_of_nat (code c + 32) else c.

(** [s.lower()] *)
Definition lower (s : list ascii) : list ascii := map to_lower s.

(** [s.strip()] *)
Fixpoint lstrip (s : list ascii) : list ascii :=
  match s with
  | c :: s' => if is_space c then lstrip s' else s
  | [] => []
  end.
Definition strip (s : list ascii) : list ascii := rev (lstrip (rev (lstrip s))).

(** [s.split(sep)] for a one-character separator. *)
Fixpoint split_on (sep : ascii) (s : list ascii) : list (list ascii) :=
  match s with
  | [] => [[]]
  | c :: s' =>
      if Ascii.eqb c sep then [] :: split_on sep s'
      else match split_on sep s' with
           | [] => [[c]]
           | w :: ws => (c :: w) :: ws
           end
  end.

(** [s.split()]: the maximal runs of characters that are not white space. *)
Fixpoint words_go (cur : list ascii) (s : list ascii) : list (list ascii) :=
  match s with
  | [] => match cur with [] => [] | _ => [rev cur] end
  | c :: s' =>
      if is_space c
      then match cur with [] => words_go [] s' | _ => rev cur :: words_go [] s' end
      else words_go (c :: cur) s'
  end.
Definition py_split (s : string) : list string := text <$> words_go [] (chars s).

(** [sep.join(l)] *)
Fixpoint join (sep : string) (l : list string) : string :=
  match l with
  | [] => ""
  | [s] => s
  | s :: l' => s +:+ sep +:+ join sep l'
  end.

Fixpoint is_prefix (p s : list ascii) : bool :=
  match p, s with
  | [], _ => true
  | a :: p', b :: s' => Ascii.eqb a b && is_prefix p' s'
  | _ :: _, [] => false
  end.

(** [sub in s] for strings *)
Fixpoint contains (sub s : list ascii) : bool :=
  is_prefix sub s || match s with [] => false | _ :: s' => contains sub s' end.

(** ** Deep merge of override values into metadata ([_deep_merge]) *)

(** The loop [for k, v in override.items()] of [_deep_merge], run on a copy
    [result] of the base: a mapping [v] merges into a mapping already stored
    under [k], any other value replaces what is stored. *)
Fixpoint merge_items (override : json) (result : gmap string json) {struct override}
  : gmap string json :=
  match override with
  | JDict ov =>
      map_fold (fun k v result =>
        <[k := match v, result !! k with
               | JDict _, Some (JDict rd) => JDict (merge_items v rd)
               | _, _ => v
               end]> result) result ov
  | _ => result
  end.

(** [_deep_merge(base, override)]: a base that is no mapping counts as the
    empty one, a falsy override as no override; any other override must have
    [.items()]. *)
Definition _deep_merge (base override : json) : result json :=
  let result := match base with JDict b => b | _ => ∅ end in
  if truthy override then
    match override with
    | JDict _ => Ok (JDict (merge_items override result))
    | _ => Err AttributeError
    end
  else Ok (JDict result).

Definition is_char (n : nat) (c : ascii) : bool := code c =? n.

Fixpoint index_from (n : nat) (j : nat) (s : list ascii) : option nat :=
  match s with
  | [] => None
  | c :: s' =>
      match j with
      | S j' => S <$> index_from n j' s'
      | O => if is_char n c then Some 0 else S <$> index_from n 0 s'
      end
  end.

(** ** Code points

    A [str] is modelled by the string of its UTF-8 bytes; [characters] gives
    its characters back, and [codepoints] their numbers.  A byte that
    starts no well-formed sequence stands for the lone surrogate
    U+DC00 + byte, which is what the file-system encoding of Python makes of
    it in a file name. *)

Definition continuation (b : N) : bool := ((128 <=? b) && (b <=? 191))%N.

Definition two_bytes (b0 b1 : N) : bool :=
  ((194 <=? b0) && (b0 <=? 223))%N && continuation b1.

Definition three_bytes (b0 b1 b2 : N) : bool :=
  ((224 <=? b0) && (b0 <=? 239))%N && continuation b1 && continuation b2
  && (if (b0 =? 224)%N then (160 <=? b1)%N else true)
  && (if (b0 =? 237)%N then (b1 <=? 159)%N else true).

Definition four_bytes (b0 b1 b2 b3 : N) : bool :=
  ((240 <=? b0) && (b0 <=? 244))%N
  && continuation b1 && continuation b2 && continuation b3
  && (if (b0 =? 240)%N then (144 <=? b1)%N else true)
  && (if (b0 =? 244)%N then (b1 <=? 143)%N else true).

(** The characters of a string: the bytes of each one, and its code point. *)
Fixpoint characters (s : list ascii) : list (list ascii * N) :=
  match s with
  | [] => []
  | a0 :: s1 =>
      let b0 := N_of_ascii a0 in
      if (b0 <? 128)%N then ([a0], b0) :: characters s1
      else
        match s1 with
        | a1 :: s2 =>
            let b1 := N_of_ascii a1 in
            if two_bytes b0 b1
            then ([a0; a1], ((b0 - 192) * 64 + (b1 - 128))%N) :: characters s2
            else
              match s2 with
              | a2 :: s3 =>
                  let b2 := N_of_ascii a2 in
                  if three_bytes b0 b1 b2
                  then ([a0; a1; a2],
                        ((b0 - 224) * 4096 + (b1 - 128) * 64 + (b2 - 128))%N)
                       :: characters s3
                  else
                    match s3 with
                    | a3 :: s4 =>
                        let b3 := N_of_ascii a3 in
                        if four_bytes b0 b1 b2 b3
                        then ([a0; a1; a2; a3],
                              ((b0 - 240) * 262144 + (b1 - 128) * 4096
                               + (b2 - 128) * 64 + (b3 - 128))%N)
                             :: characters s4
                        else ([a0], (56320 + b0)%N) :: characters s1
                    | [] => ([a0], (56320 + b0)%N) :: characters s1
                    end
              | [] => ([a0], (56320 + b0)%N) :: characters s1
              end
        | [] => ([a0], (56320 + b0)%N) :: characters s1
        end
  end.

Definition codepoints (s : list ascii) : list N := snd <$> characters s.

(** ** Shell patterns ([fnmatch.fnmatch] on a POSIX system)

    The pattern and the name are read character by character, a character
    being a code point. *)

(** One item of a bracket expression as [fnmatch.translate] hands it to the
    regular expression: a character, or the hyphen that joins two chunks. *)
Inductive set_atom :=
  | Ch (c : N)
  | Dash.

Inductive glob_token :=
  | GStar
  | GAny
  | GLit (c : N)
  | GSet (negated : bool) (singles : list N) (ranges : list (N * N)).

Definition is_point (n : N) (c : N) : bool := (c =? n)%N.

(** [s.find(c, j)] *)
Fixpoint find_from (n : N) (j : nat) (s : list N) : option nat :=
  match s with
  | [] => None
  | c :: s' =>
      match j with
      | S j' => S <$> find_from n j' s'
      | O => if is_point n c then Some 0 else S <$> find_from n 0 s'
      end
  end.

(** Where the bracket expression that opens just before [rest] closes: a
    leading [!] and a [[]]] right after it do not close it. *)
Definition set_end (rest : list N) : option nat :=
  let j := match rest with c :: _ => if is_point 33 c then 1 else 0 | [] => 0 end in
  let j := match rest !! j with Some c => if is_point 93 c then S j else j | None => j end in
  find_from 93 j rest.

(** The chunks between the hyphens that can make a range: a hyphen is looked
    for from the second character on (the third after [!]), and again from
    the third character after each one found. *)
Fixpoint split_chunks (skip : nat) (cur : list N) (s : list N)
  : list (list N) :=
  match s with
  | [] => [rev cur]
  | c :: s' =>
      match skip with
      | S k => split_chunks k (c :: cur) s'
      | O => if is_point 45 c then rev cur :: split_chunks 2 [] s'
             else split_chunks 0 (c :: cur) s'
      end
  end.

(** A hyphen right before the closing bracket belongs to the chunk before it. *)
Fixpoint close_chunks (chunks : list (list N)) : list (list N) :=
  match chunks with
  | [c; []] => [c ++ [45%N]]
  | c :: rest => c :: close_chunks rest
  | [] => []
  end.

(** Ranges that would be empty are dropped with both their ends, from the
    right. *)
Definition drop_empty_range (chunk : list N) (acc : list (list N))
  : list (list N) :=
  match acc with
  | next :: rest =>
      match last chunk, next with
      | Some hi, lo :: next' =>
          if (lo <? hi)%N then (removelast chunk ++ next') :: rest
          else chunk :: acc
      | _, _ => chunk :: acc
      end
  | [] => [chunk]
  end.

Definition set_chunks (body : list N) : list (list N) :=
  if existsb (is_point 45) body then
    let skip := match body with c :: _ => if is_point 33 c then 2 else 1 | [] => 1 end in
    foldr drop_empty_range [] (close_chunks (split_chunks skip [] body))
  else [body].

Fixpoint join_atoms (chunks : list (list N)) : list set_atom :=
  match chunks with
  | [] => []
  | [c] => Ch <$> c
  | c :: rest => (Ch <$> c) ++ Dash :: join_atoms rest
  end.

(** What the regular expression reads in the bracket: [a-b] is a range, a
    hyphen with nothing before it is a character. *)
Fixpoint class_items (atoms : list set_atom) : list N * list (N * N) :=
  match atoms with
  | [] => ([], [])
  | Ch a :: Dash :: Ch b :: rest =>
      let '(s, r) := class_items rest in (s, (a, b) :: r)
  | Ch a :: rest => let '(s, r) := class_items rest in (a :: s, r)
  | Dash :: rest => let '(s, r) := class_items rest in (45%N :: s, r)
  end.

Definition set_token (body : list N) : glob_token :=
  let atoms := join_atoms (set_chunks body) in
  let '(negated, atoms) :=
    match atoms with
    | Ch c :: rest => if is_point 33 c then (true, rest) else (false, atoms)
    | _ => (false, atoms)
    end in
  let '(singles, ranges) := class_items atoms in
  GSet negated singles ranges.

(** [fnmatch.translate], reading the pattern left to right; [skip] counts the
    characters of a bracket expression already consumed. *)
Fixpoint translate (skip : nat) (pat : list N) : list glob_token :=
  match pat with
  | [] => []
  | c :: rest =>
      match skip with
      | S k => translate k rest
      | O =>
          if is_point 42 c then GStar :: translate 0 rest
          else if is_point 63 c then GAny :: translate 0 rest
          else if is_point 91 c then
            match set_end rest with
            | Some n => set_token (take n rest) :: translate (S n) rest
            | None => GLit c :: translate 0 rest
            end
          else GLit c :: translate 0 rest
      end
  end.

Definition in_set (singles : list N) (ranges : list (N * N)) (c : N)
  : bool :=
  existsb (N.eqb c) singles
  || existsb (fun '(lo, hi) => (lo <=? c)%N && (c <=? hi)%N) ranges.

Definition token_matches (t : glob_token) (c : N) : bool :=
  match t with
  | GStar | GAny => true
  | GLit a => N.eqb a c
  | GSet negated singles ranges => xorb negated (in_set singles ranges c)
  end.

(** The whole name must match. *)
Fixpoint glob_match (toks : list glob_token) (s : list N) {struct toks} : bool :=
  match toks with
  | [] => match s with [] => true | _ => false end
  | GStar :: toks' =>
      (fix star (s : list N) : bool :=
         glob_match toks' s
         || match s with [] => false | _ :: s' => star s' end) s
  | t :: toks' =>
      match s with
      | [] => false
      | c :: s' => token_matches t c && glob_match toks' s'
      end
  end.

(** [fnmatch.fnmatchcase] *)
Definition fnmatchcase (name pat : list N) : bool :=
  glob_match (translate 0 pat) name.

(** [fnmatch.fnmatch]: [os.path.normcase] changes nothing on a POSIX
    system. *)
Definition fnmatch (name pat : string) : bool :=
  fnmatchcase (codepoints (chars name)) (codepoints (chars pat)).

(** ** Paths ([pathlib.PurePosixPath]) *)

Record path := Path_ { absolute : bool; parts : list string }.

Definition keep_part (p : list ascii) : bool :=
  match p with
  | [] => false
  | [c] => negb (is_char 46 c)
  | _ => true
  end.

(** [Path(s)]: empty components and [.] are dropped, [..] is kept. *)
Definition Path (s : string) : path :=
  {| absolute := match chars s with c :: _ => is_char 47 c | [] => false end;
     parts := text <$> filter (fun p => keep_part p = true) (split_on (ascii_of_nat 47) (chars s)) |}.

Definition as_posix (p : path) : string :=
  match parts p with
  | [] => if absolute p then "/" else "."
  | ps => (if absolute p then "/" else "") +:+ join "/" ps
  end.

Definition name (p : path) : string := default "" (last (parts p)).

Definition parent (p : path) : path :=
  {| absolute := absolute p; parts := removelast (parts p) |}.

(** [p / s] *)
Definition joinpath (p : path) (s : string) : path :=
  let q := Path s in
  if absolute q then q
  else {| absolute := absolute p; parts := parts p ++ parts q |}.

(** Where the suffix of a file name starts: at its last dot, unless that
    is the first or the last character. *)
Definition suffix_start (nm : list ascii) : option nat :=
  match index_from 46 0 (rev nm) with
  | Some k =>
      let i := length nm - 1 - k in
      if (0 <? i) && (i <? length nm - 1) then Some i else None
  | None => None
  end.

Definition suffix (p : path) : string :=
  let nm := chars (name p) in
  match suffix_start nm with Some i => text (drop i nm) | None => "" end.

Definition stem (p : path) : string :=
  let nm := chars (name p) in
  match suffix_start nm with Some i => text (take i nm) | None => name p end.

Fixpoint strip_prefix (pre l : list string) : option (list string) :=
  match pre, l with
  | [], _ => Some l
  | a :: pre', b :: l' => if String.eqb a b then strip_prefix pre' l' else None
  | _ :: _, [] => None
  end.

(** [p.relative_to(base)], [None] for its [ValueError]. *)
Definition relative_to (p base : path) : option path :=
  if Bool.eqb (absolute p) (absolute base) then
    (fun ps => {| absolute := false; parts := ps |}) <$> strip_prefix (parts base) (parts p)
  else None.

(** ** Effects *)

(** What a run does to the file system and which tools it starts, oldest
    first.  Console output is not recorded. *)
Inductive event :=
  | Rmtree (p : path)
  | Mkdir (p : path)
  | CopyFile (src dst : path)
  | MoveFile (src dst : path)
  | CreateZip (zip_path : path)
  | ZipMember (zip_path src : path) (arcname : string)
  | WriteNotebook (p : path) (nb : json)
  | WritePage (p : path) (markdown_source title : string)
  | WriteIndex (p : path) (notebooks_md : list string)
  | ConvertSlides (pptx : path)
  | MakeThumbnail (pdf output_dir : path)
  | GitStage (commit : bool).

Definition trace := list event.

(** How a call ends: it returns, the interpreter exits through [sys.exit],
    or an exception escapes. *)
Inductive outcome (A : Type) :=
  | Return (a : A) (t : trace)
  | Exit (status : Z) (t : trace)
  | Raise (e : exn) (t : trace).
Arguments Return {A} a t.
Arguments Exit {A} status t.
Arguments Raise {A} e t.

Definition M (A : Type) : Type := trace -> outcome A.

#[global] Instance M_ret : MRet M := fun A a t => Return a t.
#[global] Instance M_bind : MBind M := fun A B f m t =>
  match m t with
  | Return a t' => f a t'
  | Exit c t' => Exit c t'
  | Raise e t' => Raise e t'
  end.

Definition emit (e : event) : M unit := fun t => Return tt (t ++ [e]).
Definition sys_exit {A} (status : Z) : M A := fun t => Exit status t.
Definition raise {A} (e : exn) : M A := fun t => Raise e t.
Definition observe {A} (f : trace -> A) : M A := fun t => Return (f t) t.
Definition lift {A} (r : result A) : M A :=
  match r with Ok a => mret a | Err e => raise e end.

(** [for x in l: body(x)] *)
Fixpoint for_each {A} (l : list A) (body : A -> M unit) : M unit :=
  match l with
  | [] => mret tt
  | x :: l' => body x ≫= fun _ => for_each l' body
  end.

Definition trace_of {A} (o : outcome A) : trace :=
  match o with Return _ t | Exit _ t | Raise _ t => t end.

(** The status the process ends with when the call is the whole program:
    an escaping exception ends it with status 1. *)
Definition exit_status {A} (o : outcome A) : Z :=
  match o with Return _ _ => 0 | Exit c _ => c | Raise _ _ => 1 end.

Definition index_written (t : trace) : bool :=
  existsb (fun e => match e with WriteIndex _ _ => true | _ => false end) t.

(** The services of the interpreter, its libraries and the operating system
    that the script calls.  A read of the file system is asked after the
    events so far. *)
Record world := {
  (** [p.resolve().relative_to(Path.cwd().resolve()).as_posix()], [None]
      when it raises *)
  resolve_relative : path -> option string;
  (** [p.exists()] *)
  exists_ : trace -> path -> bool;
  (** [Path(folder).glob('*.ipynb')] and [Path(folder).glob('*.md')] *)
  glob_notebooks : trace -> path -> list path;
  glob_markdown : trace -> path -> list path;
  (** [glob(pattern, recursive=True)] *)
  glob : trace -> string -> list string;
  (** [json.load] of a notebook file *)
  load_notebook : trace -> path -> result json;
  (** reading a markdown file, and the front matter [yaml.safe_load] finds
      in it: the parsed block and the body after it, [None] when the file
      does not start with one *)
  read_text : trace -> path -> string;
  front_matter : string -> option (result json * string);
  (** the references to local files found in a notebook's markdown cell and
      in a markdown body ([re.findall] over the patterns of the script) *)
  notebook_references : string -> list string;
  markdown_references : string -> list string;
  (** [str(x)] as an f-string formats a value that is no string *)
  repr : json -> string;
  (** [urllib.parse.quote] *)
  quote : string -> string;
  (** [os.path.relpath] *)
  relpath : path -> path -> string;
  (** the outcome of the converter cascade for a presentation, and whether
      a rasterizer leaves a thumbnail *)
  converted_pdf : trace -> path -> option path;
  thumbnail : trace -> path -> path -> bool;
  (** whether publishing the two branches succeeds *)
  git_publish : trace -> bool -> bool
}.

(** ** Configuration ([workshop-config.yaml]) *)

(** The value under [metadata_overrides] or [metadata]: a mapping from
    pattern to values, in the order of the file, a list of rules, or
    anything else. *)
Inductive overrides_cfg :=
  | OvMapping (entries : list (string * json))
  | OvList (items : list json)
  | OvOther (v : json).

(** One entry of [sections]: a mapping, or just the folder name. *)
Record section_cfg := {
  sec_folder : string;
  sec_title : option string;
  sec_slides : option string;
  sec_data_files : list string;
  sec_icon : option string;
  sec_draft : bool;
  sec_description : json
}.

Inductive section_entry :=
  | SectionDict (s : section_cfg)
  | SectionName (folder : string).

Record config := {
  github_repo : option string;
  github_branch : option string;
  cfg_output_dir : option string;
  cfg_sections : list section_entry;
  cfg_slides : option string;
  cfg_data_files : list string;
  cfg_links : json;
  metadata_overrides : option overrides_cfg;
  metadata : option overrides_cfg
}.

Definition overrides_truthy (o : overrides_cfg) : bool :=
  match o with
  | OvMapping entries => negb (Nat.eqb (length entries) 0)
  | OvList items => negb (Nat.eqb (length items) 0)
  | OvOther v => truthy v
  end.

(** ** Override rules ([_iter_metadata_overrides]) *)

Definition pattern_keys : list string := ["pattern"; "file"; "match"].

(** The rule a list item stands for: the first truthy of its pattern keys,
    and its [values] or [merge], or else every other key of the item. *)
Definition rule_of_item (item : json) : option (json * json) :=
  match item with
  | JDict d =>
      let pattern := py_or (py_or (get "pattern" d) (get "file" d)) (get "match" d) in
      let values := py_or (get "values" d) (get "merge" d) in
      let values :=
        if truthy values then values
        else JDict (filter (fun kv => kv.1 ∉ pattern_keys) d) in
      if truthy pattern && is_dict values then Some (pattern, values) else None
  | _ => None
  end.

(** The rules as [(pattern, values)] pairs, in the order they are yielded. *)
Definition _iter_metadata_overrides (config : config) : list (json * json) :=
  let md :=
    match metadata_overrides config with
    | Some o => if overrides_truthy o then Some o else metadata config
    | None => metadata config
    end in
  match md with
  | Some (OvMapping entries) =>
      omap (fun '(pat, vals) => if is_dict vals then Some (JStr pat, vals) else None) entries
  | Some (OvList items) => omap rule_of_item items
  | _ => []
  end.

(** ** Applying the overrides ([apply_metadata_overrides]) *)

(** The key and the value that an element of a sequence given to [dict]
    stands for: the element must be a sequence of length two, and its first
    item hashable.  A string of two characters gives the first for the
    second; a list, its first item for the second. *)
Definition pair_of (element : json) : result (string * json) :=
  match element with
  | JStr s =>
      match characters (chars s) with
      | [k; v] => Ok (text k.1, JStr (text v.1))
      | _ => Err ValueError
      end
  | JList [k; v] =>
      match k with
      | JStr key => Ok (key, v)
      | JList _ | JDict _ => Err TypeError
      | JNull | JBool _ | JNum _ => Err OutsideModel
      end
  | JList _ => Err ValueError
  | JDict d => if size d =? 2 then Err OutsideModel else Err ValueError
  | JNull | JBool _ | JNum _ => Err TypeError
  end.

(** [dict(items)] for a list: the pairs are stored in order, a later one
    over an earlier one with its key, up to the first element that is no
    pair. *)
Fixpoint dict_of_pairs (items : list json) (d : gmap string json)
  : result (gmap string json) :=
  match items with
  | [] => Ok d
  | element :: items' =>
      pair ← pair_of element;
      dict_of_pairs items' (<[pair.1 := pair.2]> d)
  end.

(** [dict(meta or {})]: a copy of a mapping, the mapping of the pairs of a
    list; the characters of a string are no pairs, and no other value can be
    iterated. *)
Definition dict_copy (meta : json) : result json :=
  if truthy meta then
    match meta with
    | JDict _ => Ok meta
    | JList items => d ← dict_of_pairs items ∅; Ok (JDict d)
    | JStr _ => Err ValueError
    | JNull | JBool _ | JNum _ => Err TypeError
    end
  else Ok (JDict ∅).

(** The test of the loop: the pattern matches the path relative to the
    working directory, or the bare file name. *)
Definition rule_matches (rel file_name pattern : string) : bool :=
  fnmatch rel pattern || fnmatch file_name pattern.

(** One turn of the loop over the rules. *)
Definition apply_rule (rel file_name : string) (merged : json) (rule : json * json)
  : result json :=
  match rule.1 with
  | JStr pattern =>
      if rule_matches rel file_name pattern
      then _deep_merge merged rule.2
      else Ok merged
  | _ => Err TypeError
  end.

Fixpoint apply_rules (rel file_name : string) (merged : json) (rules : list (json * json))
  : result json :=
  match rules with
  | [] => Ok merged
  | rule :: rules' =>
      merged' ← apply_rule rel file_name merged rule;
      apply_rules rel file_name merged' rules'
  end.

Definition apply_metadata_overrides (w : world) (file_path : path) (meta : json)
    (config : config) : result json :=
  let rel := default (as_posix file_path) (resolve_relative w file_path) in
  merged ← dict_copy meta;
  apply_rules rel (name file_path) merged (_iter_metadata_overrides config).

(** ** Published items *)

Inductive item_files :=
  | NotebookFiles (exercise_file answers_file : string)
  | MarkdownFile (html_file : string).

(** The record a processor returns for the index. *)
Record summary := {
  s_name : string;
  s_title : json;
  s_description : json;
  s_files : item_files;
  s_data_file : option string;
  s_section : string;
  s_order : json;
  s_links : json;
  s_slides : json
}.

(** What [main] collects: a processed file with its section's folder and
    slides, or the placeholder of a draft section. *)
Inductive item :=
  | Published (info : summary) (section_folder : string) (section_slides : option string)
  | DraftPlaceholder (section section_folder : string) (description : json).

Definition item_section (it : item) : string :=
  match it with
  | Published info _ _ => s_section info
  | DraftPlaceholder section _ _ => section
  end.

Definition item_section_folder (it : item) : string :=
  match it with
  | Published _ folder _ => folder
  | DraftPlaceholder _ folder _ => folder
  end.

(** [item.get('is_draft')] *)
Definition is_draft (it : item) : bool :=
  match it with DraftPlaceholder _ _ _ => true | Published _ _ _ => false end.

(** ** Notebook processing *)

(** [str(x)] of an f-string hole *)
Definition fmt (w : world) (j : json) : string :=
  match j with JStr s => s | _ => repr w j end.

Definition get_notebook_metadata (notebook : json) : result json :=
  match notebook with
  | JDict nb =>
      match nb !! "metadata" with
      | None => Ok (JDict ∅)
      | Some (JDict md) => Ok (default (JDict ∅) (md !! "workshop"))
      | Some _ => Err AttributeError
      end
  | _ => Err AttributeError
  end.

Definition code_cell (source : list string) : json :=
  JDict {[ "cell_type" := JStr "code";
           "metadata" := JDict ∅;
           "source" := JList (JStr <$> source);
           "execution_count" := JNull;
           "outputs" := JList [] ]}.

(** The cell that takes the place of a solution. *)
Definition empty_code_cell : json := code_cell [].

Definition markdown_cell (source : list string) : json :=
  JDict {[ "cell_type" := JStr "markdown";
           "metadata" := JDict ∅;
           "source" := JList (JStr <$> source) ]}.

Definition is_str (s : string) (j : json) : bool :=
  match j with JStr s' => String.eqb s' s | _ => false end.

(** ['solution' in tags] *)
Definition has_solution (tags : json) : result bool :=
  match tags with
  | JList l => Ok (existsb (is_str "solution") l)
  | JStr s => Ok (contains (chars "solution") (chars s))
  | JDict d => Ok (bool_decide (is_Some (d !! "solution")))
  | _ => Err TypeError
  end.

(** [cell.get('metadata', {}).get('tags')] *)
Definition cell_tags (c : gmap string json) : result json :=
  match c !! "metadata" with
  | None => Ok JNull
  | Some (JDict md) => Ok (get "tags" md)
  | Some _ => Err AttributeError
  end.

(** One turn of the loop over the cells of the exercise notebook: the cell
    left at that position. *)
Definition exercise_cell (cell : json) : result json :=
  match cell with
  | JDict c =>
      match c !! "cell_type" with
      | None => Err (KeyError "cell_type")
      | Some ty =>
          let c :=
            if is_str "code" ty
            then <["execution_count" := JNull]> (<["outputs" := JList []]> c)
            else c in
          tags ← cell_tags c;
          if truthy tags then
            has_solution tags ≫= fun solution : bool =>
              Ok (if solution then empty_code_cell else JDict c)
          else Ok (JDict c)
      end
  | _ => Err TypeError
  end.

Fixpoint map_result {A B} (f : A -> result B) (l : list A) : result (list B) :=
  match l with
  | [] => Ok []
  | x :: l' => y ← f x; ys ← map_result f l'; Ok (y :: ys)
  end.

(** [nb['cells']] *)
Definition cells_of (nb : gmap string json) : result (list json) :=
  match nb !! "cells" with
  | None => Err (KeyError "cells")
  | Some (JList cells) => Ok cells
  | Some _ => Err TypeError
  end.

(** *** Setup cells ([create_setup_cells]) *)

Definition install_line (package : json) : result (list string) :=
  match package with
  | JStr p =>
      let p := text (strip (chars p)) in
      Ok (if String.eqb p "" then [] else [("%pip install --upgrade --quiet " +:+ p +:+ nl)])
  | _ => Err AttributeError
  end.

Definition install_cells (install_packages : json) : result (list json) :=
  if truthy install_packages then
    let packages :=
      match install_packages with
      | JStr s => JStr <$> py_split s
      | JList l => l
      | _ => []
      end in
    (lines ← map_result install_line packages;
     Ok (match packages with
         | [] => []
         | _ => [code_cell (("# Install required packages" +:+ nl) :: concat lines)]
         end))
  else Ok [].

Definition download_cell (w : world) (zip_name github_repo github_branch output_dir : string)
    (section_folder : string) : json :=
  let encoded_zip_name := quote w zip_name in
  let encoded_zip_url :=
    if String.eqb section_folder ""
    then (output_dir +:+ "/" +:+ encoded_zip_name)
    else (output_dir +:+ "/" +:+ section_folder +:+ "/" +:+ encoded_zip_name) in
  code_cell [
    ("# Download and extract data files" +:+ nl);
    ("import os" +:+ nl);
    ("import urllib.request" +:+ nl);
    ("import zipfile" +:+ nl);
    nl;
    ("url = 'https://github.com/" +:+ github_repo +:+ "/raw/" +:+ github_branch +:+ "/" +:+ encoded_zip_url +:+ "'" +:+ nl);
    ("print(f'Downloading data from {url}...')" +:+ nl);
    ("urllib.request.urlretrieve(url, '" +:+ zip_name +:+ "')" +:+ nl);
    nl;
    ("print('Extracting " +:+ zip_name +:+ "...')" +:+ nl);
    ("with zipfile.ZipFile('" +:+ zip_name +:+ "', 'r') as zip_ref:" +:+ nl);
    ("    zip_ref.extractall('.')" +:+ nl);
    nl;
    ("os.remove('" +:+ zip_name +:+ "')" +:+ nl);
    "print('‚úì Data files extracted!')" ].

Definition create_setup_cells (w : world) (zip_name : option string) (config : config)
    (install_packages : json) (section_folder : string) (for_codespaces : bool)
  : result (list json) :=
  if for_codespaces then Ok []
  else
    match github_repo config with
    | None => Err (KeyError "github_repo")
    | Some repo =>
        let branch := default "main" (github_branch config) in
        let output_dir := default "docs" (cfg_output_dir config) in
        install ← install_cells install_packages;
        Ok (install ++
            match zip_name with
            | Some zip =>
                if String.eqb zip "" then []
                else [download_cell w zip repo branch output_dir section_folder]
            | None => []
            end)
    end.

(** *** Archives and referenced files *)

(** [for x in v]: a list yields its elements, a string its characters, a
    mapping its keys (in the order of the map, not of insertion). *)
Definition iterate (v : json) : result (list json) :=
  match v with
  | JList l => Ok l
  | JStr s => Ok ((fun c => JStr (text [c])) <$> chars s)
  | JDict d => Ok (JStr <$> (map_to_list d).*1)
  | _ => Err TypeError
  end.

Definition starts_with (pre s : string) : bool := is_prefix (chars pre) (chars s).

(** The loop over the matches of one pattern in [create_data_zip];
    [added_files] holds the paths written so far. *)
Fixpoint zip_matches (zip_path base_dir : path) (matches : list string)
    (added_files : list string) : M (list string) :=
  match matches with
  | [] => mret added_files
  | m :: matches' =>
      let file_path := Path m in
      let arcname := default file_path (relative_to file_path base_dir) in
      if bool_decide (as_posix file_path ∈ added_files)
      then zip_matches zip_path base_dir matches' added_files
      else
        emit (ZipMember zip_path file_path (as_posix arcname)) ≫= fun _ =>
        zip_matches zip_path base_dir matches' (added_files ++ [as_posix file_path])
  end.

Fixpoint zip_patterns (w : world) (zip_path base_dir : path) (patterns : list json)
    (added_files : list string) : M unit :=
  match patterns with
  | [] => mret tt
  | JStr pattern :: patterns' =>
      let full_pattern := as_posix (joinpath base_dir pattern) in
      observe (fun t => glob w t full_pattern) ≫= fun matches =>
      zip_matches zip_path base_dir matches added_files ≫= fun added_files =>
      zip_patterns w zip_path base_dir patterns' added_files
  | _ :: _ => raise TypeError
  end.

Definition create_data_zip (w : world) (data_patterns : json) (zip_path base_dir : path)
  : M unit :=
  emit (CreateZip zip_path) ≫= fun _ =>
  lift (iterate data_patterns) ≫= fun patterns =>
  zip_patterns w zip_path base_dir patterns [].

(** [''.join(cell.get('source', []))] *)
Definition source_text (c : gmap string json) : result string :=
  match c !! "source" with
  | None => Ok ""
  | Some src =>
      parts ← iterate src;
      map_result (fun p => match p with JStr s => Ok s | _ => Err TypeError end) parts
        ≫= fun strs : list string => Ok (String.concat "" strs)
  end.

Definition is_url (s : string) : bool :=
  starts_with "http://" s || starts_with "https://" s.

(** Copies one referenced file into the output directory when it exists
    beside the source and is not there yet; returns whether the source
    exists. *)
Definition copy_reference (w : world) (source_dir output_dir : path) (ref : string)
  : M bool :=
  let source_file := joinpath source_dir ref in
  observe (fun t => exists_ w t source_file) ≫= fun found =>
  if found : bool then
    let dest_file := joinpath output_dir ref in
    emit (Mkdir (parent dest_file)) ≫= fun _ =>
    observe (fun t => exists_ w t dest_file) ≫= fun there =>
    (if there : bool then mret tt else emit (CopyFile source_file dest_file)) ≫= fun _ =>
    mret true
  else mret false.

Definition find_and_copy_cell (w : world) (notebook_dir output_dir : path) (cell : json)
  : M unit :=
  match cell with
  | JDict c =>
      match c !! "cell_type" with
      | None => raise (KeyError "cell_type")
      | Some ty =>
          if is_str "markdown" ty then
            lift (source_text c) ≫= fun content =>
            for_each (filter (fun r => is_url r = false) (notebook_references w content))
              (fun ref => copy_reference w notebook_dir output_dir ref ≫= fun _ => mret tt)
          else mret tt
      end
  | _ => raise TypeError
  end.

Definition find_and_copy_referenced_files (w : world) (cells : list json)
    (notebook_dir output_dir : path) : M unit :=
  for_each cells (find_and_copy_cell w notebook_dir output_dir).

(** *** [process_notebook] *)

Definition normalize_kernelspec (nb_metadata : gmap string json)
  : result (gmap string json) :=
  kernelspec ← match nb_metadata !! "kernelspec" with
               | None => Ok ∅
               | Some (JDict ks) => Ok ks
               | Some _ => Err TypeError
               end;
  Ok (<["kernelspec" :=
         JDict (<["language" := JStr "python"]>
               (<["display_name" := JStr "Python 3"]>
               (<["name" := JStr "python3"]> kernelspec)))]> nb_metadata).

(** The slide file is looked for beside the notebook, then as a path of its
    own; it is copied beside the outputs, and a missing one ends the run. *)
Definition copy_slide_file (w : world) (slide_file : string) (notebook_dir output_subdir : path)
  : M unit :=
  let source_pdf := joinpath notebook_dir slide_file in
  observe (fun t => exists_ w t source_pdf) ≫= fun found =>
  let source_pdf := if found : bool then source_pdf else Path slide_file in
  observe (fun t => exists_ w t source_pdf) ≫= fun found =>
  if found : bool then
    let dest_pdf := joinpath output_subdir (name (Path slide_file)) in
    observe (fun t => exists_ w t dest_pdf) ≫= fun there =>
    if there : bool then mret tt else emit (CopyFile source_pdf dest_pdf)
  else sys_exit 1.

Definition slide_link_cell (slide_file : string) : json :=
  let sname := name (Path slide_file) in
  markdown_cell [("**Slides:** [" +:+ sname +:+ "](./" +:+ sname +:+ ")")].

Definition process_notebook (w : world) (notebook_path output_dir : path) (config : config)
  : M (option summary) :=
  observe (fun t => load_notebook w t notebook_path) ≫= fun loaded =>
  lift loaded ≫= fun notebook =>
  lift (get_notebook_metadata notebook) ≫= fun metadata =>
  lift (apply_metadata_overrides w notebook_path metadata config) ≫= fun metadata =>
  match notebook, metadata with
  | JDict nb, JDict md =>
      if negb (truthy metadata) then mret None
      else
        let base_name := stem notebook_path in
        let notebook_dir := parent notebook_path in
        let nb_metadata := match nb !! "metadata" with Some (JDict m) => m | _ => ∅ end in
        lift (normalize_kernelspec nb_metadata) ≫= fun nb_metadata =>
        let nb_metadata := <["workshop" := metadata]> nb_metadata in
        lift (cells_of nb) ≫= fun cells =>
        lift (map_result exercise_cell cells) ≫= fun exercise_cells =>
        let data_files := get "data_files" md in
        (if truthy data_files || truthy (get "install" md) then
           let zip_name :=
             if truthy data_files then Some (base_name +:+ "-data.zip") else None in
           let install_packages :=
             default (JStr "pandas natural_pdf tqdm") (md !! "install") in
           lift (create_setup_cells w zip_name config install_packages
                   (name notebook_dir) false)
         else mret []) ≫= fun setup_cells =>
        emit (Mkdir output_dir) ≫= fun _ =>
        let output_subdir := joinpath output_dir (name notebook_dir) in
        emit (Mkdir output_subdir) ≫= fun _ =>
        find_and_copy_referenced_files w (setup_cells ++ cells) notebook_dir output_subdir
          ≫= fun _ =>
        let slide_file := get "slides" md in
        (if truthy slide_file then
           match slide_file with
           | JStr sf =>
               copy_slide_file w sf notebook_dir output_subdir ≫= fun _ =>
               mret [slide_link_cell sf]
           | _ => raise TypeError
           end
         else mret []) ≫= fun slide_cells =>
        (if truthy data_files then
           create_data_zip w data_files
             (joinpath output_subdir (base_name +:+ "-data.zip")) notebook_dir
         else mret tt) ≫= fun _ =>
        let variant (cs : list json) : json :=
          JDict (<["cells" := JList (setup_cells ++ slide_cells ++ cs)]>
                (<["metadata" := JDict nb_metadata]> nb)) in
        emit (WriteNotebook (joinpath output_subdir (base_name +:+ ".ipynb"))
                (variant exercise_cells)) ≫= fun _ =>
        emit (WriteNotebook (joinpath output_subdir (base_name +:+ "-ANSWERS.ipynb"))
                (variant cells)) ≫= fun _ =>
        mret (Some {|
          s_name := base_name;
          s_title := default (JStr base_name) (md !! "title");
          s_description := default (JStr "") (md !! "description");
          s_files := NotebookFiles
                       (name notebook_dir +:+ "/" +:+ base_name +:+ ".ipynb")
                       (name notebook_dir +:+ "/" +:+ base_name +:+ "-ANSWERS.ipynb");
          s_data_file :=
            if truthy data_files
            then Some (name notebook_dir +:+ "/" +:+ base_name +:+ "-data.zip")
            else None;
          s_section := name notebook_dir;
          s_order := get "order" md;
          s_links := get "links" md;
          s_slides := get "slides" md |})
  | _, _ => raise TypeError
  end.

(** ** Table of contents ([generate_toc_from_markdown])

    On the bytes of an ASCII text, with the ASCII character classes; the
    function on the code points of any text is [Toc.generate_toc_from_markdown]
    below, which this one agrees with on ASCII ([generate_toc_ascii]). *)

(** A line that [^## (.+)$] matches, and the heading it captures. *)
Definition header_of_line (line : list ascii) : option (list ascii) :=
  match line with
  | h1 :: h2 :: sp :: (_ :: _) as heading =>
      if is_char 35 h1 && is_char 35 h2 && is_char 32 sp then Some heading else None
  | _ => None
  end.

(** [re.findall(r'^## (.+)$', markdown_content, re.MULTILINE)] *)
Definition find_headers (markdown_content : string) : list string :=
  text <$> omap header_of_line (split_on (ascii_of_nat 10) (chars markdown_content)).

(** The characters [re.sub(r'[^\w\s-]', '', header)] keeps. *)
Definition anchor_char (c : ascii) : bool :=
  is_word c || is_space c || is_char 45 c.

Definition hyphenate (c : ascii) : ascii :=
  if is_char 32 c then ascii_of_nat 45 else c.

(** [re.sub(r'[^\w\s-]', '', header).strip().lower().replace(' ', '-')] *)
Definition anchor (header : string) : string :=
  text (hyphenate <$> lower (strip (filter (fun c => anchor_char c = true) (chars header)))).

Definition toc_headers (markdown_content : string) (has_useful_links : bool) : list string :=
  (if has_useful_links then ["Useful Links"] else []) ++ find_headers markdown_content.

Definition toc_entry (header : string) : string :=
  ("- [" +:+ header +:+ "](#" +:+ (anchor header) +:+ ")").

Definition generate_toc_from_markdown (markdown_content : string) (has_useful_links : bool)
  : string :=
  match toc_headers markdown_content has_useful_links with
  | [] => ""
  | headers => join nl (("## Table of Contents" +:+ nl) :: (toc_entry <$> headers)) +:+ nl
  end.

(** ** Slides ([generate_slide_embed]) *)

(** [s.replace(a, b)] for single characters *)
Definition replace_char (a b : nat) (s : string) : string :=
  text ((fun c => if is_char a c then ascii_of_nat b else c) <$> chars s).

(** The converter cascade of [convert_pptx_to_pdf], by its outcome. *)
Definition convert_pptx_to_pdf (w : world) (pptx_path : path) : M (option path) :=
  emit (ConvertSlides pptx_path) ≫= fun _ =>
  observe (fun t => converted_pdf w t pptx_path).

(** [create_slide_thumbnail]: a thumbnail already there is used, else the
    rasterizers are tried. *)
Definition create_slide_thumbnail (w : world) (pdf_path output_dir : path)
  : M (option string) :=
  let thumb_name := stem pdf_path +:+ "-thumb.png" in
  observe (fun t => exists_ w t (joinpath output_dir thumb_name)) ≫= fun there =>
  if there : bool then mret (Some thumb_name)
  else
    emit (MakeThumbnail pdf_path output_dir) ≫= fun _ =>
    observe (fun t => thumbnail w t pdf_path output_dir) ≫= fun made =>
    mret (if made : bool then Some thumb_name else None).

Definition download_only_box (slide_file_path slide_name : string) : string :=
  (nl +:+ "<div class=" +:+ dq +:+ "download-box" +:+ dq +:+ ">" +:+ nl +:+ "    <strong>Slides:</strong> <a href=" +:+ dq +:+ "./" +:+ slide_file_path +:+ dq +:+ ">üì• Download PowerPoint (" +:+ slide_name +:+ ")</a>" +:+ nl +:+ "</div>" +:+ nl).

Definition slide_embed_html (slide_id slide_file_path preview_html : string) : string :=
  (nl +:+ "<div id=" +:+ dq +:+ slide_id +:+ dq +:+ " class=" +:+ dq +:+ "slide-embed" +:+ dq +:+ " style=" +:+ dq +:+ "margin: 2em 0;" +:+ dq +:+ ">" +:+ nl +:+ "    <div class=" +:+ dq +:+ "slide-preview" +:+ dq +:+ " onclick=" +:+ dq +:+ "loadSlides('" +:+ slide_id +:+ "', './" +:+ slide_file_path +:+ "')" +:+ dq +:+ ">" +:+ nl +:+ "        " +:+ preview_html +:+ nl +:+ "        <p style=" +:+ dq +:+ "text-align: center; margin-top: 0.5em;" +:+ dq +:+ ">" +:+ nl +:+ "            <button style=" +:+ dq +:+ "padding: 0.5em 1em; background: #1976d2; color: white; border: none; border-radius: 4px; cursor: pointer;" +:+ dq +:+ ">" +:+ nl +:+ "                üìä View Slides" +:+ nl +:+ "            </button>" +:+ nl +:+ "            <a href=" +:+ dq +:+ "./" +:+ slide_file_path +:+ dq +:+ " download style=" +:+ dq +:+ "margin-left: 1em;" +:+ dq +:+ ">üì• Download PDF</a>" +:+ nl +:+ "        </p>" +:+ nl +:+ "    </div>" +:+ nl +:+ "    <div class=" +:+ dq +:+ "slide-container" +:+ dq +:+ " style=" +:+ dq +:+ "display: none;" +:+ dq +:+ ">" +:+ nl +:+ "        <embed src=" +:+ dq +:+ "./" +:+ slide_file_path +:+ dq +:+ " type=" +:+ dq +:+ "application/pdf" +:+ dq +:+ " style=" +:+ dq +:+ "width: 100%; height: 600px; border: 1px solid #ddd;" +:+ dq +:+ ">" +:+ nl +:+ "    </div>" +:+ nl +:+ "</div>" +:+ nl +:+ nl +:+ "<script>" +:+ nl +:+ "function loadSlides(id, src) {" +:+ nl +:+ "    const container = document.querySelector(`#${id} .slide-container`);" +:+ nl +:+ "    const preview = document.querySelector(`#${id} .slide-preview`);" +:+ nl +:+ "    container.style.display = 'block';" +:+ nl +:+ "    preview.style.display = 'none';" +:+ nl +:+ "}" +:+ nl +:+ "</script>" +:+ nl).

(** The slide file is looked for under [notebook_dir], then as a path of its
    own; when neither exists the run ends with status 1. *)
Definition find_slide_file (w : world) (slide_file : string) (notebook_dir : path) : M path :=
  let source_file := joinpath notebook_dir slide_file in
  observe (fun t => exists_ w t source_file) ≫= fun found =>
  if found : bool then mret source_file
  else
    let source_file := Path slide_file in
    observe (fun t => exists_ w t source_file) ≫= fun found =>
    if found : bool then mret source_file else sys_exit 1.

Definition generate_slide_embed (w : world) (slide_file : string)
    (notebook_dir output_dir : path) (item_type : string) (section_folder : option string)
  : M string :=
  find_slide_file w slide_file notebook_dir ≫= fun source_file =>
  let slide_name := name (Path slide_file) in
  let in_section :=
    match section_folder with
    | Some f => negb (String.eqb f "") && String.eqb item_type "index"
    | None => false
    end in
  let folder := default "" section_folder in
  let actual_output_dir := if in_section then joinpath output_dir folder else output_dir in
  (if in_section then emit (Mkdir actual_output_dir) else mret tt) ≫= fun _ =>
  let slide_file_path :=
    if in_section then (folder +:+ "/" +:+ slide_name) else slide_name in
  let embed (source_pdf : path) (pdf_filename : string) : M string :=
    let dest_pdf := joinpath actual_output_dir pdf_filename in
    observe (fun t => exists_ w t dest_pdf) ≫= fun there =>
    (if there : bool then mret tt else emit (CopyFile source_pdf dest_pdf)) ≫= fun _ =>
    create_slide_thumbnail w source_pdf actual_output_dir ≫= fun thumb_name =>
    let slide_id := replace_char 46 45 (replace_char 32 45 ("slides-" +:+ stem source_pdf)) in
    let preview_html :=
      match thumb_name with
      | Some thumb_name =>
          if String.eqb thumb_name "" then ("<div style=" +:+ dq +:+ "background: #f0f0f0; padding: 3em; text-align: center; cursor: pointer;" +:+ dq +:+ ">üìä Click to load slides</div>")
          else
            let thumb_path := if in_section then (folder +:+ "/" +:+ thumb_name) else thumb_name in
            ("<img src=" +:+ dq +:+ "./" +:+ thumb_path +:+ dq +:+ " alt=" +:+ dq +:+ "First slide" +:+ dq +:+ " style=" +:+ dq +:+ "max-width: 100%; cursor: pointer;" +:+ dq +:+ ">")
      | None => ("<div style=" +:+ dq +:+ "background: #f0f0f0; padding: 3em; text-align: center; cursor: pointer;" +:+ dq +:+ ">üìä Click to load slides</div>")
      end in
    mret (slide_embed_html slide_id slide_file_path preview_html) in
  if String.eqb (text (lower (chars (suffix source_file)))) ".pptx" then
    convert_pptx_to_pdf w source_file ≫= fun converted_pdf =>
    match converted_pdf with
    | Some pdf => embed pdf (name pdf)
    | None =>
        let dest_file := joinpath actual_output_dir slide_name in
        observe (fun t => exists_ w t dest_file) ≫= fun there =>
        (if there : bool then mret tt else emit (CopyFile source_file dest_file)) ≫= fun _ =>
        mret (download_only_box slide_file_path slide_name)
    end
  else embed source_file slide_name.

(** ** Markdown processing ([process_markdown]) *)

(** [extract_markdown_frontmatter]: a block that does not parse counts as
    none. *)
Definition extract_markdown_frontmatter (w : world) (content : string) : json * string :=
  match front_matter w content with
  | Some (Ok frontmatter, markdown_content) => (frontmatter, markdown_content)
  | _ => (JDict ∅, content)
  end.

(** Copies what the body refers to; a missing file is only reported. *)
Definition copy_markdown_referenced_files (w : world) (content : string)
    (markdown_dir output_dir : path) : M unit :=
  for_each (filter (fun r => is_url r = false) (markdown_references w content))
    (fun ref => copy_reference w markdown_dir output_dir ref ≫= fun _ => mret tt).

(** [link.get(key, fallback)] for one entry of a list of links *)
Definition link_field (link : json) (key : string) (fallback : json) : result json :=
  match link with
  | JDict d => Ok (default fallback (d !! key))
  | _ => Err AttributeError
  end.

Definition link_lines (w : world) (entry : string -> string -> string)
    (entry_desc : string -> string -> string -> string) (links : json)
  : result (list string) :=
  items ← iterate links;
  map_result (fun link =>
    link_field link "name" (JStr "Link") ≫= fun nm : json =>
    link_field link "url" (JStr "#") ≫= fun url : json =>
    link_field link "description" (JStr "") ≫= fun desc : json =>
    Ok (if truthy desc then entry_desc (fmt w nm) (fmt w url) (fmt w desc)
        else entry (fmt w nm) (fmt w url))) items.

Definition markdown_link (nm url : string) : string := ("- [" +:+ nm +:+ "](" +:+ url +:+ ")" +:+ nl).
Definition markdown_link_desc (nm url desc : string) : string := ("- [" +:+ nm +:+ "](" +:+ url +:+ ") - " +:+ desc +:+ nl).

Definition download_box (zip_name : string) : string := ("<div class=" +:+ dq +:+ "download-box" +:+ dq +:+ ">" +:+ nl +:+ "<strong>Download files:</strong> <a href=" +:+ dq +:+ "./" +:+ zip_name +:+ dq +:+ ">üì¶ " +:+ zip_name +:+ "</a>" +:+ nl +:+ "</div>" +:+ nl +:+ nl).

Definition process_markdown (w : world) (markdown_path output_dir : path) (config : config)
  : M (option summary) :=
  observe (fun t => read_text w t markdown_path) ≫= fun content =>
  let '(frontmatter, markdown_content) := extract_markdown_frontmatter w content in
  let frontmatter := if truthy frontmatter then frontmatter else JDict ∅ in
  lift (apply_metadata_overrides w markdown_path frontmatter config) ≫= fun frontmatter =>
  match frontmatter with
  | JDict fm =>
      let base_name := stem markdown_path in
      let markdown_dir := parent markdown_path in
      let title := default (JStr base_name) (fm !! "title") in
      let output_subdir := joinpath output_dir (name markdown_dir) in
      emit (Mkdir output_subdir) ≫= fun _ =>
      copy_markdown_referenced_files w markdown_content markdown_dir output_subdir ≫= fun _ =>
      let data_files := get "data_files" fm in
      let zip_name := base_name +:+ "-data.zip" in
      (if truthy data_files then
         create_data_zip w data_files (joinpath output_subdir zip_name) markdown_dir
       else mret tt) ≫= fun _ =>
      let index_rel := relpath w (joinpath output_dir "index.html") output_subdir in
      let links := get "links" fm in
      let toc := generate_toc_from_markdown markdown_content (truthy links) in
      let slides := get "slides" fm in
      (if truthy slides then
         match slides with
         | JStr sf =>
             generate_slide_embed w sf markdown_dir output_dir "markdown" None ≫= fun slide_html =>
             mret (slide_html +:+ nl +:+ nl)
         | _ => raise TypeError
         end
       else mret "") ≫= fun slide_part =>
      (if truthy links then
         lift (link_lines w markdown_link markdown_link_desc links) ≫= fun ls =>
         mret (("## Useful Links" +:+ nl +:+ nl) +:+ String.concat "" ls +:+ nl)
       else mret "") ≫= fun links_part =>
      let full_content :=
        ("[‚Üê Back to main page](" +:+ index_rel +:+ ")" +:+ nl +:+ nl +:+ "# " +:+ (fmt w title) +:+ nl +:+ nl)
        +:+ (if String.eqb toc "" then "" else toc +:+ nl)
        +:+ (if truthy data_files then download_box zip_name else "")
        +:+ slide_part +:+ links_part +:+ markdown_content in
      emit (WritePage (joinpath output_subdir (base_name +:+ ".html")) full_content
              (fmt w title)) ≫= fun _ =>
      mret (Some {|
        s_name := base_name;
        s_title := title;
        s_description := default (JStr "") (fm !! "description");
        s_files := MarkdownFile (name markdown_dir +:+ "/" +:+ base_name +:+ ".html");
        s_data_file :=
          if truthy data_files
          then Some (name markdown_dir +:+ "/" +:+ base_name +:+ "-data.zip")
          else None;
        s_section := name markdown_dir;
        s_order := get "order" fm;
        s_links := links;
        s_slides := slides |})
  | _ => raise TypeError
  end.

(** ** Index builder ([create_index]) *)

(** *** Order of the items of a section *)

(** An ordering key: a number (a boolean counts as one) or a string.  A
    mapping or a sequence as a key is outside this model. *)
Inductive order_key :=
  | OrderInt (z : Z)
  | OrderStr (s : string).

(** [item.get('order')], [None] when missing or null. *)
Definition order_of (j : json) : result (option order_key) :=
  match j with
  | JNull => Ok None
  | JNum z => Ok (Some (OrderInt z))
  | JBool b => Ok (Some (OrderInt (if b then 1 else 0)))
  | JStr s => Ok (Some (OrderStr s))
  | JList _ | JDict _ => Err TypeError
  end.

Definition item_order (it : item) : json :=
  match it with
  | Published info _ _ => s_order info
  | DraftPlaceholder _ _ _ => JNull
  end.

(** [item.get('name', '')] *)
Definition item_name (it : item) : string :=
  match it with
  | Published info _ _ => s_name info
  | DraftPlaceholder _ _ _ => ""
  end.

(** [sort_key]: items with an order first, by it; then the others. *)
Definition sort_key (ki : option order_key * item) : nat * order_key * string :=
  match ki.1 with
  | Some k => (0, k, "")
  | None => (1, OrderInt 0, item_name ki.2)
  end.

Definition order_compare (a b : order_key) : comparison :=
  match a, b with
  | OrderInt x, OrderInt y => Z.compare x y
  | OrderStr s, OrderStr t => String.compare s t
  | OrderInt _, OrderStr _ => Lt
  | OrderStr _, OrderInt _ => Gt
  end.

(** [a <= b] on the tuples [sort_key] returns. *)
Definition key_leb (a b : nat * order_key * string) : bool :=
  match Nat.compare a.1.1 b.1.1 with
  | Lt => true
  | Gt => false
  | Eq =>
      match order_compare a.1.2 b.1.2 with
      | Lt => true
      | Gt => false
      | Eq => String.leb a.2 b.2
      end
  end.

(** [sorted(l, key=key)]: Python's sort is stable, and a stable sort has one
    result; this one inserts each element before the first that is not
    smaller. *)
Fixpoint insert_by {A K} (leb : K -> K -> bool) (key : A -> K) (x : A) (l : list A)
  : list A :=
  match l with
  | [] => [x]
  | y :: l' => if leb (key x) (key y) then x :: l else y :: insert_by leb key x l'
  end.

Fixpoint sorted {A K} (leb : K -> K -> bool) (key : A -> K) (l : list A) : list A :=
  match l with
  | [] => []
  | x :: l' => insert_by leb key x (sorted leb key l')
  end.

(** [sorted(l, key=key, reverse=True)]: the list is reversed, sorted and
    reversed again, so equal keys keep their order. *)
Definition sorted_reverse {A K} (leb : K -> K -> bool) (key : A -> K) (l : list A)
  : list A :=
  rev (sorted leb key (rev l)).

Definition is_int_key (ki : option order_key * item) : bool :=
  match ki.1 with Some (OrderInt _) => true | _ => false end.
Definition is_str_key (ki : option order_key * item) : bool :=
  match ki.1 with Some (OrderStr _) => true | _ => false end.
Definition has_order (ki : option order_key * item) : bool :=
  match ki.1 with Some _ => true | None => false end.

(** The items of a section in the order they are rendered.  Comparing a
    number with a string raises, which happens as soon as the section has
    keys of both kinds. *)
Definition sorted_items (section_items : list item) : result (list item) :=
  keyed ← map_result (fun it => order_of (item_order it) ≫= fun o => Ok (o, it)) section_items;
  if existsb is_int_key keyed && existsb is_str_key keyed then Err TypeError
  else
    let sorted_items := sorted key_leb sort_key keyed in
    let items_with_order := filter (fun ki => has_order ki = true) sorted_items in
    let items_without_order :=
      sorted_reverse String.leb (fun ki => item_name ki.2)
        (filter (fun ki => has_order ki = false) sorted_items) in
    Ok ((items_with_order ++ items_without_order).*2).

(** *** Rendering *)

Definition html_link (nm url : string) : string := ("<li><a href=" +:+ dq +:+ url +:+ dq +:+ ">" +:+ nm +:+ "</a></li>" +:+ nl).
Definition html_link_desc (nm url desc : string) : string := ("<li><a href=" +:+ dq +:+ url +:+ dq +:+ ">" +:+ nm +:+ "</a> " +:+ desc +:+ "</li>" +:+ nl).

Definition colab (github_repo github_branch output_dir_name file : string) : string :=
  ("https://colab.research.google.com/github/" +:+ github_repo +:+ "/blob/" +:+ github_branch +:+ "/" +:+ output_dir_name +:+ "/" +:+ file).

Definition option_truthy (o : option string) : bool :=
  match o with Some s => negb (String.eqb s "") | None => false end.

(** The lines one item adds to the page.  A placeholder has none of the keys
    an item is rendered from. *)
Definition render_item (w : world) (github_repo github_branch output_dir_name : string)
    (icon_prefix : string) (it : item) : result (list string) :=
  match it with
  | DraftPlaceholder _ _ _ => Err (KeyError "exercise_file")
  | Published info _ section_slides =>
      let title := fmt w (s_title info) in
      let description :=
        if truthy (s_description info) then [((fmt w (s_description info)) +:+ nl)] else [] in
      let data (line : string -> string) :=
        match s_data_file info with
        | Some f => if String.eqb f "" then [] else [line f]
        | None => []
        end in
      let body :=
        match s_files info with
        | MarkdownFile html_file =>
            [("### " +:+ icon_prefix +:+ "[" +:+ title +:+ " ‚Üí](./" +:+ html_file +:+ ")" +:+ nl)] ++ description
            ++ [("<div>" +:+ nl)] ++ data (fun f => ("üì¶ Data: <a href=" +:+ dq +:+ "./" +:+ f +:+ dq +:+ ">" +:+ f +:+ "</a><br>" +:+ nl)) ++ [("</div>" +:+ nl)]
        | NotebookFiles exercise_file answers_file =>
            let colab_url := colab github_repo github_branch output_dir_name exercise_file in
            let answers_colab_url :=
              colab github_repo github_branch output_dir_name answers_file in
            [("### " +:+ icon_prefix +:+ "[" +:+ title +:+ " ‚Üí](" +:+ colab_url +:+ ")" +:+ nl)] ++ description
            ++ [("<div class=" +:+ dq +:+ "resource-buttons" +:+ dq +:+ ">" +:+ nl); ("<a href=" +:+ dq +:+ colab_url +:+ dq +:+ " class=" +:+ dq +:+ "resource-button primary" +:+ dq +:+ ">üöÄ Open in Colab</a>" +:+ nl); ("<a href=" +:+ dq +:+ answers_colab_url +:+ dq +:+ " class=" +:+ dq +:+ "resource-button completed" +:+ dq +:+ ">‚úì Completed (Colab)</a>" +:+ nl); ("</div>" +:+ nl);
                ("<div class=" +:+ dq +:+ "download-links" +:+ dq +:+ ">" +:+ nl); ("üìì Download: <a href=" +:+ dq +:+ "./" +:+ exercise_file +:+ dq +:+ ">worksheet</a> | "); ("<a href=" +:+ dq +:+ "./" +:+ answers_file +:+ dq +:+ ">completed</a><br>" +:+ nl)]
            ++ data (fun f => ("üì¶ Data: <a href=" +:+ dq +:+ "./" +:+ f +:+ dq +:+ ">" +:+ f +:+ "</a>" +:+ nl)) ++ [("</div>" +:+ nl)]
        end in
      slides ←
        (if truthy (s_slides info) then
           match s_slides info with
           | JStr slides =>
               if bool_decide (section_slides = Some slides) then Ok []
               else
                 let slide_filename := name (Path slides) in
                 Ok [("<div style=" +:+ dq +:+ "margin: 0.5em 0; color: #666;" +:+ dq +:+ ">üìë Slides: <a href=" +:+ dq +:+ "./" +:+ slides +:+ dq +:+ ">" +:+ slide_filename +:+ "</a></div>" +:+ nl)]
           | _ => Err TypeError
           end
         else Ok []);
      links ←
        (if truthy (s_links info) then
           link_lines w html_link html_link_desc (s_links info) ≫= fun ls : list string =>
           Ok ([(nl +:+ "**Links:**" +:+ nl +:+ nl); "<ul>"] ++ ls)
         else Ok []);
      Ok (body ++ slides ++ links ++ ["</ul>"; (nl +:+ nl); ""])
  end.

Definition section_title (s : section_cfg) : string :=
  default (sec_folder s) (sec_title s).

(** [section_configs.get(section)]: the last mapping entry with that title. *)
Definition section_config (config : config) (section : string) : option section_cfg :=
  last (omap (fun e => match e with
                       | SectionDict s =>
                           if String.eqb (section_title s) section then Some s else None
                       | SectionName _ => None
                       end) (cfg_sections config)).

(** The items grouped by section, sections in the order they first occur. *)
Fixpoint add_to_section (it : item) (sections : list (string * list item))
  : list (string * list item) :=
  match sections with
  | [] => [(item_section it, [it])]
  | (s, its) :: rest =>
      if String.eqb s (item_section it) then (s, its ++ [it]) :: rest
      else (s, its) :: add_to_section it rest
  end.

Definition group_by_section (notebooks : list item) : list (string * list item) :=
  foldl (fun sections it => add_to_section it sections) [] notebooks.

(** [sections.get(section, [])] *)
Fixpoint section_items_of (sections : list (string * list item)) (section : string)
  : list item :=
  match sections with
  | [] => []
  | (s, its) :: rest =>
      if String.eqb s section then its else section_items_of rest section
  end.

(** Sections in the order of the configuration, then the others by name. *)
Definition section_order (config : config) (sections : list (string * list item))
  : list string :=
  let keys := sections.*1 in
  let configured :=
    omap (fun e => match e with
                   | SectionDict s =>
                       if bool_decide (section_title s ∈ keys)
                       then Some (section_title s) else None
                   | SectionName _ => None
                   end) (cfg_sections config) in
  configured
  ++ filter (fun s => s ∉ configured) (sorted String.leb (fun s : string => s) keys).

Definition section_heading (section : string) : string := (nl +:+ "## " +:+ section +:+ nl).
Definition draft_notice : string := ("*Content will be uploaded later.*" +:+ nl).
Definition draft_description (w : world) (description : json) : string := (nl +:+ (fmt w description) +:+ nl +:+ nl).

Definition section_data_box (sec_folder : string) : string :=
  let zip_name := name (Path sec_folder) +:+ "-data.zip" in
  (nl +:+ "<div class=" +:+ dq +:+ "download-box" +:+ dq +:+ ">" +:+ nl +:+ "<strong>Section files:</strong> <a href=" +:+ dq +:+ "./" +:+ sec_folder +:+ "/" +:+ zip_name +:+ dq +:+ ">üì¶ " +:+ zip_name +:+ "</a>" +:+ nl +:+ "</div>" +:+ nl +:+ nl).

(** What one section adds to the page. *)
Definition render_section (w : world) (config : config) (github_repo : string)
    (section : string) (section_items : list item) : M (list string) :=
  match section_items with
  | [DraftPlaceholder _ _ description] =>
      mret ([section_heading section]
            ++ (if truthy description then [draft_description w description] else [])
            ++ [draft_notice])
  | _ =>
      let section_cfg := section_config config section in
      let first_folder := item_section_folder <$> head section_items in
      (match section_cfg ≫= sec_slides with
       | Some slides =>
           if String.eqb slides "" then mret []
           else
             let '(section_dir, section_folder) :=
               match first_folder with
               | Some f => (Path f, Some (name (Path f)))
               | None =>
                   let cfg_folder := default "" (sec_folder <$> section_cfg) in
                   if String.eqb cfg_folder "" then (Path ".", None)
                   else (Path cfg_folder, Some (name (Path cfg_folder)))
               end in
             generate_slide_embed w slides (parent section_dir)
               (Path (default "docs" (cfg_output_dir config))) "index" section_folder
               ≫= fun slide_html => mret [nl +:+ slide_html +:+ nl]
       | None => mret []
       end) ≫= fun slide_part =>
      let data_part :=
        match section_cfg with
        | Some cfg =>
            match sec_data_files cfg with
            | [] => []
            | _ =>
                let sec_folder := default (sec_folder cfg) first_folder in
                if String.eqb sec_folder "" then [] else [section_data_box sec_folder]
            end
        | None => []
        end in
      lift (sorted_items section_items) ≫= fun items =>
      let icon_prefix :=
        match section_cfg ≫= sec_icon with
        | Some icon => if String.eqb icon "" then "" else icon +:+ " "
        | None => ""
        end in
      lift (map_result
              (render_item w github_repo (default "main" (github_branch config))
                 (default "docs" (cfg_output_dir config)) icon_prefix) items)
        ≫= fun rendered =>
      mret ([section_heading section] ++ slide_part ++ data_part ++ concat rendered)
  end.

Fixpoint render_sections (w : world) (config : config) (github_repo : string)
    (sections : list (string * list item)) (order : list string) : M (list string) :=
  match order with
  | [] => mret []
  | section :: order' =>
      render_section w config github_repo section (section_items_of sections section)
        ≫= fun md =>
      render_sections w config github_repo sections order' ≫= fun rest =>
      mret (md ++ rest)
  end.

Definition has_root_content (config : config) : bool :=
  option_truthy (cfg_slides config)
  || negb (Nat.eqb (length (cfg_data_files config)) 0)
  || truthy (cfg_links config).

(** The slides, data files and links declared at the top of the
    configuration. *)
Definition render_root (w : world) (config : config) (output_dir : path) : M (list string) :=
  (match cfg_slides config with
   | Some slides =>
       if String.eqb slides "" then mret []
       else generate_slide_embed w slides (Path ".") output_dir "index" None
              ≫= fun slide_html => mret [slide_html +:+ nl]
   | None => mret []
   end) ≫= fun slide_part =>
  (match cfg_data_files config with
   | [] => mret []
   | patterns =>
       create_data_zip w (JList (JStr <$> patterns))
         (joinpath output_dir "workshop-data.zip") (Path ".") ≫= fun _ =>
       mret [download_box "workshop-data.zip"]
   end) ≫= fun data_part =>
  (if truthy (cfg_links config) then
     lift (link_lines w markdown_link markdown_link_desc (cfg_links config)) ≫= fun ls =>
     mret ([("## Useful Links" +:+ nl +:+ nl)] ++ ls ++ [nl])
   else mret []) ≫= fun links_part =>
  mret (slide_part ++ data_part ++ links_part).

(** [create_index]: the page is written last, once every part is
    rendered.  The template around [notebooks_md] is not modelled. *)
Definition create_index (w : world) (notebooks : list item) (config : config)
    (output_dir : path) : M unit :=
  match github_repo config with
  | None => raise (KeyError "github_repo")
  | Some repo =>
      let sections := group_by_section notebooks in
      render_root w config output_dir ≫= fun root_md =>
      render_sections w config repo sections (section_order config sections)
        ≫= fun sections_md =>
      emit (WriteIndex (joinpath output_dir "index.html") (root_md ++ sections_md))
  end.

(** ** The run ([main]) *)

(** [Path(folder).glob(...)] run through a processor; every record gets the
    section's title, folder and slides. *)
Fixpoint process_files (process : path -> M (option summary))
    (title folder : string) (section_slides : option string) (files : list path)
  : M (list item) :=
  match files with
  | [] => mret []
  | f :: files' =>
      process f ≫= fun info =>
      process_files process title folder section_slides files' ≫= fun rest =>
      mret (match info with
            | Some info =>
                Published
                  {| s_name := s_name info; s_title := s_title info;
                     s_description := s_description info; s_files := s_files info;
                     s_data_file := s_data_file info; s_section := title;
                     s_order := s_order info; s_links := s_links info;
                     s_slides := s_slides info |}
                  folder
                  (if option_truthy section_slides then section_slides else None)
                :: rest
            | None => rest
            end)
  end.

(** A pattern of a section's [data_files] without the section folder in
    front. *)
Definition normalize_pattern (folder_prefix p : string) : string :=
  if starts_with folder_prefix p
  then text (drop (String.length folder_prefix) (chars p))
  else p.

(** One turn of the loop over the configured sections: the records it
    appends. *)
Definition process_section (w : world) (config : config) (output_dir : path)
    (section : section_entry) : M (list item) :=
  let folder := match section with SectionDict s => sec_folder s | SectionName f => f end in
  let title := match section with SectionDict s => section_title s | SectionName f => f end in
  let section_slides := match section with SectionDict s => sec_slides s | SectionName _ => None end in
  let draft := match section with SectionDict s => sec_draft s | SectionName _ => false end in
  if draft then
    mret [DraftPlaceholder title folder
            match section with SectionDict s => sec_description s | SectionName _ => JStr "" end]
  else
    observe (fun t => exists_ w t (Path folder)) ≫= fun found =>
    if String.eqb folder "" || negb found then mret []
    else
      (match section with
       | SectionDict s =>
           match sec_data_files s with
           | [] => mret tt
           | raw_patterns =>
               let section_output_subdir := joinpath output_dir folder in
               emit (Mkdir section_output_subdir) ≫= fun _ =>
               create_data_zip w
                 (JList (JStr <$> (normalize_pattern (name (Path folder) +:+ "/")
                                     <$> raw_patterns)))
                 (joinpath section_output_subdir (name (Path folder) +:+ "-data.zip"))
                 (Path folder)
           end
       | SectionName _ => mret tt
       end) ≫= fun _ =>
      observe (fun t => glob_notebooks w t (Path folder)) ≫= fun notebooks =>
      process_files (fun p => process_notebook w p output_dir config) title folder
        section_slides
        (filter (fun p => contains (chars ".ipynb_checkpoints") (chars (as_posix p)) = false)
           notebooks) ≫= fun notebook_items =>
      observe (fun t => glob_markdown w t (Path folder)) ≫= fun markdowns =>
      process_files (fun p => process_markdown w p output_dir config) title folder
        section_slides markdowns ≫= fun markdown_items =>
      mret (notebook_items ++ markdown_items).

Fixpoint process_sections (w : world) (config : config) (output_dir : path)
    (sections : list section_entry) : M (list item) :=
  match sections with
  | [] => mret []
  | section :: sections' =>
      process_section w config output_dir section ≫= fun items =>
      process_sections w config output_dir sections' ≫= fun rest =>
      mret (items ++ rest)
  end.

(** The publish stage after the index (large-file set-up, commit and push
    of both branches), by its outcome: a failed publish ends the run with
    status 1. *)
Definition publish (w : world) (commit : bool) : M unit :=
  emit (GitStage commit) ≫= fun _ =>
  observe (fun t => git_publish w t commit) ≫= fun ok =>
  if ok : bool then mret tt else sys_exit 1.

(** [main], after the configuration is loaded; returns the records that
    were collected. *)
Definition main (w : world) (config : config) (commit : bool) : M (list item) :=
  let output_dir := Path (default "docs" (cfg_output_dir config)) in
  observe (fun t => exists_ w t output_dir) ≫= fun there =>
  (if there : bool then emit (Rmtree output_dir) else mret tt) ≫= fun _ =>
  emit (Mkdir output_dir) ≫= fun _ =>
  match cfg_sections config, has_root_content config with
  | [], false => mret []
  | sections, _ =>
      process_sections w config output_dir sections ≫= fun processed_items =>
      (match processed_items with
       | [] => if has_root_content config
               then create_index w processed_items config output_dir else mret tt
       | _ => create_index w processed_items config output_dir
       end) ≫= fun _ =>
      publish w commit ≫= fun _ =>
      mret processed_items
  end.

(** ** The merger on the object store

    [apply_metadata_overrides] once more, now on Python's objects: mappings
    and lists live in a store and values refer to them, so that the result,
    the metadata passed in and the configuration may share objects.  A
    mapping keeps its keys in insertion order.  Allocation appends to the
    store; [d[k] = v] rewrites the object at the address of [d]. *)

Module Store.

Abbreviation addr := nat.

Inductive value :=
  | VNone
  | VBool (b : bool)
  | VNum (z : Z)
  | VStr (s : string)
  | VRef (a : addr).

Inductive object :=
  | ODict (items : list (string * value))
  | OList (elems : list value).

Abbreviation store := (list object).

(** How a call ends; recursion on the store is bounded by [fuel]. *)
Inductive run (A : Type) :=
  | Done (a : A) (h : store)
  | Failed (e : exn) (h : store)
  | OutOfFuel.
Arguments Done {A} a h.
Arguments Failed {A} e h.
Arguments OutOfFuel {A}.

Definition truthy (h : store) (v : value) : bool :=
  match v with
  | VNone => false
  | VBool b => b
  | VNum z => negb (z =? 0)%Z
  | VStr s => negb (String.eqb s "")
  | VRef a =>
      match h !! a with
      | Some (ODict items) => negb (Nat.eqb (length items) 0)
      | Some (OList elems) => negb (Nat.eqb (length elems) 0)
      | None => false
      end
  end.

(** The items of [v] when [isinstance(v, dict)]. *)
Definition dict_items (h : store) (v : value) : option (list (string * value)) :=
  match v with
  | VRef a => match h !! a with Some (ODict items) => Some items | _ => None end
  | _ => None
  end.

Definition is_dict (h : store) (v : value) : bool :=
  match dict_items h v with Some _ => true | None => false end.

Fixpoint item_get (k : string) (items : list (string * value)) : option value :=
  match items with
  | [] => None
  | (k', v) :: items' => if String.eqb k' k then Some v else item_get k items'
  end.

(** [d.get(k)] *)
Definition get (k : string) (items : list (string * value)) : value :=
  default VNone (item_get k items).

(** [d[k] = v] on the items: in place for a key that is there, at the end
    for a new one. *)
Fixpoint item_set (k : string) (v : value) (items : list (string * value))
  : list (string * value) :=
  match items with
  | [] => [(k, v)]
  | (k', v') :: items' =>
      if String.eqb k' k then (k, v) :: items' else (k', v') :: item_set k v items'
  end.

Definition set_item (d : addr) (k : string) (v : value) (h : store) : store :=
  match h !! d with
  | Some (ODict items) => <[d := ODict (item_set k v items)]> h
  | _ => h
  end.

(** A new object, and its address. *)
Definition alloc (o : object) (h : store) : addr * store := (length h, h ++ [o]).

Definition py_or (h : store) (a b : value) : value := if truthy h a then a else b.

(** [_deep_merge(base, override)]: [result] is a new mapping, and the only
    object written to. *)
Fixpoint _deep_merge (fuel : nat) (base override : value) (h : store) : run addr :=
  match fuel with
  | O => OutOfFuel
  | S fuel =>
      let '(result, h) := alloc (ODict (default [] (dict_items h base))) h in
      if truthy h override then
        match dict_items h override with
        | None => Failed AttributeError h
        | Some items =>
            (fix loop (items : list (string * value)) (h : store) : run addr :=
               match items with
               | [] => Done result h
               | (k, v) :: items' =>
                   let cur := get k (default [] (dict_items h (VRef result))) in
                   if is_dict h v && is_dict h cur then
                     match _deep_merge fuel cur v h with
                     | Done merged h => loop items' (set_item result k (VRef merged) h)
                     | Failed e h => Failed e h
                     | OutOfFuel => OutOfFuel
                     end
                   else loop items' (set_item result k v h)
               end) items h
        end
      else Done result h
  end.

(** What the loop of [_iter_metadata_overrides] runs over: the entries of a
    mapping, or the items of a list. *)
Inductive rule_source :=
  | Entry (pattern : string) (values : value)
  | ListItem (item : value).

Definition rule_sources (h : store) (config : value) : list rule_source :=
  let cfg := default [] (dict_items h config) in
  let md := py_or h (get "metadata_overrides" cfg) (get "metadata" cfg) in
  if truthy h md then
    match md with
    | VRef a =>
        match h !! a with
        | Some (ODict items) => (fun kv => Entry kv.1 kv.2) <$> items
        | Some (OList elems) => ListItem <$> elems
        | None => []
        end
    | _ => []
    end
  else [].

(** The rule one source yields, if any; the inline style of a list item
    builds a new mapping from its other keys. *)
Definition rule_of_source (h : store) (src : rule_source) : option (value * value) * store :=
  match src with
  | Entry pattern values =>
      (if is_dict h values then Some (VStr pattern, values) else None, h)
  | ListItem item =>
      match dict_items h item with
      | None => (None, h)
      | Some d =>
          let pattern := py_or h (py_or h (get "pattern" d) (get "file" d)) (get "match" d) in
          let values := py_or h (get "values" d) (get "merge" d) in
          let '(values, h) :=
            if truthy h values then (values, h)
            else
              let '(a, h) :=
                alloc (ODict (filter (fun kv => kv.1 ∉ pattern_keys) d)) h in
              (VRef a, h) in
          (if truthy h pattern && is_dict h values then Some (pattern, values) else None, h)
      end
  end.

(** The loop of [apply_metadata_overrides]; the generator runs up to its
    next rule at each turn. *)
Fixpoint apply_sources (fuel : nat) (rel file_name : string) (merged : addr)
    (sources : list rule_source) (h : store) : run addr :=
  match sources with
  | [] => Done merged h
  | src :: sources' =>
      let '(rule, h) := rule_of_source h src in
      match rule with
      | None => apply_sources fuel rel file_name merged sources' h
      | Some (VStr pattern, values) =>
          if rule_matches rel file_name pattern then
            match _deep_merge fuel (VRef merged) values h with
            | Done merged h => apply_sources fuel rel file_name merged sources' h
            | Failed e h => Failed e h
            | OutOfFuel => OutOfFuel
            end
          else apply_sources fuel rel file_name merged sources' h
      | Some (_, _) => Failed TypeError h
      end
  end.

(** The key and the value that an element of a sequence given to [dict]
    stands for: of a string of two characters, the first for the second; of
    a list of two items, the first, when it can be hashed, for the second;
    of a mapping of two keys, the first for the second. *)
Definition pair_of (h : store) (element : value) : result (string * value) :=
  match element with
  | VStr s =>
      match characters (chars s) with
      | [k; v] => Ok (text k.1, VStr (text v.1))
      | _ => Err ValueError
      end
  | VRef a =>
      match h !! a with
      | Some (OList [k; v]) =>
          match k with
          | VStr key => Ok (key, v)
          | VRef _ => Err TypeError
          | VNone | VBool _ | VNum _ => Err OutsideModel
          end
      | Some (OList _) => Err ValueError
      | Some (ODict [(k1, _); (k2, _)]) => Ok (k1, VStr k2)
      | Some (ODict _) => Err ValueError
      | None => Err TypeError
      end
  | VNone | VBool _ | VNum _ => Err TypeError
  end.

(** [dict(elems)] for the elements of a list. *)
Fixpoint dict_of_pairs (h : store) (elems : list value) (items : list (string * value))
  : result (list (string * value)) :=
  match elems with
  | [] => Ok items
  | element :: elems' =>
      pair ← pair_of h element;
      dict_of_pairs h elems' (item_set pair.1 pair.2 items)
  end.

(** [dict(meta or {})]: the items of the new mapping. *)
Definition dict_copy (h : store) (meta : value) : result (list (string * value)) :=
  if truthy h meta then
    match meta with
    | VStr _ => Err ValueError
    | VRef a =>
        match h !! a with
        | Some (ODict items) => Ok items
        | Some (OList elems) => dict_of_pairs h elems []
        | None => Err TypeError
        end
    | VNone | VBool _ | VNum _ => Err TypeError
    end
  else Ok [].

(** [apply_metadata_overrides], given the relative path and the name of the
    file. *)
Definition apply_metadata_overrides (fuel : nat) (rel file_name : string)
    (meta config : value) (h : store) : run addr :=
  match dict_copy h meta with
  | Err e => Failed e h
  | Ok items =>
      let '(merged, h) := alloc (ODict items) h in
      apply_sources fuel rel file_name merged (rule_sources h config) h
  end.

(** No object of [h] differs in [h']: [h'] only has more objects. *)
Definition unchanged (h h' : store) : Prop := h `prefix_of` h'.

(** The nesting of mappings and lists under a value is at most [n], and
    every reference on the way is to an object of the store. *)
Fixpoint bounded (h : store) (n : nat) (v : value) : Prop :=
  match v with
  | VRef a =>
      match n, h !! a with
      | S n', Some (ODict items) => Forall (fun kv => bounded h n' kv.2) items
      | S n', Some (OList elems) => Forall (bounded h n') elems
      | _, _ => False
      end
  | _ => True
  end.

(** The same bound for what a rule is read from. *)
Definition source_bounded (h : store) (n : nat) (src : rule_source) : Prop :=
  match src with
  | Entry _ values => bounded h n values
  | ListItem item => bounded h n item
  end.

(** What a value holds, read through the store down to depth [n]; [TCut]
    stands for what lies deeper or for a reference to no object. *)
Inductive tree :=
  | TNone
  | TBool (b : bool)
  | TNum (z : Z)
  | TStr (s : string)
  | TDict (items : list (string * tree))
  | TList (elems : list tree)
  | TCut.

Fixpoint snapshot (n : nat) (h : store) (v : value) : tree :=
  match v with
  | VNone => TNone
  | VBool b => TBool b
  | VNum z => TNum z
  | VStr s => TStr s
  | VRef a =>
      match n with
      | O => TCut
      | S n' =>
          match h !! a with
          | Some (ODict items) => TDict ((fun kv => (kv.1, snapshot n' h kv.2)) <$> items)
          | Some (OList elems) => TList (snapshot n' h <$> elems)
          | None => TCut
          end
      end
  end.

End Store.

(** ** Committing and pushing the source branch ([commit_and_push_main])

    The commands the function gives to [git], in order, and how it ends.
    What [git] answers is not modelled: it is a function of the commands so
    far and of the command.  Console output is not recorded. *)

Module Git.

(** How [subprocess.run(..., check=True, capture_output=True, text=True)]
    ends: it returns, [git] fails, or there is no [git] to run. *)
Inductive completed :=
  | Succeeded (stdout : string)
  | CalledProcessError (stdout stderr : string)
  | FileNotFoundError.

(** How the function ends: it returns, or the [FileNotFoundError] of a
    command that is not guarded against it escapes. *)
Inductive ending :=
  | Returns (ok : bool)
  | Raises.

Definition rev_parse_git_dir : list string := ["git"; "rev-parse"; "--git-dir"].
Definition rev_parse_head : list string := ["git"; "rev-parse"; "--abbrev-ref"; "HEAD"].
Definition switch (branch : string) : list string := ["git"; "switch"; branch].
Definition add_all : list string := ["git"; "add"; "-A"].
Definition commit : list string := ["git"; "commit"; "-m"; "Publish site updates"].
Definition push (branch : string) : list string := ["git"; "push"; "origin"; branch].

(** ['nothing to commit' in (e.stderr or '') or 'nothing to commit' in
    (e.stdout or '')] *)
Definition nothing_to_commit (stdout stderr : string) : bool :=
  contains (chars "nothing to commit") (chars stderr)
  || contains (chars "nothing to commit") (chars stdout).

Section commit_and_push_main.
Variable git : list (list string) -> list string -> completed.
Variable branch : string.

(** The end of the function, from the push on. *)
Definition push_and_return (switched : bool) (current_branch : string)
    (h : list (list string)) : list (list string) * ending :=
  match git h (push branch) with
  | FileNotFoundError => (h ++ [push branch], Raises)
  | CalledProcessError _ _ => (h ++ [push branch], Returns false)
  | Succeeded _ =>
      let h := h ++ [push branch] in
      if switched && negb (String.eqb current_branch "") then
        match git h (switch current_branch) with
        | FileNotFoundError => (h ++ [switch current_branch], Raises)
        | _ => (h ++ [switch current_branch], Returns true)
        end
      else (h, Returns true)
  end.

(** From staging on. *)
Definition stage_commit_push (switched : bool) (current_branch : string)
    (h : list (list string)) : list (list string) * ending :=
  match git h add_all with
  | FileNotFoundError => (h ++ [add_all], Raises)
  | CalledProcessError _ _ => (h ++ [add_all], Returns false)
  | Succeeded _ =>
      let h := h ++ [add_all] in
      match git h commit with
      | FileNotFoundError => (h ++ [commit], Raises)
      | CalledProcessError stdout stderr =>
          if nothing_to_commit stdout stderr
          then push_and_return switched current_branch (h ++ [commit])
          else (h ++ [commit], Returns false)
      | Succeeded _ => push_and_return switched current_branch (h ++ [commit])
      end
  end.

End commit_and_push_main.

Definition commit_and_push_main (git : list (list string) -> list string -> completed)
    (config : config) : list (list string) * ending :=
  match git [] rev_parse_git_dir with
  | CalledProcessError _ _ | FileNotFoundError => ([rev_parse_git_dir], Returns true)
  | Succeeded _ =>
      let branch := default "main" (github_branch config) in
      let h := [rev_parse_git_dir] in
      match git h rev_parse_head with
      | FileNotFoundError => (h ++ [rev_parse_head], Raises)
      | cur =>
          let current_branch :=
            match cur with
            | Succeeded stdout => text (strip (chars stdout))
            | _ => ""
            end in
          let h := h ++ [rev_parse_head] in
          if negb (String.eqb current_branch "") && negb (String.eqb current_branch branch)
          then
            match git h (switch branch) with
            | FileNotFoundError => (h ++ [switch branch], Raises)
            | CalledProcessError _ _ => (h ++ [switch branch], Returns false)
            | Succeeded _ =>
                stage_commit_push git branch true current_branch (h ++ [switch branch])
            end
          else stage_commit_push git branch false current_branch h
      end
  end.

End Git.

(** ** The Codespaces build directory ([prepare_codespaces_build])

    What the function does to the file system, in order, and how it ends.
    The file system is not modelled: what exists, what is a directory and
    whether the build directory can be made are functions of what has been
    done so far.  A removal, a copy or a write that fails is caught by the
    function and changes nothing of what it does next, so it is recorded as
    attempted.  Console output is not recorded.  The value of
    [config.get('codespaces')] is an argument of its own, [None] as
    [JNull]. *)

Module Codespaces.

Inductive action :=
  | Rmtree (p : path)
  | Mkdir (p : path)
  | WriteText (p : path) (content : string)
  | CopyTree (src dest : path) (ignore : list string).

Record filesystem := {
  exists_ : list action -> path -> bool;
  is_dir : list action -> path -> bool;
  (** whether [mkdir(parents=True, exist_ok=True)] returns *)
  mkdir_ok : list action -> path -> bool
}.

Inductive ending :=
  | Returns (build_dir : path)
  | RaisesOSError
  | RaisesAttributeError.

Definition build_dir : path := Path "build-codespaces".
Definition dev_src : path := Path "_devcontainer-template".

Definition readme_text : string :=
  "# Codespaces Workspace" +:+ nl +:+ nl +:+
  "This branch contains notebooks and data for GitHub Codespaces." +:+ nl +:+ nl +:+
  "- Open in Codespaces using the workshop link." +:+ nl +:+
  "- Python packages are listed in requirements.txt." +:+ nl.

(** [(config.get('codespaces') or {}).get('requirements')] *)
Definition requirements (codespaces : json) : result json :=
  match codespaces with
  | JDict d => Ok (get "requirements" d)
  | v => if truthy v then Err AttributeError else Ok JNull
  end.

(** The strings of a list, when they all are: what [str.join] accepts. *)
Fixpoint strings (l : list json) : option (list string) :=
  match l with
  | [] => Some []
  | JStr s :: l' => cons s <$> strings l'
  | _ => None
  end.

(** The write of [requirements.txt]; a [TypeError] of the join is caught
    with the errors of the write. *)
Definition write_requirements (reqs : json) (h : list action) : list action :=
  match reqs with
  | JList (_ :: _ as items) =>
      match strings items with
      | Some lines => h ++ [WriteText (joinpath build_dir "requirements.txt") (join nl lines +:+ nl)]
      | None => h
      end
  | _ => h
  end.

(** One turn of the loop over the configured sections. *)
Definition copy_section (fs : filesystem) (h : list action) (section : section_entry)
    : list action :=
  let draft := match section with SectionDict s => sec_draft s | SectionName _ => false end in
  if draft then h
  else
    let folder := match section with SectionDict s => sec_folder s | SectionName f => f end in
    if String.eqb folder "" then h
    else
      let src := Path folder in
      if negb (exists_ fs h src) || negb (is_dir fs h src) then h
      else
        h ++ [CopyTree src (joinpath build_dir (name src))
                ["__pycache__"; ".ipynb_checkpoints"]].

Definition prepare_codespaces_build (fs : filesystem) (config : config) (codespaces : json)
    : list action * ending :=
  let h := if exists_ fs [] build_dir then [Rmtree build_dir] else [] in
  if negb (mkdir_ok fs h build_dir) then (h ++ [Mkdir build_dir], RaisesOSError)
  else
    let h := h ++ [Mkdir build_dir] in
    match requirements codespaces with
    | Err _ => (h, RaisesAttributeError)
    | Ok reqs =>
        let h := write_requirements reqs h in
        let h :=
          if exists_ fs h dev_src && is_dir fs h dev_src
          then h ++ [CopyTree dev_src (joinpath build_dir ".devcontainer") []]
          else h in
        let h := foldl (copy_section fs) h (cfg_sections config) in
        let readme := joinpath build_dir "README.md" in
        let h := if exists_ fs h readme then h else h ++ [WriteText readme readme_text] in
        (h, Returns build_dir)
    end.

End Codespaces.

(** ** The table of contents, character by character

    [generate_toc_from_markdown] once more, on the code points of the
    strings.  What is a word character, what is white space and what
    [str.lower] makes of a string is read in the character tables of the
    interpreter, which are a parameter here: [\w] is what [str.isalnum]
    accepts and the underscore, and [\s] and [str.strip] share the white
    space of [str.isspace]. *)

Module Toc.

Record tables := {
  word : N -> bool;
  space : N -> bool;
  lower : list N -> list N
}.

(** The code points of a literal. *)
Definition points (s : string) : list N := codepoints (chars s).

(** [s.split(sep)] for a one-character separator. *)
Fixpoint split_on (sep : N) (s : list N) : list (list N) :=
  match s with
  | [] => [[]]
  | c :: s' =>
      if (c =? sep)%N then [] :: split_on sep s'
      else match split_on sep s' with
           | [] => [[c]]
           | w :: ws => (c :: w) :: ws
           end
  end.

(** [sep.join(l)] *)
Fixpoint join (sep : list N) (l : list (list N)) : list N :=
  match l with
  | [] => []
  | [s] => s
  | s :: l' => s ++ sep ++ join sep l'
  end.

(** A line that [^## (.+)$] matches, and the heading it captures. *)
Definition header_of_line (line : list N) : option (list N) :=
  match line with
  | h1 :: h2 :: sp :: (_ :: _) as heading =>
      if (h1 =? 35)%N && (h2 =? 35)%N && (sp =? 32)%N then Some heading else None
  | _ => None
  end.

(** [re.findall(r'^## (.+)$', markdown_content, re.MULTILINE)] *)
Definition find_headers (markdown_content : list N) : list (list N) :=
  omap header_of_line (split_on 10 markdown_content).

Section anchors.
Variable u : tables.

(** The characters [re.sub(r'[^\w\s-]', '', header)] keeps. *)
Definition anchor_char (c : N) : bool :=
  word u c || space u c || (c =? 45)%N.

(** [s.strip()] *)
Fixpoint lstrip (s : list N) : list N :=
  match s with
  | c :: s' => if space u c then lstrip s' else s
  | [] => []
  end.
Definition strip (s : list N) : list N := rev (lstrip (rev (lstrip s))).

Definition hyphenate (c : N) : N := if (c =? 32)%N then 45%N else c.

(** [re.sub(r'[^\w\s-]', '', header).strip().lower().replace(' ', '-')] *)
Definition anchor (header : list N) : list N :=
  hyphenate <$> lower u (strip (filter (fun c => anchor_char c = true) header)).

Definition toc_entry (header : list N) : list N :=
  points "- [" ++ header ++ points "](#" ++ anchor header ++ points ")".

Definition toc_headers (markdown_content : list N) (has_useful_links : bool)
  : list (list N) :=
  (if has_useful_links then [points "Useful Links"] else [])
  ++ find_headers markdown_content.

Definition generate_toc_from_markdown (markdown_content : list N)
    (has_useful_links : bool) : list N :=
  match toc_headers markdown_content has_useful_links with
  | [] => []
  | headers =>
      join [10%N] ((points "## Table of Contents" ++ [10%N]) :: (toc_entry <$> headers))
      ++ [10%N]
  end.

End anchors.

End Toc.
(** ** Notions used to state and prove the properties *)

(** *** Deep merge *)

(** The value stored under one key after an override has been merged in:
    [cur] is what was there, [a] what the override has. *)
Definition merged_value (v : json) (cur : option json) : json :=
  match v, cur with
  | JDict _, Some (JDict rd) => JDict (merge_items v rd)
  | _, _ => v
  end.

Definition step (cur a : option json) : option json :=
  match a with Some v => Some (merged_value v cur) | None => cur end.

Definition merge_all (ovs : list (gmap string json)) (b : gmap string json)
  : gmap string json :=
  foldl (fun acc o => merge_items (JDict o) acc) b ovs.

Definition dict_of (x : option json) : gmap string json :=
  match x with Some (JDict d) => d | _ => ∅ end.

Fixpoint dicts_of (ws : list (option json)) : option (list (gmap string json)) :=
  match ws with
  | [] => Some []
  | None :: ws => dicts_of ws
  | Some (JDict d) :: ws => cons d <$> dicts_of ws
  | Some _ :: ws => None
  end.

Definition absorbed (v : json) : Prop :=
  forall ws x,
    foldl step (step x (Some v)) (ws ++ [Some v]) = foldl step x (ws ++ [Some v]).

Definition holds_dict (o : option json) : bool :=
  match o with Some (JDict _) => true | _ => false end.

Inductive assoc_safe : option json -> option json -> option json -> Prop :=
  | safe_nested xd ad bd :
      (forall k : string, assoc_safe (xd !! k) (ad !! k) (bd !! k)) ->
      assoc_safe (Some (JDict xd)) (Some (JDict ad)) (Some (JDict bd))
  | safe_base x a b : holds_dict x = false -> assoc_safe x a b
  | safe_first_absent x b : assoc_safe x None b
  | safe_second x a b : holds_dict b = false -> assoc_safe x a b.


(** *** Sequential application of overrides *)

(** The mappings of the rules that match, in order. *)
Fixpoint matching_values (rel file_name : string) (rules : list (json * json))
  : list (gmap string json) :=
  match rules with
  | [] => []
  | (JStr pattern, JDict values) :: rules' =>
      if rule_matches rel file_name pattern
      then values :: matching_values rel file_name rules'
      else matching_values rel file_name rules'
  | _ :: rules' => matching_values rel file_name rules'
  end.

(** Two rule values applied one after the other, and their merge applied in
    one step. *)
Definition merge_in_sequence (m A B : json) : result json :=
  _deep_merge m A ≫= fun r => _deep_merge r B.

Definition merge_in_one_step (m A B : json) : result json :=
  _deep_merge A B ≫= fun patch => _deep_merge m patch.

Definition c3_base : gmap string json := {[ "k" := JDict {[ "p" := JNum 1 ]} ]}.
Definition c3_A : gmap string json := {[ "k" := JNum 1 ]}.
Definition c3_B : gmap string json := {[ "k" := JDict {[ "q" := JNum 2 ]} ]}.
Definition c3_A_nested : gmap string json := {[ "k" := JDict {[ "p" := JNum 5 ]} ]}.

(** *** Shell patterns, as the specification words them *)

(** What a bracket expression lists: single characters and ranges. *)
Inductive set_item :=
  | One (c : N)
  | Range (lo hi : N).

(** The pieces of a pattern: [*], [?], a character that stands for itself,
    and the bracket expressions [[...]] and [[!...]]. *)
Inductive piece :=
  | Star
  | Any
  | Lit (c : N)
  | OneOf (items : list set_item)
  | NoneOf (items : list set_item).

Definition covers (c : N) (item : set_item) : Prop :=
  match item with
  | One a => c = a
  | Range lo hi => (lo <= c <= hi)%N
  end.

(** [*] stands for any run of characters, [?] for any one character, a
    bracket expression for one character that is (or, with [!], is not) one
    of those it lists, and any other character for itself. *)
Inductive shell_match : list piece -> list N -> Prop :=
  | match_end : shell_match [] []
  | match_star pieces run s :
      shell_match pieces s -> shell_match (Star :: pieces) (run ++ s)
  | match_any pieces c s :
      shell_match pieces s -> shell_match (Any :: pieces) (c :: s)
  | match_lit pieces c s :
      shell_match pieces s -> shell_match (Lit c :: pieces) (c :: s)
  | match_one_of pieces items c s :
      Exists (covers c) items ->
      shell_match pieces s -> shell_match (OneOf items :: pieces) (c :: s)
  | match_none_of pieces items c s :
      ~ Exists (covers c) items ->
      shell_match pieces s -> shell_match (NoneOf items :: pieces) (c :: s).

(** How a pattern is written. *)
Definition item_text (item : set_item) : list N :=
  match item with
  | One c => [c]
  | Range lo hi => [lo; 45; hi]%N
  end.

Definition items_text (items : list set_item) : list N :=
  concat (item_text <$> items).

Definition piece_text (p : piece) : list N :=
  match p with
  | Star => [42%N]
  | Any => [63%N]
  | Lit c => [c]
  | OneOf items => 91%N :: items_text items ++ [93%N]
  | NoneOf items => 91%N :: 33%N :: items_text items ++ [93%N]
  end.

Definition pattern_text (pieces : list piece) : list N :=
  concat (piece_text <$> pieces).

(** A character that stands for itself in a pattern is none of [*], [?]
    and [[]; one listed in a bracket expression is none of [!], [-] and
    [[]]]; a range runs upwards; a bracket expression lists something. *)
Definition plain (c : N) : bool :=
  negb (is_point 42 c) && negb (is_point 63 c) && negb (is_point 91 c).

Definition listed (c : N) : bool :=
  negb (is_point 33 c) && negb (is_point 45 c) && negb (is_point 93 c).

Definition item_ok (item : set_item) : bool :=
  match item with
  | One c => listed c
  | Range lo hi => listed lo && listed hi && (lo <=? hi)%N
  end.

Definition piece_ok (p : piece) : bool :=
  match p with
  | Star | Any => true
  | Lit c => plain c
  | OneOf items | NoneOf items =>
      negb (Nat.eqb (length items) 0) && forallb item_ok items
  end.

(** The rules of a configuration whose overrides are a mapping from
    patterns to values, and of one whose overrides are a list of
    [{pattern: ..., values: ...}] items. *)
Definition configured (config : config) : option overrides_cfg :=
  match metadata_overrides config with
  | Some o => if overrides_truthy o then Some o else metadata config
  | None => metadata config
  end.

Definition rule_item (rule : string * gmap string json) : json :=
  JDict {[ "pattern" := JStr rule.1; "values" := JDict rule.2 ]}.

(** The values of the entries whose pattern matches the relative path or
    the name, in order. *)
Definition matching_entries (rel file_name : string) (entries : list (string * json))
  : list (gmap string json) :=
  omap (fun entry : string * json =>
          match entry.2 with
          | JDict values =>
              if rule_matches rel file_name entry.1 then Some values else None
          | _ => None
          end) entries.

(** What [fnmatch.translate] makes of a bracket expression that lists
    [items]: its atoms, its chunks, and the characters and ranges of the
    token. *)
Definition atoms_of (items : list set_item) : list set_atom :=
  concat ((fun item => match item with
                       | One c => [Ch c]
                       | Range lo hi => [Ch lo; Dash; Ch hi]
                       end) <$> items).

Fixpoint chunks_of (cur : list N) (items : list set_item) : list (list N) :=
  match items with
  | [] => [rev cur]
  | One c :: items' => chunks_of (c :: cur) items'
  | Range lo hi :: items' => rev (lo :: cur) :: chunks_of [hi] items'
  end.

Definition singles_of (items : list set_item) : list N :=
  omap (fun item => match item with One c => Some c | Range _ _ => None end) items.

Definition ranges_of (items : list set_item) : list (N * N) :=
  omap (fun item => match item with One _ => None | Range lo hi => Some (lo, hi) end) items.

Definition piece_token (p : piece) : glob_token :=
  match p with
  | Star => GStar
  | Any => GAny
  | Lit c => GLit c
  | OneOf items => GSet false (singles_of items) (ranges_of items)
  | NoneOf items => GSet true (singles_of items) (ranges_of items)
  end.

Definition c5_pattern : string := "section1/*.ipynb".
Definition c5_file : path := Path "section1/intro.ipynb".
Definition c5_other : path := Path "section2/intro.ipynb".

(** *** Table of contents *)

(** The anchor as the specification words it: lowercase the heading, drop
    what is no word character, white space or hyphen, put hyphens for
    spaces. *)
Definition spec_anchor (header : string) : string :=
  text (hyphenate <$> filter (fun c => anchor_char c = true) (lower (chars header))).

(** What is left of a heading once the characters that are dropped are gone
    and the white space at both ends is trimmed. *)
Definition trimmed_heading (header : string) : list ascii :=
  strip (filter (fun c => anchor_char c = true) (chars header)).

Definition heading_prefix : list ascii := chars "## ".

Definition c9_body : string :=
  "## Setup" +:+ nl +:+ "..." +:+ nl +:+ "## Next Steps" +:+ nl +:+ "...".

Definition c9_trailing : string := "## Setup :)" +:+ nl.

(** The same on code points.  What is left of a heading once the
    characters that are dropped are gone and the white space at both ends
    is trimmed, and the anchor as the specification words it. *)
Definition trimmed (u : Toc.tables) (header : list N) : list N :=
  Toc.strip u (filter (fun c => Toc.anchor_char u c = true) header).

Definition worded_anchor (u : Toc.tables) (header : list N) : list N :=
  Toc.hyphenate <$> filter (fun c => Toc.anchor_char u c = true) (Toc.lower u header).

(** Tables that lowercase a string character by character, a kept
    character to a kept one. *)
Definition lowers_by_character (u : Toc.tables) : Prop :=
  exists f : N -> N,
    (forall l, Toc.lower u l = f <$> l)
    /\ forall c, Toc.anchor_char u (f c) = Toc.anchor_char u c.

(** The bytes of an ASCII text as code points. *)
Definition embed (l : list ascii) : list N := N_of_ascii <$> l.

(** The ASCII part of the tables of Python: the word characters are the
    letters, the digits and the underscore; white space is tab to carriage
    return, the four separators and the space; the capital letters are
    lowered by 32. *)
Definition ascii_tables : Toc.tables :=
  {| Toc.word := fun c =>
       ((48 <=? c) && (c <=? 57) || (65 <=? c) && (c <=? 90)
        || (97 <=? c) && (c <=? 122) || (c =? 95))%N;
     Toc.space := fun c => ((9 <=? c) && (c <=? 13) || (28 <=? c) && (c <=? 32))%N;
     Toc.lower := fun l =>
       (fun c => if ((65 <=? c) && (c <=? 90))%N then (c + 32)%N else c) <$> l |}.

Definition is_ascii (l : list N) : Prop := Forall (fun c => (c < 128)%N) l.

(** Tables that are the ASCII ones on ASCII. *)
Definition ascii_tables_agree (u : Toc.tables) : Prop :=
  (forall c, (c < 128)%N ->
     Toc.word u c = Toc.word ascii_tables c /\ Toc.space u c = Toc.space ascii_tables c)
  /\ (forall l, is_ascii l -> Toc.lower u l = Toc.lower ascii_tables l).

(** *** Order of the items *)

(** A comparison that decides a strict total order. *)
Class GoodCmp {A} (cmp : A -> A -> comparison) := {
  cmp_eq : forall a b, cmp a b = Eq <-> a = b;
  cmp_opp : forall a b, cmp b a = CompOpp (cmp a b);
  cmp_lt_trans : forall a b c, cmp a b = Lt -> cmp b c = Lt -> cmp a c = Lt
}.

(** First by [c1], then by [c2]. *)
Definition lex_cmp {A B} (c1 : A -> A -> comparison) (c2 : B -> B -> comparison)
    (x y : A * B) : comparison :=
  match c1 x.1 y.1 with
  | Eq => c2 x.2 y.2
  | c => c
  end.

Definition not_gt (c : comparison) : bool :=
  match c with Gt => false | _ => true end.

Definition key_compare : nat * order_key * string -> nat * order_key * string -> comparison :=
  lex_cmp (lex_cmp Nat.compare order_compare) String.compare.


(** The ordering key of an item, [None] when it has none. *)
Definition item_key (it : item) : option order_key :=
  match order_of (item_order it) with Ok o => o | Err _ => None end.



Definition c1_summary (nm : string) (order : json) : summary :=
  {| s_name := nm; s_title := JStr nm; s_description := JStr "";
     s_files := MarkdownFile (nm +:+ ".html"); s_data_file := None;
     s_section := "Section"; s_order := order; s_links := JNull; s_slides := JNull |}.

Definition c1_item (nm : string) (order : json) : item :=
  Published (c1_summary nm order) "section" None.

(** *** Notebooks and worlds used as examples *)

Fixpoint assoc {A} (k : string) (l : list (string * A)) : option A :=
  match l with
  | [] => None
  | (k', v) :: l' => if String.eqb k' k then Some v else assoc k l'
  end.

(** A world with a fixed set of files that never changes. *)
Definition fixed_world (files : list string) (notebooks : list (string * json))
    (listing : list (string * list string)) : world :=
  {| resolve_relative := fun p => Some (as_posix p);
     exists_ := fun _ p => bool_decide (as_posix p ∈ files);
     glob_notebooks := fun _ p =>
       Path <$> default [] (assoc (as_posix p) listing);
     glob_markdown := fun _ _ => [];
     glob := fun _ _ => [];
     load_notebook := fun _ p =>
       match assoc (as_posix p) notebooks with
       | Some nb => Ok nb
       | None => Err ValueError
       end;
     read_text := fun _ _ => "";
     front_matter := fun _ => None;
     notebook_references := fun _ => [];
     markdown_references := fun _ => [];
     repr := fun _ => "";
     quote := fun s => s;
     relpath := fun _ _ => "../index.html";
     converted_pdf := fun _ _ => None;
     thumbnail := fun _ _ _ => false;
     git_publish := fun _ _ => true |}.

Definition base_config : config :=
  {| github_repo := Some "jsoma/workshop"; github_branch := None; cfg_output_dir := None;
     cfg_sections := []; cfg_slides := None; cfg_data_files := []; cfg_links := JNull;
     metadata_overrides := None; metadata := None |}.

Definition with_overrides (o : overrides_cfg) (c : config) : config :=
  {| github_repo := github_repo c; github_branch := github_branch c;
     cfg_output_dir := cfg_output_dir c; cfg_sections := cfg_sections c;
     cfg_slides := cfg_slides c; cfg_data_files := cfg_data_files c;
     cfg_links := cfg_links c; metadata_overrides := Some o; metadata := metadata c |}.

(** A configuration with one rule: notebooks of [section1] get a title. *)
Definition c5_config : config :=
  with_overrides (OvMapping [(c5_pattern, JDict {[ "title" := JStr "Intro" ]})])
    base_config.

Definition c5_world : world := fixed_world [] [] [].

Definition with_sections (s : list section_entry) (c : config) : config :=
  {| github_repo := github_repo c; github_branch := github_branch c;
     cfg_output_dir := cfg_output_dir c; cfg_sections := s;
     cfg_slides := cfg_slides c; cfg_data_files := cfg_data_files c;
     cfg_links := cfg_links c; metadata_overrides := metadata_overrides c;
     metadata := metadata c |}.

Definition notebook_of (workshop : option json) (cells : list json) : json :=
  JDict (<["cells" := JList cells]>
        (<["metadata" := JDict (match workshop with
                                | Some ws => {[ "workshop" := ws ]}
                                | None => ∅
                                end)]> ∅)).

Definition intro_path : path := Path "section1/intro.ipynb".

(** *** The exercise variant *)

(** The test of the exercise loop: the tags of the cell are truthy and
    hold [solution]. *)
Definition solution_tagged (cell : json) : bool :=
  match cell with
  | JDict c =>
      match cell_tags c with
      | Ok tags =>
          truthy tags && match has_solution tags with Ok b => b | Err _ => false end
      | Err _ => false
      end
  | _ => false
  end.

(** A code cell has no outputs and no execution count. *)
Definition cleared (cell : json) : Prop :=
  forall c, cell = JDict c ->
    c !! "cell_type" = Some (JStr "code") ->
    c !! "outputs" = Some (JList []) /\ c !! "execution_count" = Some JNull.

(** *** The skip *)

Definition c6_notebook : json := notebook_of None [].

Definition c6_world : world :=
  fixed_world [] [("section1/intro.ipynb", c6_notebook)] [].

Definition c6_config : config :=
  with_overrides (OvMapping [("*.ipynb", JDict {[ "title" := JStr "Intro" ]})]) base_config.

Definition c2_solution_cell : json :=
  JDict {[ "cell_type" := JStr "code";
           "metadata" := JDict {[ "tags" := JList [JStr "solution"] ]};
           "source" := JList [JStr "answer = 42"];
           "execution_count" := JNum 1;
           "outputs" := JList [JStr "42"] ]}.

Definition c2_notebook : json :=
  notebook_of (Some (JDict {[ "title" := JStr "Intro"; "install" := JStr "pandas" ]}))
    [c2_solution_cell].

Definition c2_world : world :=
  fixed_world [] [("section1/intro.ipynb", c2_notebook)] [].

Definition c2_install_cell : json :=
  code_cell ["# Install required packages" +:+ nl;
             "%pip install --upgrade --quiet pandas" +:+ nl].

Definition exercise_path (notebook_path output_dir : path) : path :=
  joinpath (joinpath output_dir (name (parent notebook_path)))
    (stem notebook_path +:+ ".ipynb").

Definition answers_path (notebook_path output_dir : path) : path :=
  joinpath (joinpath output_dir (name (parent notebook_path)))
    (stem notebook_path +:+ "-ANSWERS.ipynb").

(** *** The missing slide file *)

(** A call that neither writes the index nor ends the run with a status
    other than 1. *)
Definition tame {A} (m : M A) : Prop :=
  forall t, index_written (trace_of (m t)) = index_written t
            /\ forall c t', m t = Exit c t' -> c = 1%Z.

Definition never_returns {A} (m : M A) : Prop :=
  forall t, match m t with Return _ _ => False | _ => True end.

(** The slide reference [sf] of an item in [dir] resolves to no file. *)
Definition slides_missing (w : world) (dir : path) (sf : string) : Prop :=
  forall t, exists_ w t (joinpath dir sf) = false /\ exists_ w t (Path sf) = false.

(** The merged metadata of the notebook at [p] declares a slide file that
    is missing. *)
Definition notebook_slides_missing (w : world) (config : config) (p : path) : Prop :=
  exists nb metadata md sf,
    (forall t, load_notebook w t p = Ok (JDict nb))
    /\ get_notebook_metadata (JDict nb) = Ok metadata
    /\ apply_metadata_overrides w p metadata config = Ok (JDict md)
    /\ md !! "slides" = Some (JStr sf) /\ sf <> ""
    /\ slides_missing w (parent p) sf.

(** The same for the markdown page at [p]. *)
Definition markdown_slides_missing (w : world) (config : config) (p : path) : Prop :=
  exists sf, sf <> "" /\ slides_missing w (parent p) sf
    /\ forall t, exists fm,
         apply_metadata_overrides w p
           (let frontmatter := (extract_markdown_frontmatter w (read_text w t p)).1 in
            if truthy frontmatter then frontmatter else JDict ∅) config = Ok (JDict fm)
         /\ fm !! "slides" = Some (JStr sf).

Definition section_folder_of (section : section_entry) : string :=
  match section with SectionDict s => sec_folder s | SectionName f => f end.

Definition section_is_draft (section : section_entry) : bool :=
  match section with SectionDict s => sec_draft s | SectionName _ => false end.

(** The item at [p] is found in the folder of a section that is not a
    draft. *)
Inductive found_in (w : world) (config : config) (p : path) : section_entry -> Prop :=
  | found_notebook section :
      (forall t, p ∈ glob_notebooks w t (Path (section_folder_of section))) ->
      contains (chars ".ipynb_checkpoints") (chars (as_posix p)) = false ->
      notebook_slides_missing w config p ->
      found_in w config p section
  | found_markdown section :
      (forall t, p ∈ glob_markdown w t (Path (section_folder_of section))) ->
      markdown_slides_missing w config p ->
      found_in w config p section.

Definition c7_notebook : json :=
  notebook_of (Some (JDict {[ "title" := JStr "Intro"; "slides" := JStr "slides.pdf" ]})) [].

Definition c7_world : world :=
  fixed_world ["section1"] [("section1/intro.ipynb", c7_notebook)]
    [("section1", ["section1/intro.ipynb"])].

Definition c7_config : config := with_sections [SectionName "section1"] base_config.

(** *** Draft sections *)

Definition c8_section (folder : string) : section_entry :=
  SectionDict {| sec_folder := folder; sec_title := Some "Coming soon"; sec_slides := None;
                 sec_data_files := []; sec_icon := None; sec_draft := true;
                 sec_description := JStr "Later." |}.

Definition c8_config : config :=
  with_sections [c8_section "week3"; c8_section "week4"] base_config.

Definition c8_world : world := fixed_world [] [] [].

(** *** The frame of the merger *)

(** A store with the metadata of a notebook (address 0, its nested mapping
    at 1) and a configuration (address 2) whose rule [*.ipynb] (values at 4,
    nested at 5) overrides the title and adds to the nested mapping. *)
Definition c10_store : list Store.object :=
  [ Store.ODict [("title", Store.VStr "A"); ("options", Store.VRef 1)];
    Store.ODict [("x", Store.VNum 1)];
    Store.ODict [("metadata", Store.VRef 3)];
    Store.ODict [("*.ipynb", Store.VRef 4)];
    Store.ODict [("options", Store.VRef 5); ("title", Store.VStr "B")];
    Store.ODict [("y", Store.VNum 2)] ].

(** ** What the properties below are stated with *)

(** *** Footprints *)

(** Every event the call adds to the trace is one of the [allowed]
    ones, however the call ends. *)
Definition emits_only (allowed : event -> bool) {A} (m : M A) : Prop :=
  forall t, exists added, trace_of (m t) = t ++ added /\ forallb allowed added = true.

(** The events of publishing a notebook. *)
Definition notebook_event (e : event) : bool :=
  match e with
  | Mkdir _ | CopyFile _ _ | CreateZip _ | ZipMember _ _ _ | WriteNotebook _ _ => true
  | _ => false
  end.

(** The events of publishing a markdown page. *)
Definition page_event (e : event) : bool :=
  match e with
  | Mkdir _ | CopyFile _ _ | CreateZip _ | ZipMember _ _ _
  | ConvertSlides _ | MakeThumbnail _ _ | WritePage _ _ _ => true
  | _ => false
  end.

(** The events before a missing slide file is noticed. *)
Definition copy_event (e : event) : bool :=
  match e with Mkdir _ | CopyFile _ _ => true | _ => false end.


(** The events of building the index page, the write apart. *)
Definition index_event (e : event) : bool :=
  match e with
  | Mkdir _ | CopyFile _ _ | CreateZip _ | ZipMember _ _ _
  | ConvertSlides _ | MakeThumbnail _ _ => true
  | _ => false
  end.


(** The files a trace adds to archives. *)
Definition zip_members (t : trace) : list string :=
  omap (fun e => match e with ZipMember _ file_path _ => Some (as_posix file_path) | _ => None end) t.

(** *** Override rules *)

(** [rule] does not apply to the file: its pattern is a string that
    matches neither the relative path nor the name. *)
Definition rule_misses (rel file_name : string) (rule : json * json) : Prop :=
  exists pattern, rule.1 = JStr pattern /\ rule_matches rel file_name pattern = false.

(** [rule] says nothing on key [k] of the file's metadata: it does not
    apply to the file, or its values lack [k]. *)
Definition rule_silent (rel file_name k : string) (rule : json * json) : Prop :=
  exists pattern, rule.1 = JStr pattern
    /\ (rule_matches rel file_name pattern = false
        \/ exists values, rule.2 = JDict values /\ values !! k = None).

(** The path rules are matched against. *)
Definition rel_of (w : world) (file_path : path) : string :=
  default (as_posix file_path) (resolve_relative w file_path).

Definition x_rules : overrides_cfg :=
  OvMapping [("*.ipynb", JDict {[ "title" := JStr "Notebook"; "install" := JStr "pandas" ]});
             ("section1/*", JDict {[ "title" := JStr "Section one" ]});
             ("*.md", JDict {[ "title" := JStr "Page" ]})].

Definition x_config : config := with_overrides x_rules base_config.

(** *** Anchors *)

(** What a character of an anchor is: no upper-case letter and no space,
    and one of the characters the anchor keeps. *)
Definition anchor_safe (c : ascii) : bool :=
  negb (is_upper c) && negb (is_char 32 c) && anchor_char c.

(** *** Set-up cells *)


Definition no_repo_config : config :=
  {| github_repo := None; github_branch := None; cfg_output_dir := None;
     cfg_sections := [SectionName "section1"]; cfg_slides := None; cfg_data_files := [];
     cfg_links := JNull; metadata_overrides := None; metadata := None |}.

Definition plain_notebook : json :=
  notebook_of (Some (JDict {[ "title" := JStr "Intro" ]})) [].

Definition plain_world : world :=
  fixed_world ["section1"] [("section1/intro.ipynb", plain_notebook)]
    [("section1", ["section1/intro.ipynb"])].

(** *** The index *)

Definition x_draft : item := DraftPlaceholder "Week 3" "week3" (JStr "Later.").

Definition x_items : list item :=
  [c1_item "a" (JNum 1); x_draft; c1_item "b" JNull].

(** *** The notebooks that are written *)

(** The notebook metadata [meta] declares the Python 3 kernel and carries
    the workshop metadata [md]; its other keys are those of [original]. *)
Definition published_metadata (original meta md : gmap string json) : Prop :=
  meta !! "workshop" = Some (JDict md)
  /\ (exists ks,
        meta !! "kernelspec" = Some (JDict ks)
        /\ ks !! "name" = Some (JStr "python3")
        /\ ks !! "display_name" = Some (JStr "Python 3")
        /\ ks !! "language" = Some (JStr "python")
        /\ forall key, key <> "name" -> key <> "display_name" -> key <> "language" ->
             ks !! key = match original !! "kernelspec" with
                         | Some (JDict ks0) => ks0 !! key
                         | _ => None
                         end)
  /\ forall key, key <> "workshop" -> key <> "kernelspec" -> meta !! key = original !! key.

(** The written notebook [variant] is [nb] with new cells and metadata. *)
Definition published_variant (nb variant md : gmap string json) : Prop :=
  (exists meta,
     variant !! "metadata" = Some (JDict meta)
     /\ published_metadata
          (match nb !! "metadata" with Some (JDict m) => m | _ => ∅ end) meta md)
  /\ forall key, key <> "cells" -> key <> "metadata" -> variant !! key = nb !! key.

(** *** Ties in the order of the items *)

#[global] Instance order_key_eq_dec : EqDecision order_key.
Proof. solve_decision. Defined.

(** Items that the ordering cannot tell apart: the same ordering key, or no
    key and the same name. *)
Definition tied_with (k : option order_key) (nm : string) (it : item) : Prop :=
  item_key it = k /\ (k = None -> item_name it = nm).

#[global] Instance tied_with_dec k nm it : Decision (tied_with k nm it).
Proof. unfold tied_with. destruct k; apply _. Defined.

Definition x_sorted_input : list item :=
  [c1_item "y" (JNum 1); c1_item "a" (JNum 0); c1_item "x" (JNum 1)].

(** *** Sharing in the object store *)

(** A store where the rule of the configuration (address 1) has a list
    (address 2) as the value of [data_files]. *)
Definition x_store : list Store.object :=
  [ Store.ODict [("title", Store.VStr "A")];
    Store.ODict [("data_files", Store.VRef 2)];
    Store.OList [Store.VStr "a.csv"] ].

(** *** Sections and pages *)

(** The section cannot be processed: it has no folder, or its folder is
    never there. *)
Definition section_unavailable (w : world) (section : section_entry) : Prop :=
  section_is_draft section = false
  /\ (section_folder_of section = ""
      \/ forall t, exists_ w t (Path (section_folder_of section)) = false).

Definition page_path (markdown_path output_dir : path) : path :=
  joinpath (joinpath output_dir (name (parent markdown_path)))
    (stem markdown_path +:+ ".html").

Definition x_page_world : world :=
  fixed_world ["section1"] [] [("section1", [])].

(** *** Copies *)

(** Every event added to the trace passes the check [ok] at the moment
    it is added. *)
Definition checked (ok : trace -> event -> bool) {A} (t : trace) (o : outcome A) : Prop :=
  exists added,
    trace_of o = t ++ added
    /\ forall i e, added !! i = Some e -> ok (t ++ take i added) e = true.

(** A copy writes to a place where nothing is. *)
Definition copy_is_fresh (w : world) (t : trace) (e : event) : bool :=
  match e with CopyFile _ dst => negb (exists_ w t dst) | _ => true end.

(** The branch [commit_and_push_main] publishes from. *)
Definition publishing_branch (config : config) : string :=
  default "main" (github_branch config).

(** A repository where every command succeeds and [HEAD] is on [draft]. *)
Definition x_git (h : list (list string)) (c : list string) : Git.completed :=
  Git.Succeeded "draft
".

(** The commands whose failure makes [commit_and_push_main] give up. *)
Definition fatal_commands (config : config) : list (list string) :=
  [Git.switch (publishing_branch config); Git.add_all; Git.commit;
   Git.push (publishing_branch config)].

(** The branch [HEAD] is on when [commit_and_push_main] starts, as the
    function reads it: empty when [git rev-parse --abbrev-ref HEAD] fails. *)
Definition original_branch (git : list (list string) -> list string -> Git.completed) : string :=
  match git [Git.rev_parse_git_dir] Git.rev_parse_head with
  | Git.Succeeded stdout => text (strip (chars stdout))
  | _ => ""
  end.

(** What [prepare_codespaces_build] may do: remove and make the build
    directory, write its two files, copy the devcontainer template, and
    copy the folder of a configured section that is no draft under its own
    name. *)
Definition codespaces_action (config : config) (a : Codespaces.action) : Prop :=
  match a with
  | Codespaces.Rmtree p | Codespaces.Mkdir p => p = Codespaces.build_dir
  | Codespaces.WriteText p _ =>
      p = joinpath Codespaces.build_dir "requirements.txt"
      \/ p = joinpath Codespaces.build_dir "README.md"
  | Codespaces.CopyTree src dest ignore =>
      (src = Codespaces.dev_src /\ dest = joinpath Codespaces.build_dir ".devcontainer")
      \/ exists section,
           section ∈ cfg_sections config
           /\ section_is_draft section = false
           /\ src = Path (section_folder_of section)
           /\ dest = joinpath Codespaces.build_dir (name src)
           /\ ignore = ["__pycache__"; ".ipynb_checkpoints"]
  end.







(** * Properties *)

(** ** Deep merge *)

Lemma merge_items_lookup (ov b : gmap string json) (k : string) :
  merge_items (JDict ov) b !! k = step (b !! k) (ov !! k).
Proof.
  cbn [merge_items].
  apply (map_fold_weak_ind (fun r m => r !! k = step (b !! k) (m !! k))).
  - by rewrite lookup_empty.
  - intros i x m r Hi IH.
    destruct (decide (i = k)) as [->|Hne].
    + rewrite !lookup_insert_eq. rewrite IH, Hi. reflexivity.
    + rewrite !lookup_insert_ne by done. exact IH.
Qed.

Lemma jsize_lookup (m : gmap string json) k v :
  m !! k = Some v -> jsize v < jsize (JDict m).
Proof.
  intros Hk. cbn [jsize].
  rewrite (map_fold_delete_L _ _ k v m); [lia| |done].
  intros. lia.
Qed.

Lemma json_dict_ind (P : json -> Prop) :
  (forall j, (forall m k v, j = JDict m -> m !! k = Some v -> P v) -> P j) ->
  forall j, P j.
Proof.
  intros H j. remember (jsize j) as n eqn:Hn.
  revert j Hn. induction (lt_wf n) as [n _ IH]. intros j ->.
  apply H. intros m k v -> Hk. eapply IH; [|reflexivity].
  by eapply jsize_lookup.
Qed.

Lemma merge_all_lookup ovs b k :
  merge_all ovs b !! k
  = foldl step (b !! k) (map (fun o : gmap string json => o !! k) ovs).
Proof.
  unfold merge_all. revert b. induction ovs as [|o ovs IH]; intros b; [done|].
  cbn [foldl map]. rewrite IH, merge_items_lookup. done.
Qed.

Lemma merge_items_empty_base (o : gmap string json) : merge_items (JDict o) ∅ = o.
Proof.
  apply map_eq. intros k. rewrite merge_items_lookup, lookup_empty.
  unfold step. destruct (o !! k) as [[]|]; done.
Qed.

Lemma merge_items_empty_override (b : gmap string json) : merge_items (JDict ∅) b = b.
Proof. apply map_eq. intros k. by rewrite merge_items_lookup, lookup_empty. Qed.

Lemma step_dict x d :
  step x (Some (JDict d)) = Some (JDict (merge_items (JDict d) (dict_of x))).
Proof.
  unfold step, merged_value, dict_of.
  destruct x as [[]|]; try done; by rewrite merge_items_empty_base.
Qed.

Lemma fold_step_const ws :
  dicts_of ws = None -> forall x x', foldl step x ws = foldl step x' ws.
Proof.
  induction ws as [|[v|] ws IH]; intros Hn x x'; cbn [foldl dicts_of] in *; try done.
  - destruct v; try done.
    destruct (dicts_of ws) eqn:E; [done|]. by apply IH.
  - by apply IH.
Qed.

Lemma fold_step_dicts ws ds :
  dicts_of ws = Some ds ->
  forall x, foldl step x ws
            = match ds with
              | [] => x
              | _ => Some (JDict (merge_all ds (dict_of x)))
              end.
Proof.
  revert ds. induction ws as [|[v|] ws IH]; intros ds Hd x; cbn [foldl dicts_of] in *.
  - by simplify_eq.
  - destruct v; try done. destruct (dicts_of ws) as [ds'|] eqn:E; [|done].
    cbn in Hd. simplify_eq. rewrite (IH ds' eq_refl).
    destruct ds' as [|d' ds']; [by rewrite step_dict|].
    by rewrite step_dict.
  - by apply IH.
Qed.

Lemma dicts_of_app ws ws' :
  dicts_of (ws ++ ws')
  = match dicts_of ws, dicts_of ws' with
    | Some a, Some b => Some (a ++ b)
    | _, _ => None
    end.
Proof.
  induction ws as [|[v|] ws IH]; cbn.
  - by destruct (dicts_of ws').
  - destruct v; try done. rewrite IH.
    destruct (dicts_of ws), (dicts_of ws'); done.
  - done.
Qed.

Lemma absorbed_dict (o : gmap string json) :
  (forall k v, o !! k = Some v -> absorbed v) ->
  forall w b, merge_all (w ++ [o]) (merge_items (JDict o) b) = merge_all (w ++ [o]) b.
Proof.
  intros H w b. apply map_eq. intros k.
  rewrite !merge_all_lookup, merge_items_lookup, !map_app. cbn [map].
  destruct (o !! k) as [v|] eqn:E; [|done].
  by apply (H k v E).
Qed.

(** An override merged in before a run of overrides that ends with the same
    override leaves no trace. *)
Lemma absorbed_all v : absorbed v.
Proof.
  induction v as [v IH] using json_dict_ind.
  intros ws x.
  assert (Hcase : (exists d, v = JDict d) \/ forall d, v <> JDict d)
    by (destruct v; eauto).
  destruct Hcase as [[d ->]|Hnd].
  - assert (Hd := absorbed_dict d (fun k v => IH d k v eq_refl)).
    destruct (dicts_of ws) as [ds|] eqn:E.
    + assert (E' : dicts_of (ws ++ [Some (JDict d)]) = Some (ds ++ [d])).
      { rewrite dicts_of_app, E. done. }
      rewrite !(fold_step_dicts _ _ E').
      destruct (ds ++ [d]) as [|d0 ds0] eqn:E2; [by destruct ds|]. rewrite <- E2.
      rewrite step_dict. cbn [dict_of]. by rewrite Hd.
    + apply fold_step_const. by rewrite dicts_of_app, E.
  - rewrite !foldl_app. cbn [foldl]. unfold step at 1 3.
    f_equal. unfold merged_value. destruct v; try done. by destruct (Hnd m).
Qed.

Lemma merge_all_absorb w o b :
  merge_all (w ++ [o]) (merge_items (JDict o) b) = merge_all (w ++ [o]) b.
Proof. apply absorbed_dict. intros; apply absorbed_all. Qed.

Lemma merge_all_idem ovs b : merge_all ovs (merge_all ovs b) = merge_all ovs b.
Proof.
  revert b. induction ovs as [|o ovs IH] using rev_ind; intros b; [done|].
  unfold merge_all at 2 3. rewrite !foldl_app. cbn [foldl]. fold (merge_all ovs b).
  rewrite merge_all_absorb.
  unfold merge_all at 1. rewrite foldl_app. cbn [foldl].
  fold (merge_all ovs (merge_all ovs b)).
  by rewrite IH.
Qed.

Lemma step_assoc x a b :
  assoc_safe x a b -> step (step x a) b = step x (step a b).
Proof.
  induction 1 as [xd ad bd _ IH|x a b Hx|x b|x a b Hb].
  - cbn [step merged_value]. do 2 f_equal.
    apply map_eq. intros k. rewrite !merge_items_lookup. apply IH.
  - destruct x as [[]|], a as [[]|], b as [[]|]; done.
  - destruct b as [[]|]; done.
  - destruct b as [[]|]; try done; destruct a as [[]|]; done.
Qed.

Lemma deep_merge_dicts (m o : gmap string json) :
  _deep_merge (JDict m) (JDict o) = Ok (JDict (merge_items (JDict o) m)).
Proof.
  unfold _deep_merge. cbn [truthy].
  destruct (size o =? 0)%nat eqn:E; [|done].
  apply Nat.eqb_eq, map_size_empty_inv in E. subst o.
  cbn [negb]. by rewrite merge_items_empty_override.
Qed.

(** ** Sequential application of overrides *)

Lemma iter_overrides_values config :
  Forall (fun rule => is_dict rule.2 = true) (_iter_metadata_overrides config).
Proof.
  unfold _iter_metadata_overrides.
  destruct (match metadata_overrides config with
            | Some o => if overrides_truthy o then Some o else metadata config
            | None => metadata config
            end) as [[entries|items|v]|]; try by constructor.
  - induction entries as [|[pat vals] entries IH]; cbn; [constructor|].
    destruct (is_dict vals) eqn:E; cbn; [constructor|]; done.
  - induction items as [|item items IH]; cbn; [constructor|].
    destruct (rule_of_item item) as [rule|] eqn:E; cbn; [|done].
    constructor; [|done].
    unfold rule_of_item in E. destruct item; try done.
    match type of E with (if ?c then _ else _) = _ => destruct c eqn:Ec end; [|done].
    simplify_eq. cbn. by apply andb_true_iff in Ec as [_ ?].
Qed.

Lemma apply_rules_ok rel file_name rules :
  Forall (fun rule => is_dict rule.2 = true) rules ->
  forall (m : gmap string json) r,
    apply_rules rel file_name (JDict m) rules = Ok r ->
    r = JDict (merge_all (matching_values rel file_name rules) m).
Proof.
  induction 1 as [|[pat vals] rules Hv _ IH]; intros m r Hr; cbn in *.
  - by simplify_eq.
  - unfold apply_rule in Hr. cbn [fst snd] in *.
    destruct pat; try done. destruct vals; try done.
    destruct (rule_matches rel file_name s).
    + rewrite deep_merge_dicts in Hr. cbn in Hr. by apply IH.
    + cbn in Hr. by apply IH.
Qed.

Lemma apply_rules_total rel file_name rules :
  Forall (fun rule => is_dict rule.2 = true) rules ->
  Forall (fun rule : json * json => exists pattern, rule.1 = JStr pattern) rules ->
  forall m : gmap string json,
    apply_rules rel file_name (JDict m) rules
    = Ok (JDict (merge_all (matching_values rel file_name rules) m)).
Proof.
  induction 1 as [|[pat vals] rules Hv _ IH]; intros Hp m; [done|].
  apply Forall_cons in Hp as [[pattern Hpat] Hp]. cbn in *. subst pat.
  destruct vals as [| | | | |values]; try done. unfold apply_rule. cbn [fst snd].
  destruct (rule_matches rel file_name pattern).
  - rewrite deep_merge_dicts. cbn. by apply IH.
  - cbn. by apply IH.
Qed.

Lemma apply_rules_err rel file_name rules (m m' : json) e :
  apply_rules rel file_name m rules = Err e ->
  Forall (fun rule => is_dict rule.2 = true) rules ->
  is_dict m = true -> is_dict m' = true ->
  apply_rules rel file_name m' rules = Err e.
Proof.
  intros Hr Hv. revert m m' Hr.
  induction Hv as [|[pat vals] rules Hv _ IH]; intros m m' Hr Hm Hm'; cbn in *; [done|].
  unfold apply_rule in *. cbn [fst snd] in *.
  destruct pat; try done. destruct vals; try done.
  destruct m; try done. destruct m'; try done.
  destruct (rule_matches rel file_name s).
  - rewrite !deep_merge_dicts in *. cbn in *. by eapply IH.
  - cbn in *. by eapply IH.
Qed.

Lemma dict_copy_dict meta r : dict_copy meta = Ok r -> exists m, r = JDict m.
Proof.
  unfold dict_copy. destruct (truthy meta); [|intros; simplify_eq; eauto].
  destruct meta as [| | | |items|]; intros; simplify_eq; eauto.
  destruct (dict_of_pairs items ∅); simplify_eq/=; eauto.
Qed.

Lemma dict_copy_of_dict (m : gmap string json) : dict_copy (JDict m) = Ok (JDict m).
Proof.
  unfold dict_copy. cbn [truthy].
  destruct (size m =? 0)%nat eqn:E; [|done].
  apply Nat.eqb_eq, map_size_empty_inv in E. by subst.
Qed.

(** C3, as stated, fails: with base [{k: {p: 1}}], [A = {k: 1}] and
    [B = {k: {q: 2}}], applying A then B leaves [{k: {q: 2}}], while merging
    the patch [_deep_merge(A, B) = {k: {q: 2}}] in one step keeps the base's
    nested mapping and gives [{k: {p: 1, q: 2}}]. *)
Lemma deep_merge_not_associative :
  merge_in_sequence (JDict c3_base) (JDict c3_A) (JDict c3_B)
    = Ok (JDict {[ "k" := JDict {[ "q" := JNum 2 ]} ]})
  /\ merge_in_one_step (JDict c3_base) (JDict c3_A) (JDict c3_B)
    = Ok (JDict {[ "k" := JDict (<[ "q" := JNum 2 ]> {[ "p" := JNum 1 ]}) ]})
  /\ merge_in_sequence (JDict c3_base) (JDict c3_A) (JDict c3_B)
     <> merge_in_one_step (JDict c3_base) (JDict c3_A) (JDict c3_B).
Proof.
  assert (H1 : merge_in_sequence (JDict c3_base) (JDict c3_A) (JDict c3_B)
               = Ok (JDict {[ "k" := JDict {[ "q" := JNum 2 ]} ]}))
    by (vm_compute; reflexivity).
  assert (H2 : merge_in_one_step (JDict c3_base) (JDict c3_A) (JDict c3_B)
               = Ok (JDict {[ "k" := JDict (<[ "q" := JNum 2 ]> {[ "p" := JNum 1 ]}) ]}))
    by (vm_compute; reflexivity).
  split; [exact H1|]. split; [exact H2|].
  rewrite H1, H2. intros H.
  apply (f_equal (fun r : result json =>
                    match r with
                    | Ok (JDict m) =>
                        match m !! "k" with Some (JDict d) => d !! "p" | _ => None end
                    | _ => None
                    end)) in H.
  vm_compute in H. discriminate H.
Qed.

(** C3, amended: applying A then B equals applying the merged patch in one
    step whenever there is no key path at which the base holds a mapping, A
    holds a value that is no mapping and B holds a mapping ([assoc_safe] at
    every key). *)
Theorem deep_merge_assoc_guarded (m A B : gmap string json) :
  (forall k : string, assoc_safe (m !! k) (A !! k) (B !! k)) ->
  merge_in_sequence (JDict m) (JDict A) (JDict B)
  = merge_in_one_step (JDict m) (JDict A) (JDict B).
Proof.
  intros Hsafe. unfold merge_in_sequence, merge_in_one_step.
  rewrite !deep_merge_dicts. cbn [mbind result_bind]. rewrite !deep_merge_dicts.
  do 2 f_equal. apply map_eq. intros k. rewrite !merge_items_lookup.
  by apply step_assoc.
Qed.

Lemma deep_merge_assoc_guarded_witness :
  merge_in_sequence (JDict c3_base) (JDict c3_A_nested) (JDict c3_B)
  = merge_in_one_step (JDict c3_base) (JDict c3_A_nested) (JDict c3_B).
Proof.
  apply deep_merge_assoc_guarded. intros k.
  unfold c3_base, c3_A_nested, c3_B.
  destruct (decide (k = "k")) as [->|Hk].
  - rewrite !lookup_singleton_eq. apply safe_nested. intros k'.
    destruct (decide (k' = "p")) as [->|Hp].
    + rewrite !lookup_singleton_eq. by apply safe_base.
    + rewrite !lookup_singleton_ne by done. by apply safe_base.
  - rewrite !lookup_singleton_ne by done. by apply safe_base.
Defined.

(** C4: applying the override merger to its own result gives that result
    again; when the first application raises there is no second one. *)
Theorem apply_metadata_overrides_idempotent (w : world) (file_path : path) (meta : json)
    (config : config) :
  (apply_metadata_overrides w file_path meta config ≫= fun merged =>
   apply_metadata_overrides w file_path merged config)
  = apply_metadata_overrides w file_path meta config.
Proof.
  unfold apply_metadata_overrides.
  set (rel := default (as_posix file_path) (resolve_relative w file_path)).
  set (rules := _iter_metadata_overrides config).
  assert (Hv := iter_overrides_values config). fold rules in Hv.
  destruct (dict_copy meta) as [m0|e] eqn:Hcopy; [|done].
  destruct (dict_copy_dict _ _ Hcopy) as [m ->].
  cbn [mbind result_bind].
  destruct (apply_rules rel (name file_path) (JDict m) rules) as [r|e] eqn:Hr; [|done].
  cbn [mbind result_bind].
  apply (apply_rules_ok _ _ _ Hv) in Hr as Hr'. subst r.
  rewrite dict_copy_of_dict. cbn [mbind result_bind].
  destruct (apply_rules rel (name file_path)
              (JDict (merge_all (matching_values rel (name file_path) rules) m)) rules)
    as [r'|e] eqn:Hr2.
  - apply (apply_rules_ok _ _ _ Hv) in Hr2. subst r'. by rewrite merge_all_idem.
  - eapply (apply_rules_err _ _ _ _ (JDict m)) in Hr2; [|done..].
    by rewrite Hr in Hr2.
Qed.

(** ** Shell patterns *)

Lemma glob_match_star toks s :
  glob_match (GStar :: toks) s
  = glob_match toks s
    || match s with [] => false | _ :: s' => glob_match (GStar :: toks) s' end.
Proof. destruct s; reflexivity. Qed.

(** *** Bracket expressions *)

Lemma items_text_cons item items :
  items_text (item :: items) = item_text item ++ items_text items.
Proof. reflexivity. Qed.

Lemma listed_spec c :
  listed c = true -> is_point 33 c = false /\ is_point 45 c = false /\ is_point 93 c = false.
Proof.
  unfold listed. intros H. apply andb_true_iff in H as [H H3].
  apply andb_true_iff in H as [H1 H2].
  by rewrite !negb_true_iff in *.
Qed.

Lemma items_text_listed items :
  forallb item_ok items = true -> Forall (fun c => listed c = true \/ c = 45%N) (items_text items).
Proof.
  induction items as [|item items IH]; intros H; [constructor|].
  cbn [forallb] in H. apply andb_true_iff in H as [Hi H].
  rewrite items_text_cons. apply Forall_app. split; [|by apply IH].
  destruct item as [c|lo hi]; cbn in *.
  - apply Forall_singleton. by left.
  - apply andb_true_iff in Hi as [Hi _]. apply andb_true_iff in Hi as [Hlo Hhi].
    apply Forall_cons. split; [by left|].
    apply Forall_cons. split; [by right|].
    apply Forall_singleton. by left.
Qed.

Lemma items_text_head items :
  items <> [] -> forallb item_ok items = true ->
  exists c rest, items_text items = c :: rest /\ listed c = true.
Proof.
  destruct items as [|item items]; [done|]. intros _ H.
  cbn [forallb] in H. apply andb_true_iff in H as [Hi _].
  rewrite items_text_cons. destruct item as [c|lo hi]; cbn in *.
  - eauto.
  - apply andb_true_iff in Hi as [Hi _]. apply andb_true_iff in Hi as [Hlo _]. eauto.
Qed.

Lemma find_from_closing n l rest :
  Forall (fun c => is_point n c = false) l ->
  forall j, j <= length l -> find_from n j (l ++ n :: rest) = Some (length l).
Proof.
  induction 1 as [|c l Hc Hl IH]; intros j Hj.
  - cbn in Hj. assert (j = 0) as -> by lia. cbn.
    unfold is_point. by rewrite N.eqb_refl.
  - cbn [app find_from length]. destruct j as [|j].
    + rewrite Hc, IH by lia. done.
    + rewrite IH by (cbn in Hj; lia). done.
Qed.

Lemma translate_skip l c rest :
  translate (S (length l)) (l ++ c :: rest) = translate 0 rest.
Proof. induction l as [|c' l IH]; [done|]. cbn [length app translate]. apply IH. Qed.

Lemma split_chunks_items items :
  forallb item_ok items = true ->
  forall skip cur,
    skip <= 1 -> split_chunks skip cur (items_text items) = chunks_of cur items.
Proof.
  induction items as [|item items IH]; intros H skip cur Hs.
  { by destruct skip. }
  cbn [forallb] in H. apply andb_true_iff in H as [Hi H].
  rewrite items_text_cons. destruct item as [c|lo hi]; cbn [item_ok] in Hi;
    cbn [item_text app chunks_of split_chunks].
  - apply listed_spec in Hi as (_ & Hc & _).
    destruct skip as [|skip]; [rewrite Hc|]; apply IH; done || lia.
  - apply andb_true_iff in Hi as [Hi _]. apply andb_true_iff in Hi as [Hlo Hhi].
    apply listed_spec in Hlo as (_ & Hlo & _).
    assert (skip = 0 \/ skip = 1) as [-> | ->] by lia.
    + rewrite Hlo. change (is_point 45 45) with true. cbn match.
      f_equal. apply IH; done || lia.
    + change (is_point 45 45) with true. cbn match.
      f_equal. apply IH; done || lia.
Qed.

Lemma chunks_of_head cur items :
  exists chunk rest, chunks_of cur items = (rev cur ++ chunk) :: rest.
Proof.
  revert cur. induction items as [|item items IH]; intros cur.
  - exists [], []. cbn. by rewrite app_nil_r.
  - destruct item as [c|lo hi]; cbn.
    + destruct (IH (c :: cur)) as (chunk & rest & ->). cbn.
      exists (c :: chunk), rest. by rewrite <- (assoc_L (++)).
    + exists [lo], (chunks_of [hi] items). done.
Qed.

Lemma chunks_of_nonempty cur items :
  (cur <> [] \/ items <> []) -> Forall (fun chunk => chunk <> []) (chunks_of cur items).
Proof.
  revert cur. induction items as [|item items IH]; intros cur H.
  - constructor; [|constructor]. destruct H as [H|H]; [|done].
    intros E. destruct cur as [|c cur]; [done|]. cbn in E. by destruct (rev cur).
  - destruct item as [c|lo hi]; cbn.
    + apply IH. by left.
    + constructor; [|apply IH; by left].
      cbn. by destruct (rev cur).
Qed.

Lemma close_chunks_nonempty chunks :
  Forall (fun chunk => chunk <> []) chunks -> close_chunks chunks = chunks.
Proof.
  induction 1 as [|chunk chunks Hc Hl IH]; [done|].
  cbn [close_chunks]. destruct chunks as [|next chunks]; [done|].
  apply Forall_cons in Hl as [Hn Hl'].
  destruct next as [|c next]; [done|]. by rewrite IH.
Qed.

Lemma drop_empty_ranges cur items :
  forallb item_ok items = true ->
  foldr drop_empty_range [] (chunks_of cur items) = chunks_of cur items.
Proof.
  revert cur. induction items as [|item items IH]; intros cur H; [done|].
  cbn [forallb] in H. apply andb_true_iff in H as [Hi H].
  destruct item as [c|lo hi]; cbn [chunks_of]; [by apply IH|].
  cbn [foldr]. rewrite IH by done.
  destruct (chunks_of_head [hi] items) as (chunk & rest & ->).
  cbn in Hi. apply andb_true_iff in Hi as [_ Hle]. apply N.leb_le in Hle.
  unfold drop_empty_range. cbn [rev]. rewrite last_snoc. cbn [app].
  destruct (N.ltb_spec hi lo); [lia|done].
Qed.

Lemma join_atoms_chunks cur items :
  join_atoms (chunks_of cur items) = (Ch <$> rev cur) ++ atoms_of items.
Proof.
  revert cur. induction items as [|item items IH]; intros cur.
  - cbn. by rewrite app_nil_r.
  - destruct item as [c|lo hi]; cbn [chunks_of].
    + rewrite IH. cbn [rev]. rewrite fmap_app, <- (assoc_L (++)). done.
    + cbn [join_atoms]. specialize (IH [hi]).
      destruct (chunks_of [hi] items) as [|chunk rest] eqn:E.
      { destruct (chunks_of_head [hi] items) as (? & ? & ?). congruence. }
      rewrite IH. cbn [rev app]. rewrite fmap_app, <- (assoc_L (++)). done.
Qed.

Lemma atoms_without_range items :
  existsb (is_point 45) (items_text items) = false ->
  Ch <$> items_text items = atoms_of items.
Proof.
  induction items as [|item items IH]; [done|].
  rewrite items_text_cons, existsb_app. intros H.
  apply orb_false_iff in H as [Hi H]. destruct item as [c|lo hi].
  - rewrite fmap_app, IH by done. done.
  - cbn [item_text existsb] in Hi. change (is_point 45 45) with true in Hi.
    by destruct (is_point 45 lo).
Qed.

Lemma set_atoms items prefix :
  forallb item_ok items = true ->
  items <> [] ->
  (prefix = [] \/ prefix = [33%N]) ->
  join_atoms (set_chunks (prefix ++ items_text items)) = (Ch <$> prefix) ++ atoms_of items.
Proof.
  intros Hok Hne Hp. unfold set_chunks.
  destruct (existsb (is_point 45) (prefix ++ items_text items)) eqn:E.
  - destruct (items_text_head items Hne Hok) as (c & rest & Hc & Hl).
    apply listed_spec in Hl as (Hc33 & _ & _).
    destruct Hp as [-> | ->]; cbn [app].
    + rewrite Hc, Hc33, <- Hc.
      rewrite split_chunks_items, close_chunks_nonempty, drop_empty_ranges,
        join_atoms_chunks; try done.
      apply chunks_of_nonempty. by right.
    + assert (H33 : is_point 33 33 = true) by done. rewrite H33. cbn [split_chunks].
      rewrite split_chunks_items, close_chunks_nonempty, drop_empty_ranges,
        join_atoms_chunks; try done.
      apply chunks_of_nonempty. by left.
  - cbn [join_atoms]. rewrite fmap_app. f_equal.
    apply atoms_without_range. rewrite existsb_app in E.
    by apply orb_false_iff in E as [_ ?].
Qed.

Lemma class_items_atoms items :
  class_items (atoms_of items) = (singles_of items, ranges_of items).
Proof.
  induction items as [|item items IH]; [done|].
  destruct item as [c|lo hi].
  - change (atoms_of (One c :: items)) with (Ch c :: atoms_of items).
    cbn [singles_of ranges_of omap list_omap].
    change (omap _ items) with (singles_of items) at 1.
    change (omap _ items) with (ranges_of items).
    destruct items as [|[c'|lo hi] items].
    + done.
    + change (atoms_of (One c' :: items)) with (Ch c' :: atoms_of items) in *.
      cbn [class_items]. cbn [class_items] in IH. by rewrite IH.
    + change (atoms_of (Range lo hi :: items))
        with (Ch lo :: Dash :: Ch hi :: atoms_of items) in *.
      cbn [class_items]. cbn [class_items] in IH. by rewrite IH.
  - change (atoms_of (Range lo hi :: items))
      with (Ch lo :: Dash :: Ch hi :: atoms_of items).
    cbn [class_items]. rewrite IH. done.
Qed.

Lemma set_token_one_of items :
  forallb item_ok items = true -> items <> [] ->
  set_token (items_text items) = GSet false (singles_of items) (ranges_of items).
Proof.
  intros Hok Hne. unfold set_token.
  pose proof (set_atoms items [] Hok Hne (or_introl eq_refl)) as Hs.
  cbn [fmap list_fmap app] in Hs. rewrite Hs.
  destruct (items_text_head items Hne Hok) as (c & rest & Hc & Hl).
  apply listed_spec in Hl as (Hc33 & _ & _).
  destruct items as [|item items]; [done|].
  assert (exists atoms, atoms_of (item :: items) = Ch c :: atoms) as [atoms Ha].
  { rewrite items_text_cons in Hc. destruct item; cbn in Hc; simplify_eq; by eexists. }
  generalize (class_items_atoms (item :: items)). rewrite Ha, Hc33. by intros ->.
Qed.

Lemma set_token_none_of items :
  forallb item_ok items = true -> items <> [] ->
  set_token (33%N :: items_text items) = GSet true (singles_of items) (ranges_of items).
Proof.
  intros Hok Hne. unfold set_token.
  pose proof (set_atoms items [33%N] Hok Hne (or_intror eq_refl)) as Hs.
  cbn [fmap list_fmap app] in Hs. rewrite Hs.
  assert (H33 : is_point 33 33 = true) by done. rewrite H33.
  by rewrite class_items_atoms.
Qed.

Lemma set_end_closing body rest c body' :
  body = c :: body' ->
  is_point 93 c = false ->
  is_point 33 c = false ->
  Forall (fun c => is_point 93 c = false) body ->
  set_end (body ++ 93%N :: rest) = Some (length body).
Proof.
  intros -> H93 H33 Hb. unfold set_end. cbn [app]. rewrite H33.
  cbn [lookup list_lookup]. rewrite H93.
  apply (find_from_closing 93 (c :: body') rest Hb 0). lia.
Qed.

Lemma set_end_closing_negated body rest c body' :
  body = c :: body' ->
  is_point 93 c = false ->
  Forall (fun c => is_point 93 c = false) body ->
  set_end (33%N :: body ++ 93%N :: rest) = Some (S (length body)).
Proof.
  intros -> H93 Hb. unfold set_end.
  assert (H33 : is_point 33 33 = true) by done. rewrite H33.
  cbn [app lookup list_lookup]. rewrite H93.
  apply (find_from_closing 93 (33%N :: c :: body') rest); [|cbn; lia].
  by constructor.
Qed.

Lemma items_text_open items :
  forallb item_ok items = true ->
  Forall (fun c => is_point 93 c = false) (items_text items).
Proof.
  intros H. eapply Forall_impl; [by apply items_text_listed|].
  intros c [Hc| ->]; [|done]. by apply listed_spec in Hc as (_ & _ & ?).
Qed.

(** The tokens of a pattern are those of its pieces. *)
Lemma translate_pieces pieces :
  forallb piece_ok pieces = true ->
  translate 0 (pattern_text pieces) = piece_token <$> pieces.
Proof.
  induction pieces as [|p pieces IH]; intros H; [done|].
  cbn [forallb] in H. apply andb_true_iff in H as [Hp H]. specialize (IH H).
  change (pattern_text (p :: pieces)) with (piece_text p ++ pattern_text pieces).
  destruct p as [| |c|items|items]; cbn [piece_text app fmap list_fmap piece_token].
  - cbn. by rewrite IH.
  - cbn. by rewrite IH.
  - cbn in Hp. unfold plain in Hp. apply andb_true_iff in Hp as [Hp H91].
    apply andb_true_iff in Hp as [H42 H63]. rewrite !negb_true_iff in *.
    cbn [translate]. rewrite H42, H63, H91, IH. done.
  - cbn in Hp. apply andb_true_iff in Hp as [Hne Hok].
    assert (items <> []) as Hne' by by destruct items.
    destruct (items_text_head items Hne' Hok) as (c & body' & Hc & Hl).
    apply listed_spec in Hl as (Hc33 & _ & Hc93).
    cbn [translate]. change (is_point 42 91) with false. change (is_point 63 91) with false.
    change (is_point 91 91) with true. cbn match.
    rewrite <- (assoc_L (++)). cbn [app].
    rewrite (set_end_closing _ _ c body' Hc Hc93 Hc33 (items_text_open _ Hok)).
    rewrite take_app_length, set_token_one_of by done. f_equal.
    rewrite translate_skip. apply IH.
  - cbn in Hp. apply andb_true_iff in Hp as [Hne Hok].
    assert (items <> []) as Hne' by by destruct items.
    destruct (items_text_head items Hne' Hok) as (c & body' & Hc & Hl).
    apply listed_spec in Hl as (_ & _ & Hc93).
    cbn [translate]. change (is_point 42 91) with false. change (is_point 63 91) with false.
    change (is_point 91 91) with true. cbn match.
    rewrite <- (assoc_L (++)). cbn [app].
    rewrite (set_end_closing_negated _ _ c body' Hc Hc93 (items_text_open _ Hok)).
    change (33%N :: items_text items ++ 93%N :: pattern_text pieces)
      with ((33%N :: items_text items) ++ 93%N :: pattern_text pieces).
    replace (S (length (items_text items))) with (length (33%N :: items_text items)) by done.
    rewrite take_app_length, set_token_none_of by done. f_equal.
    rewrite <- IH. apply (translate_skip (33%N :: items_text items) 93%N).
Qed.

Lemma in_set_covers items c :
  in_set (singles_of items) (ranges_of items) c = true <-> Exists (covers c) items.
Proof.
  unfold in_set. rewrite orb_true_iff, Exists_exists. split.
  - intros [H|H]; apply existsb_exists in H as (x & Hx & Hc).
    + apply list_elem_of_In, list_elem_of_omap in Hx as (item & Hi & Hx).
      destruct item; simplify_eq. apply N.eqb_eq in Hc. by exists (One x).
    + apply list_elem_of_In, list_elem_of_omap in Hx as (item & Hi & Hx).
      destruct item as [|lo hi]; simplify_eq. apply andb_true_iff in Hc as [H1 H2].
      apply N.leb_le in H1, H2. by exists (Range lo hi).
  - intros ([a|lo hi] & Hi & Hc); cbn in Hc.
    + left. apply existsb_exists. exists a. split; [|by apply N.eqb_eq].
      apply list_elem_of_In, list_elem_of_omap. by exists (One a).
    + right. apply existsb_exists. exists (lo, hi). split.
      * apply list_elem_of_In, list_elem_of_omap. by exists (Range lo hi).
      * apply andb_true_iff. split; apply N.leb_le; lia.
Qed.

Lemma glob_match_shell pieces s :
  glob_match (piece_token <$> pieces) s = true -> shell_match pieces s.
Proof.
  revert s. induction pieces as [|p pieces IH]; intros s H.
  - destruct s; [constructor|done].
  - destruct p as [| |a|items|items]; cbn [fmap list_fmap piece_token] in H.
    + induction s as [|c s IHs].
      * rewrite glob_match_star, orb_false_r in H.
        apply (match_star pieces [] []). by apply IH.
      * rewrite glob_match_star in H. apply orb_true_iff in H as [H|H].
        -- apply (match_star pieces [] (c :: s)). by apply IH.
        -- specialize (IHs H). inversion IHs as [|? run s0 Hd| | | |]; subst.
           apply (match_star pieces (c :: run) s0 Hd).
    + destruct s as [|c s]; [done|]. cbn in H. constructor. by apply IH.
    + destruct s as [|c s]; [done|]. cbn in H.
      apply andb_true_iff in H as [Hc H].
      apply N.eqb_eq in Hc as ->. constructor. by apply IH.
    + destruct s as [|c s]; [done|]. cbn [glob_match token_matches xorb] in H.
      apply andb_true_iff in H as [Hc H].
      constructor; [|by apply IH]. apply in_set_covers.
      by destruct (in_set _ _ c).
    + destruct s as [|c s]; [done|]. cbn [glob_match token_matches] in H.
      apply andb_true_iff in H as [Hc H].
      constructor; [|by apply IH]. rewrite <- in_set_covers.
      by destruct (in_set _ _ c).
Qed.

Lemma shell_glob_match pieces s :
  shell_match pieces s -> glob_match (piece_token <$> pieces) s = true.
Proof.
  induction 1 as [|pieces run s _ IH|pieces c s _ IH|pieces c s _ IH
                  |pieces items c s Hc _ IH|pieces items c s Hc _ IH];
    cbn [fmap list_fmap piece_token].
  - done.
  - induction run as [|c run IHr]; rewrite glob_match_star.
    + cbn [app]. by rewrite IH.
    + cbn [app]. rewrite IHr. apply orb_true_r.
  - done.
  - cbn. by rewrite N.eqb_refl.
  - cbn [glob_match token_matches]. apply in_set_covers in Hc. by rewrite Hc.
  - cbn [glob_match token_matches]. rewrite <- in_set_covers in Hc.
    by destruct (in_set _ _ c).
Qed.

(** [fnmatch.fnmatchcase] on a pattern of well-formed pieces is shell
    matching. *)
Lemma fnmatchcase_shell pieces name :
  forallb piece_ok pieces = true ->
  fnmatchcase name (pattern_text pieces) = true <-> shell_match pieces name.
Proof.
  intros Hok. unfold fnmatchcase. rewrite translate_pieces by done. split.
  - apply glob_match_shell.
  - apply shell_glob_match.
Qed.

(** *** The rules of a configuration *)

Lemma matching_values_entries rel file_name entries :
  matching_values rel file_name
    (omap (fun '(pat, vals) => if is_dict vals then Some (JStr pat, vals) else None) entries)
  = matching_entries rel file_name entries.
Proof.
  unfold matching_entries.
  induction entries as [|[pat vals] entries IH]; [done|].
  cbn [omap list_omap fst snd].
  destruct vals as [| | | | |values]; cbn [is_dict]; try apply IH.
  cbn [matching_values]. destruct (rule_matches rel file_name pat); by rewrite IH.
Qed.

Lemma mapping_rules_total entries :
  Forall (fun rule : json * json => exists pattern, rule.1 = JStr pattern)
    (omap (fun '(pat, vals) => if is_dict vals then Some (JStr pat, vals) else None)
       entries).
Proof.
  induction entries as [|[pat vals] entries IH]; [constructor|].
  cbn. destruct (is_dict vals); cbn; [constructor; [by eexists|done]|done].
Qed.

Lemma rule_of_rule_item rule :
  rule.1 <> "" -> rule.2 <> ∅ ->
  rule_of_item (rule_item rule) = Some (JStr rule.1, JDict rule.2).
Proof.
  destruct rule as [pattern values]. cbn [fst snd]. intros Hp Hv.
  unfold rule_of_item, rule_item, get. cbn [fst snd].
  set (d := ({["pattern" := JStr pattern; "values" := JDict values]} : gmap string json)).
  assert (d !! "pattern" = Some (JStr pattern)) as -> by (subst d; by simplify_map_eq).
  assert (d !! "values" = Some (JDict values)) as -> by (subst d; by simplify_map_eq).
  cbn [default from_option id].
  assert (Htp : truthy (JStr pattern) = true).
  { cbn. destruct (String.eqb pattern "") eqn:E; [by apply String.eqb_eq in E|done]. }
  assert (Htv : truthy (JDict values) = true).
  { cbn. destruct (size values =? 0) eqn:E; [|done].
    by apply Nat.eqb_eq, map_size_empty_inv in E. }
  unfold py_or. rewrite Htp. cbv iota. rewrite Htv. cbv iota.
  rewrite ?Htp, ?Htv. done.
Qed.

Lemma list_rules rules :
  Forall (fun rule : string * gmap string json => rule.1 <> "" /\ rule.2 <> ∅) rules ->
  omap rule_of_item (rule_item <$> rules)
  = (fun rule : string * gmap string json => (JStr rule.1, JDict rule.2)) <$> rules.
Proof.
  induction 1 as [|rule rules [Hp Hv] _ IH]; [done|].
  cbn [fmap list_fmap omap list_omap]. rewrite rule_of_rule_item by done.
  cbn. f_equal. apply IH.
Qed.

Lemma matching_values_rules rel file_name (rules : list (string * gmap string json)) :
  matching_values rel file_name
    ((fun rule : string * gmap string json => (JStr rule.1, JDict rule.2)) <$> rules)
  = matching_entries rel file_name
      ((fun rule : string * gmap string json => (rule.1, JDict rule.2)) <$> rules).
Proof.
  unfold matching_entries.
  induction rules as [|[pattern values] rules IH]; [done|].
  cbn [fmap list_fmap omap list_omap matching_values fst snd].
  destruct (rule_matches rel file_name pattern); by rewrite IH.
Qed.

Lemma apply_configured w file_path config (m : gmap string json) :
  Forall (fun rule : json * json => exists pattern, rule.1 = JStr pattern)
    (_iter_metadata_overrides config) ->
  apply_metadata_overrides w file_path (JDict m) config
  = Ok (JDict (merge_all
                 (matching_values
                    (default (as_posix file_path) (resolve_relative w file_path))
                    (name file_path) (_iter_metadata_overrides config)) m)).
Proof.
  intros Hp. unfold apply_metadata_overrides. rewrite dict_copy_of_dict.
  cbn [mbind result_bind].
  apply (apply_rules_total _ _ _ (iter_overrides_values config) Hp).
Qed.

(** C5: a rule is merged exactly when its pattern matches the file's path
    relative to the working directory or its bare name, and matching is
    shell matching.  The overrides that come out of a successful
    application are those of the rules that match, merged in order.  For
    overrides given as a mapping from patterns to values, and for overrides
    given as a list of [{pattern: ..., values: ...}] items, these are the
    values configured under the patterns that match; a lone rule is merged
    if its pattern matches and leaves the metadata as it is otherwise.  A
    pattern matches when it matches the path or the name; a pattern written
    with [*], [?], bracket expressions and characters that stand for
    themselves matches a name exactly when the name is in the language the
    shell reads in it, character by character.  [section1/*.ipynb] matches
    [section1/intro.ipynb] but neither the path nor the name of
    [section2/intro.ipynb], and a configuration with this rule gives its
    values to the first file and not to the second. *)
Theorem override_applies_iff_pattern_matches :
  (forall (w : world) (file_path : path) (meta : json) (config : config) (merged : json),
     apply_metadata_overrides w file_path meta config = Ok merged ->
     exists m,
       dict_copy meta = Ok (JDict m)
       /\ merged
          = JDict (merge_all
                     (matching_values
                        (default (as_posix file_path) (resolve_relative w file_path))
                        (name file_path) (_iter_metadata_overrides config)) m))
  /\ (forall (w : world) (file_path : path) (m : gmap string json) (config : config) entries,
        configured config = Some (OvMapping entries) ->
        apply_metadata_overrides w file_path (JDict m) config
        = Ok (JDict (merge_all
                       (matching_entries
                          (default (as_posix file_path) (resolve_relative w file_path))
                          (name file_path) entries) m)))
  /\ (forall (w : world) (file_path : path) (m : gmap string json) (config : config)
             (rules : list (string * gmap string json)),
        configured config = Some (OvList (rule_item <$> rules)) ->
        Forall (fun rule : string * gmap string json => rule.1 <> "" /\ rule.2 <> ∅) rules ->
        apply_metadata_overrides w file_path (JDict m) config
        = Ok (JDict (merge_all
                       (matching_entries
                          (default (as_posix file_path) (resolve_relative w file_path))
                          (name file_path)
                          ((fun rule : string * gmap string json => (rule.1, JDict rule.2))
                             <$> rules)) m)))
  /\ (forall (w : world) (file_path : path) (m : gmap string json) (config : config)
             pattern (values : gmap string json),
        configured config = Some (OvMapping [(pattern, JDict values)]) ->
        apply_metadata_overrides w file_path (JDict m) config
        = Ok (JDict (if rule_matches
                          (default (as_posix file_path) (resolve_relative w file_path))
                          (name file_path) pattern
                     then merge_items (JDict values) m
                     else m)))
  /\ (forall rel file_name pattern,
        rule_matches rel file_name pattern = true
        <-> fnmatch rel pattern = true \/ fnmatch file_name pattern = true)
  /\ (forall pieces file_name pattern,
        codepoints (chars pattern) = pattern_text pieces ->
        forallb piece_ok pieces = true ->
        fnmatch file_name pattern = true
        <-> shell_match pieces (codepoints (chars file_name)))
  /\ apply_metadata_overrides c5_world c5_file (JDict ∅) c5_config
     = Ok (JDict {[ "title" := JStr "Intro" ]})
  /\ apply_metadata_overrides c5_world c5_other (JDict ∅) c5_config = Ok (JDict ∅)
  /\ rule_matches (as_posix c5_file) (name c5_file) c5_pattern = true
  /\ rule_matches (as_posix c5_other) (name c5_other) c5_pattern = false
  /\ rule_matches (as_posix c5_file) (name c5_file) "intr?.ipynb" = true
  /\ rule_matches (as_posix c5_file) (name c5_file) "intr?o.ipynb" = false
  /\ rule_matches (as_posix c5_file) (name c5_file) "[h-j]ntro.[ij]pynb" = true
  /\ rule_matches (as_posix c5_file) (name c5_file) "[!h-j]ntro.ipynb" = false.
Proof.
  assert (Hlone : forall (w : world) (file_path : path) (m : gmap string json)
                         (config : config) pattern (values : gmap string json),
            configured config = Some (OvMapping [(pattern, JDict values)]) ->
            apply_metadata_overrides w file_path (JDict m) config
            = Ok (JDict (if rule_matches
                              (default (as_posix file_path) (resolve_relative w file_path))
                              (name file_path) pattern
                         then merge_items (JDict values) m
                         else m))).
  { intros w file_path m config pattern values Hc.
    assert (Hi : _iter_metadata_overrides config = [(JStr pattern, JDict values)]).
    { unfold _iter_metadata_overrides. unfold configured in Hc. by rewrite Hc. }
    rewrite apply_configured by (rewrite Hi; apply Forall_singleton; by eexists).
    rewrite Hi. cbn [matching_values].
    by destruct (rule_matches _ _ pattern). }
  split; [|split; [|split; [|split; [|split; [|split; [|split; [|split]]]]]]].
  - intros w file_path meta config merged H.
    unfold apply_metadata_overrides in H.
    destruct (dict_copy meta) as [m0|e] eqn:Hcopy; [|done].
    destruct (dict_copy_dict _ _ Hcopy) as [m ->]. cbn [mbind result_bind] in H.
    exists m. split; [done|].
    by apply (apply_rules_ok _ _ _ (iter_overrides_values config)).
  - intros w file_path m config entries Hc.
    assert (Hi : _iter_metadata_overrides config
                 = omap (fun '(pat, vals) =>
                           if is_dict vals then Some (JStr pat, vals) else None) entries).
    { unfold _iter_metadata_overrides. unfold configured in Hc. by rewrite Hc. }
    rewrite apply_configured by (rewrite Hi; apply mapping_rules_total).
    by rewrite Hi, matching_values_entries.
  - intros w file_path m config rules Hc Hr.
    assert (Hi : _iter_metadata_overrides config
                 = (fun rule : string * gmap string json => (JStr rule.1, JDict rule.2))
                     <$> rules).
    { unfold _iter_metadata_overrides. unfold configured in Hc. rewrite Hc.
      by apply list_rules. }
    rewrite apply_configured.
    + by rewrite Hi, matching_values_rules.
    + rewrite Hi. apply Forall_fmap, Forall_forall. intros rule _. by eexists.
  - exact Hlone.
  - intros rel file_name pattern. unfold rule_matches. apply orb_true_iff.
  - intros pieces file_name pattern Hp Hok. unfold fnmatch. rewrite Hp.
    by apply fnmatchcase_shell.
  - rewrite (Hlone c5_world c5_file ∅ c5_config c5_pattern {[ "title" := JStr "Intro" ]})
      by reflexivity.
    assert (rule_matches
              (default (as_posix c5_file) (resolve_relative c5_world c5_file))
              (name c5_file) c5_pattern = true) as -> by (vm_compute; reflexivity).
    by rewrite merge_items_empty_base.
  - rewrite (Hlone c5_world c5_other ∅ c5_config c5_pattern {[ "title" := JStr "Intro" ]})
      by reflexivity.
    assert (rule_matches
              (default (as_posix c5_other) (resolve_relative c5_world c5_other))
              (name c5_other) c5_pattern = false) as -> by (vm_compute; reflexivity).
    done.
  - repeat split; vm_compute; reflexivity.
Qed.

(** The pieces of [[!h-j]ntr?.*]: a negated range, three characters, any
    character, a dot and any run. *)
Example pattern_pieces :
  codepoints (chars "[!h-j]ntr?.*")
  = pattern_text [NoneOf [Range 104 106]; Lit 110; Lit 116; Lit 114; Any; Lit 46; Star]
  /\ forallb piece_ok
       [NoneOf [Range 104 106]; Lit 110; Lit 116; Lit 114; Any; Lit 46; Star] = true.
Proof. split; vm_compute; reflexivity. Qed.

(** ** Table of contents *)

Lemma header_of_line_spec line heading :
  header_of_line line = Some heading
  <-> line = heading_prefix ++ heading /\ heading <> [].
Proof.
  unfold header_of_line, heading_prefix. split.
  - destruct line as [|h1 [|h2 [|sp [|c rest]]]]; try done.
    destruct (is_char 35 h1) eqn:E1, (is_char 35 h2) eqn:E2, (is_char 32 sp) eqn:E3;
      try done.
    intros [= <-]. split; [|done].
    apply Nat.eqb_eq in E1, E2, E3.
    apply (f_equal ascii_of_nat) in E1, E2, E3.
    unfold code in *. rewrite ascii_nat_embedding in E1, E2, E3. by subst.
  - intros [-> Hne]. destruct heading as [|c rest]; [done|]. reflexivity.
Qed.

Lemma anchor_char_lower c : anchor_char (to_lower c) = anchor_char c.
Proof. destruct c as [[] [] [] [] [] [] [] []]; vm_compute; reflexivity. Qed.

Lemma filter_anchor_lower l :
  filter (fun c => anchor_char c = true) (lower l)
  = lower (filter (fun c => anchor_char c = true) l).
Proof.
  unfold lower. induction l as [|c l IH]; [done|].
  cbn [map]. rewrite !filter_cons, anchor_char_lower.
  destruct (decide (anchor_char c = true)); cbn [map]; by rewrite IH.
Qed.

Lemma lstrip_Forall (P : ascii -> Prop) l : Forall P l -> Forall P (lstrip l).
Proof.
  induction 1 as [|c l Hc Hl IH]; cbn; [constructor|].
  destruct (is_space c); [done|]. by constructor.
Qed.

Lemma strip_Forall (P : ascii -> Prop) l : Forall P l -> Forall P (strip l).
Proof.
  intros H. unfold strip.
  apply Forall_rev, lstrip_Forall, Forall_rev, lstrip_Forall, H.
Qed.

Lemma filter_all {A} (P : A -> Prop) `{!forall x, Decision (P x)} (l : list A) :
  Forall P l -> filter P l = l.
Proof.
  induction 1 as [|x l Hx _ IH]; [done|].
  rewrite filter_cons. destruct (decide (P x)); [by rewrite IH|done].
Qed.

Lemma chars_text l : chars (text l) = l.
Proof. apply String.list_ascii_of_string_of_list_ascii. Qed.

Lemma anchor_of_trimmed header :
  anchor header = spec_anchor (text (trimmed_heading header)).
Proof.
  unfold anchor, spec_anchor, trimmed_heading.
  rewrite chars_text, filter_anchor_lower.
  rewrite (filter_all _ (strip _)); [done|].
  apply strip_Forall. apply Forall_forall. intros c Hc.
  by apply list_elem_of_filter in Hc as [? _].
Qed.

(** C9, as stated, fails: the anchor is trimmed after the characters are
    dropped, which the stated derivation leaves out.  The heading
    [Setup :)] gets the anchor [setup], not [setup-]. *)
Lemma toc_anchor_is_trimmed :
  generate_toc_from_markdown c9_trailing false
    = "## Table of Contents" +:+ nl +:+ nl +:+ "- [Setup :)](#setup)" +:+ nl
  /\ anchor "Setup :)" = "setup"
  /\ spec_anchor "Setup :)" = "setup-"
  /\ anchor "Setup :)" <> spec_anchor "Setup :)".
Proof. repeat split; try (vm_compute; reflexivity). vm_compute. discriminate. Qed.

(** *** On code points *)

Lemma toc_header_of_line_spec line heading :
  Toc.header_of_line line = Some heading
  <-> line = Toc.points "## " ++ heading /\ heading <> [].
Proof.
  unfold Toc.header_of_line. change (Toc.points "## ") with [35; 35; 32]%N. split.
  - destruct line as [|h1 [|h2 [|sp [|c rest]]]]; try done.
    destruct (h1 =? 35)%N eqn:E1, (h2 =? 35)%N eqn:E2, (sp =? 32)%N eqn:E3; try done.
    intros [= <-]. apply N.eqb_eq in E1, E2, E3. by subst.
  - intros [-> Hne]. destruct heading as [|c rest]; [done|]. reflexivity.
Qed.

Lemma toc_split_join content :
  Toc.join [10%N] (Toc.split_on 10 content) = content
  /\ Toc.split_on 10 content <> []
  /\ Forall (fun line => 10%N ∉ line) (Toc.split_on 10 content).
Proof.
  induction content as [|c content (IHj & IHn & IHf)]; cbn [Toc.split_on].
  - repeat split; [done|]. apply Forall_singleton. apply not_elem_of_nil.
  - destruct (Toc.split_on 10 content) as [|w ws] eqn:E; [done|].
    apply Forall_cons in IHf as [Hw Hws].
    destruct (N.eqb_spec c 10) as [->|Hc].
    + repeat split; [|done|].
      * change (Toc.join [10%N] ([] :: w :: ws))
          with ([] ++ [10%N] ++ Toc.join [10%N] (w :: ws)).
        by rewrite IHj.
      * constructor; [apply not_elem_of_nil|by constructor].
    + repeat split; [|done|].
      * destruct ws as [|w' ws].
        -- cbn [Toc.join] in *. by rewrite IHj.
        -- change (Toc.join [10%N] ((c :: w) :: w' :: ws))
             with (c :: (w ++ [10%N] ++ Toc.join [10%N] (w' :: ws))).
           change (Toc.join [10%N] (w :: w' :: ws))
             with (w ++ [10%N] ++ Toc.join [10%N] (w' :: ws)) in IHj.
           by rewrite IHj.
      * constructor; [|done]. rewrite not_elem_of_cons. split; [congruence|done].
Qed.

Lemma toc_lstrip_spec u l :
  exists front,
    l = front ++ Toc.lstrip u l
    /\ Forall (fun c => Toc.space u c = true) front
    /\ forall c rest, Toc.lstrip u l = c :: rest -> Toc.space u c = false.
Proof.
  induction l as [|x l (front & Hl & Hf & Hh)]; cbn [Toc.lstrip].
  - exists []. by repeat split.
  - destruct (Toc.space u x) eqn:E.
    + exists (x :: front). repeat split; [by rewrite Hl at 1|by constructor|done].
    + exists []. repeat split; [done|]. by intros c rest [= <- _].
Qed.

Lemma toc_lstrip_keeps_end u l c :
  Toc.space u c = false -> exists front, Toc.lstrip u (l ++ [c]) = front ++ [c].
Proof.
  intros Hc. induction l as [|x l IH]; cbn [app Toc.lstrip].
  - rewrite Hc. by exists [].
  - destruct (Toc.space u x); [apply IH|]. by exists (x :: l).
Qed.

(** What [strip] does: it takes white space off both ends, and what is left
    neither starts nor ends with white space. *)
Lemma toc_strip_spec u l :
  exists front back,
    l = front ++ Toc.strip u l ++ back
    /\ Forall (fun c => Toc.space u c = true) front
    /\ Forall (fun c => Toc.space u c = true) back
    /\ (forall c rest, Toc.strip u l = c :: rest -> Toc.space u c = false)
    /\ (forall c rest, Toc.strip u l = rest ++ [c] -> Toc.space u c = false).
Proof.
  unfold Toc.strip.
  destruct (toc_lstrip_spec u l) as (front & Hl & Hf & Hh).
  destruct (toc_lstrip_spec u (rev (Toc.lstrip u l))) as (back & Hr & Hb & Hrh).
  exists front, (rev back). split; [|split; [done|split; [by apply Forall_rev|split]]].
  - rewrite Hl at 1. f_equal. rewrite <- rev_app_distr, <- Hr.
    by rewrite rev_involutive.
  - intros c rest Hs.
    destruct (Toc.lstrip u l) as [|k0 ks] eqn:Ek; [done|].
    assert (Hk0 : Toc.space u k0 = false) by by eapply Hh.
    cbn [rev] in Hs. destruct (toc_lstrip_keeps_end u (rev ks) k0 Hk0) as [tail Ht].
    rewrite Ht, rev_app_distr in Hs. cbn in Hs. by injection Hs as <- _.
  - intros c rest Hs.
    destruct (Toc.lstrip u (rev (Toc.lstrip u l))) as [|c0 l0] eqn:E.
    { by destruct rest. }
    cbn [rev] in Hs. apply app_inj_tail in Hs as [_ <-]. by eapply Hrh.
Qed.

Lemma toc_strip_Forall u (P : N -> Prop) l : Forall P l -> Forall P (Toc.strip u l).
Proof.
  intros H. destruct (toc_strip_spec u l) as (front & back & Hl & _).
  rewrite Hl in H. apply Forall_app in H as [_ H]. by apply Forall_app in H as [H _].
Qed.

Lemma toc_filter_lowered u (f : N -> N) (l : list N) :
  (forall c, Toc.anchor_char u (f c) = Toc.anchor_char u c) ->
  filter (fun c => Toc.anchor_char u c = true) (f <$> l)
  = f <$> filter (fun c => Toc.anchor_char u c = true) l.
Proof.
  intros Hkeep. induction l as [|c l IH]; [done|].
  cbn [fmap list_fmap]. rewrite !filter_cons, Hkeep.
  destruct (decide (Toc.anchor_char u c = true)); cbn [fmap list_fmap]; by rewrite IH.
Qed.

Lemma toc_filter_kept u (l : list N) :
  Forall (fun c => Toc.anchor_char u c = true) l ->
  filter (fun c => Toc.anchor_char u c = true) l = l.
Proof.
  induction 1 as [|c l Hc _ IH]; [done|].
  rewrite filter_cons. destruct (decide _); [by rewrite IH|done].
Qed.

Lemma toc_anchor_worded u header :
  lowers_by_character u ->
  Toc.anchor u header = worded_anchor u (trimmed u header).
Proof.
  intros (f & Hlower & Hkeep). unfold Toc.anchor, worded_anchor.
  fold (trimmed u header). rewrite Hlower. f_equal.
  rewrite toc_filter_lowered by done. f_equal. symmetry. apply toc_filter_kept.
  apply toc_strip_Forall, Forall_forall. intros c Hc.
  by apply list_elem_of_filter in Hc as [? _].
Qed.

(** *** Tables that agree on ASCII *)

Lemma lstrip_agree u l :
  ascii_tables_agree u -> is_ascii l -> Toc.lstrip u l = Toc.lstrip ascii_tables l.
Proof.
  intros [Hc _]. induction 1 as [|c l Hlt _ IH]; [done|].
  cbn [Toc.lstrip]. destruct (Hc c Hlt) as [_ ->]. by rewrite IH.
Qed.

Lemma is_ascii_lstrip u l : is_ascii l -> is_ascii (Toc.lstrip u l).
Proof.
  induction 1 as [|c l Hc Hl IH]; cbn; [constructor|].
  destruct (Toc.space u c); [done|]. by constructor.
Qed.

Lemma strip_agree u l :
  ascii_tables_agree u -> is_ascii l -> Toc.strip u l = Toc.strip ascii_tables l.
Proof.
  intros Hu Hl. unfold Toc.strip.
  rewrite (lstrip_agree u l Hu Hl).
  rewrite (lstrip_agree u (rev _) Hu); [done|].
  by apply Forall_rev, is_ascii_lstrip.
Qed.

Lemma filter_agree u l :
  ascii_tables_agree u -> is_ascii l ->
  filter (fun c => Toc.anchor_char u c = true) l
  = filter (fun c => Toc.anchor_char ascii_tables c = true) l.
Proof.
  intros [Hc _]. induction 1 as [|c l Hlt _ IH]; [done|].
  rewrite !filter_cons, IH.
  assert (Toc.anchor_char u c = Toc.anchor_char ascii_tables c) as Hk.
  { unfold Toc.anchor_char. by destruct (Hc c Hlt) as [-> ->]. }
  by destruct (decide _), (decide _); try congruence.
Qed.

Lemma is_ascii_filter (P : N -> Prop) `{!forall c, Decision (P c)} l :
  is_ascii l -> is_ascii (filter P l).
Proof.
  intros Hl. apply Forall_forall. intros c Hc.
  apply list_elem_of_filter in Hc as [_ Hc]. by apply (proj1 (Forall_forall _ _) Hl).
Qed.

Lemma anchor_agree u header :
  ascii_tables_agree u -> is_ascii header ->
  Toc.anchor u header = Toc.anchor ascii_tables header.
Proof.
  intros Hu Hh. unfold Toc.anchor.
  rewrite (filter_agree u header Hu Hh).
  rewrite (strip_agree u _ Hu) by by apply is_ascii_filter.
  destruct Hu as [_ Hl]. rewrite Hl; [done|].
  by apply toc_strip_Forall, is_ascii_filter.
Qed.

Lemma is_ascii_lines content :
  is_ascii content -> Forall is_ascii (Toc.split_on 10 content).
Proof.
  induction 1 as [|c content Hc _ IH]; cbn [Toc.split_on].
  - by repeat constructor.
  - destruct (c =? 10)%N; [by repeat constructor|].
    destruct (Toc.split_on 10 content) as [|w ws]; [by repeat constructor|].
    apply Forall_cons in IH as [Hw Hws]. constructor; [by constructor|done].
Qed.

Lemma is_ascii_headers content :
  is_ascii content -> Forall is_ascii (Toc.find_headers content).
Proof.
  intros Hc. apply Forall_forall. intros header Hh.
  apply list_elem_of_omap in Hh as (line & Hline & Hh).
  apply toc_header_of_line_spec in Hh as [-> _].
  pose proof (proj1 (Forall_forall _ _) (is_ascii_lines content Hc) _ Hline) as Hl.
  by apply Forall_app in Hl as [_ ?].
Qed.

Lemma is_ascii_check l : forallb (fun c => (c <? 128)%N) l = true -> is_ascii l.
Proof.
  intros H. apply Forall_forall. intros c Hc.
  apply N.ltb_lt. apply (proj1 (forallb_forall _ _) H). by apply list_elem_of_In.
Qed.

Lemma generate_toc_agree u content has_useful_links :
  ascii_tables_agree u -> is_ascii content ->
  Toc.generate_toc_from_markdown u content has_useful_links
  = Toc.generate_toc_from_markdown ascii_tables content has_useful_links.
Proof.
  intros Hu Hc. unfold Toc.generate_toc_from_markdown.
  assert (Hh : Forall is_ascii (Toc.toc_headers content has_useful_links)).
  { unfold Toc.toc_headers. apply Forall_app. split; [|by apply is_ascii_headers].
    destruct has_useful_links; [|constructor].
    apply Forall_singleton. apply is_ascii_check. vm_compute. reflexivity. }
  assert (He : Toc.toc_entry u <$> Toc.toc_headers content has_useful_links
               = Toc.toc_entry ascii_tables <$> Toc.toc_headers content has_useful_links).
  { apply Forall_fmap_ext_1. eapply Forall_impl; [exact Hh|].
    intros header Hhd. unfold Toc.toc_entry. by rewrite (anchor_agree u header Hu Hhd). }
  destruct (Toc.toc_headers content has_useful_links); [done|]. by rewrite He.
Qed.

Lemma ascii_tables_agree_refl : ascii_tables_agree ascii_tables.
Proof. by split. Qed.

Lemma ascii_tables_by_character : lowers_by_character ascii_tables.
Proof.
  exists (fun c => if ((65 <=? c) && (c <=? 90))%N then (c + 32)%N else c).
  split; [done|]. intros c. unfold Toc.anchor_char, ascii_tables.
  cbn [Toc.word Toc.space]. cbv beta.
  destruct ((65 <=? c) && (c <=? 90))%N eqn:E; [|by rewrite ?E].
  apply andb_true_iff in E as [H1 H2]. apply N.leb_le in H1, H2.
  assert (Hw : forall a b x : N, ((a <=? x) && (x <=? b))%N = true <-> (a <= x <= b)%N).
  { intros. rewrite andb_true_iff, !N.leb_le. done. }
  assert (Hf : forall a b x : N, ~ (a <= x <= b)%N -> ((a <=? x) && (x <=? b))%N = false).
  { intros a b x Hn. destruct ((a <=? x) && (x <=? b))%N eqn:E; [|done].
    by apply Hw in E. }
  rewrite (Hf 48 57 (c + 32))%N, (Hf 65 90 (c + 32))%N, (Hf 9 13 (c + 32))%N,
    (Hf 28 32 (c + 32))%N, (Hf 48 57 c)%N, (Hf 97 122 c)%N, (Hf 9 13 c)%N,
    (Hf 28 32 c)%N by lia.
  rewrite (proj2 (Hw 97 122 (c + 32))%N) by lia.
  destruct (N.eqb_spec (c + 32) 95), (N.eqb_spec c 95), (N.eqb_spec (c + 32) 45),
    (N.eqb_spec c 45); try lia; done.
Qed.

(** C9, amended: the table of contents has one entry per line of the form
    [## heading] with a heading that is not empty, in order, after a
    [Useful Links] entry when links are declared, the lines being what
    stands between the line feeds.  The anchor of an entry is got by
    dropping from the heading every character that is no word character,
    white space or hyphen, trimming the white space left at both ends,
    lowercasing, and putting hyphens for spaces; where lowercasing goes
    character by character, this is the stated derivation applied to the
    trimmed heading, and to the heading itself when nothing is trimmed.
    This holds of every heading, whatever the characters, with the
    character tables of the interpreter.  With tables that are the ASCII
    ones on ASCII, the body [## Setup\n...\n## Next Steps\n...] with no
    links yields the two entries with anchors [#setup] and [#next-steps]. *)
Theorem toc_entries_and_anchors :
  forall u : Toc.tables,
  (forall markdown_content has_useful_links,
     Toc.generate_toc_from_markdown u markdown_content has_useful_links
     = match Toc.toc_headers markdown_content has_useful_links with
       | [] => []
       | headers =>
           Toc.join [10%N]
             ((Toc.points "## Table of Contents" ++ [10%N])
              :: ((fun h => Toc.points "- [" ++ h ++ Toc.points "](#"
                            ++ Toc.anchor u h ++ Toc.points ")") <$> headers))
           ++ [10%N]
       end)
  /\ (forall markdown_content has_useful_links,
        Toc.toc_headers markdown_content has_useful_links
        = (if has_useful_links then [Toc.points "Useful Links"] else [])
          ++ omap Toc.header_of_line (Toc.split_on 10 markdown_content))
  /\ (forall markdown_content,
        Toc.join [10%N] (Toc.split_on 10 markdown_content) = markdown_content
        /\ Forall (fun line => 10%N ∉ line) (Toc.split_on 10 markdown_content))
  /\ (forall line heading,
        Toc.header_of_line line = Some heading
        <-> line = Toc.points "## " ++ heading /\ heading <> [])
  /\ (forall header,
        Toc.anchor u header = Toc.hyphenate <$> Toc.lower u (trimmed u header))
  /\ (forall header,
        exists front back,
          filter (fun c => Toc.anchor_char u c = true) header
          = front ++ trimmed u header ++ back
          /\ Forall (fun c => Toc.space u c = true) front
          /\ Forall (fun c => Toc.space u c = true) back
          /\ (forall c rest, trimmed u header = c :: rest -> Toc.space u c = false)
          /\ (forall c rest, trimmed u header = rest ++ [c] -> Toc.space u c = false))
  /\ (forall c, Toc.hyphenate c = if (c =? 32)%N then 45%N else c)
  /\ (lowers_by_character u ->
      forall header,
        Toc.anchor u header = worded_anchor u (trimmed u header)
        /\ (trimmed u header = filter (fun c => Toc.anchor_char u c = true) header ->
            Toc.anchor u header = worded_anchor u header))
  /\ (ascii_tables_agree u ->
      Toc.anchor u (Toc.points "Useful Links") = Toc.points "useful-links"
      /\ Toc.anchor u (Toc.points "Setup :)") = Toc.points "setup"
      /\ Toc.generate_toc_from_markdown u (Toc.points c9_body) false
         = Toc.points ("## Table of Contents" +:+ nl +:+ nl
                       +:+ "- [Setup](#setup)" +:+ nl
                       +:+ "- [Next Steps](#next-steps)" +:+ nl)).
Proof.
  intros u.
  split; [|split; [|split; [|split; [|split; [|split; [|split; [|split]]]]]]].
  - intros. reflexivity.
  - intros. reflexivity.
  - intros content. destruct (toc_split_join content) as (? & _ & ?). done.
  - apply toc_header_of_line_spec.
  - intros. reflexivity.
  - intros header. apply toc_strip_spec.
  - intros. reflexivity.
  - intros Hu header. split; [by apply toc_anchor_worded|].
    intros Ht. destruct Hu as (f & Hlower & Hkeep).
    unfold Toc.anchor, worded_anchor. fold (trimmed u header).
    rewrite !Hlower, Ht. f_equal. by rewrite toc_filter_lowered.
  - intros Hu.
    assert (Ha : forall s, is_ascii (Toc.points s) ->
                 Toc.anchor u (Toc.points s) = Toc.anchor ascii_tables (Toc.points s)).
    { intros s Hs. by apply anchor_agree. }
    split; [|split].
    + rewrite Ha by (apply is_ascii_check; vm_compute; reflexivity).
      vm_compute. reflexivity.
    + rewrite Ha by (apply is_ascii_check; vm_compute; reflexivity).
      vm_compute. reflexivity.
    + transitivity (Toc.generate_toc_from_markdown ascii_tables (Toc.points c9_body) false).
      * apply generate_toc_agree; [done|]. apply is_ascii_check. vm_compute. reflexivity.
      * vm_compute. reflexivity.
Qed.

(** *** The table of contents of an ASCII text

    On byte strings that hold ASCII only, [generate_toc_from_markdown] is
    the function on code points with the ASCII tables. *)

Lemma embed_app l l' : embed (l ++ l') = embed l ++ embed l'.
Proof. apply fmap_app. Qed.

Lemma embed_rev l : embed (rev l) = rev (embed l).
Proof.
  induction l as [|c l IH]; [done|]. cbn [rev]. rewrite embed_app, IH. done.
Qed.

Lemma codepoints_ascii l :
  Forall (fun a => (N_of_ascii a < 128)%N) l -> codepoints l = embed l.
Proof.
  unfold codepoints. induction 1 as [|a l Ha _ IH]; [done|].
  cbn [characters]. apply N.ltb_lt in Ha. rewrite Ha. cbn [fmap list_fmap snd].
  change (embed (a :: l)) with (N_of_ascii a :: embed l). f_equal. apply IH.
Qed.

Lemma is_char_point n a : is_char n a = (N_of_ascii a =? N.of_nat n)%N.
Proof.
  unfold is_char, code, nat_of_ascii.
  destruct (Nat.eqb_spec (N.to_nat (N_of_ascii a)) n) as [<-|Hn].
  - by rewrite N2Nat.id, N.eqb_refl.
  - symmetry. apply N.eqb_neq. intros E. apply Hn. by rewrite E, Nat2N.id.
Qed.

Lemma newline_point a : Ascii.eqb a (ascii_of_nat 10) = (N_of_ascii a =? 10)%N.
Proof. destruct a as [[] [] [] [] [] [] [] []]; reflexivity. Qed.

Lemma split_on_embed l :
  Toc.split_on 10 (embed l) = embed <$> split_on (ascii_of_nat 10) l.
Proof.
  induction l as [|c l IH]; [done|].
  cbn [embed fmap list_fmap Toc.split_on split_on]. fold (embed l).
  rewrite newline_point, IH. destruct (N_of_ascii c =? 10)%N; [done|].
  by destruct (split_on (ascii_of_nat 10) l).
Qed.

Lemma header_of_line_embed line :
  Toc.header_of_line (embed line) = embed <$> header_of_line line.
Proof.
  unfold Toc.header_of_line, header_of_line.
  destruct line as [|h1 [|h2 [|sp [|c rest]]]]; try done.
  cbn [embed fmap list_fmap]. rewrite !is_char_point.
  by destruct (_ && _ && _).
Qed.

Lemma find_headers_embed content :
  Toc.find_headers (embed (chars content))
  = (fun header => embed (chars header)) <$> find_headers content.
Proof.
  unfold Toc.find_headers, find_headers. rewrite split_on_embed.
  induction (split_on (ascii_of_nat 10) (chars content)) as [|line lines IH]; [done|].
  cbn [fmap list_fmap omap list_omap]. rewrite header_of_line_embed.
  destruct (header_of_line line) as [heading|]; cbn [fmap option_fmap option_map].
  - cbn [fmap list_fmap]. rewrite chars_text. f_equal. apply IH.
  - apply IH.
Qed.

Lemma anchor_char_embed a :
  Toc.anchor_char ascii_tables (N_of_ascii a) = anchor_char a.
Proof. destruct a as [[] [] [] [] [] [] [] []]; reflexivity. Qed.

Lemma space_embed a : Toc.space ascii_tables (N_of_ascii a) = is_space a.
Proof. destruct a as [[] [] [] [] [] [] [] []]; reflexivity. Qed.

Lemma lowered_embed a :
  (if ((65 <=? N_of_ascii a) && (N_of_ascii a <=? 90))%N
   then (N_of_ascii a + 32)%N else N_of_ascii a)
  = N_of_ascii (to_lower a).
Proof. destruct a as [[] [] [] [] [] [] [] []]; reflexivity. Qed.

Lemma hyphenate_embed a : Toc.hyphenate (N_of_ascii a) = N_of_ascii (hyphenate a).
Proof. destruct a as [[] [] [] [] [] [] [] []]; reflexivity. Qed.

Lemma filter_embed l :
  filter (fun c => Toc.anchor_char ascii_tables c = true) (embed l)
  = embed (filter (fun c => anchor_char c = true) l).
Proof.
  induction l as [|a l IH]; [done|].
  cbn [embed fmap list_fmap]. fold (embed l). rewrite !filter_cons, anchor_char_embed, IH.
  by destruct (decide (anchor_char a = true)).
Qed.

Lemma lstrip_embed l : Toc.lstrip ascii_tables (embed l) = embed (lstrip l).
Proof.
  induction l as [|a l IH]; [done|].
  cbn [embed fmap list_fmap Toc.lstrip lstrip]. fold (embed l).
  rewrite space_embed, IH. by destruct (is_space a).
Qed.

Lemma strip_embed l : Toc.strip ascii_tables (embed l) = embed (strip l).
Proof.
  unfold Toc.strip, strip.
  by rewrite lstrip_embed, <- embed_rev, lstrip_embed, <- embed_rev.
Qed.

Lemma lower_embed l : Toc.lower ascii_tables (embed l) = embed (lower l).
Proof.
  unfold lower. cbn [Toc.lower ascii_tables].
  induction l as [|a l IH]; [done|].
  cbn [embed fmap list_fmap map]. fold (embed l). fold (embed (map to_lower l)).
  by rewrite lowered_embed, IH.
Qed.

Lemma hyphenated_embed l : Toc.hyphenate <$> embed l = embed (hyphenate <$> l).
Proof.
  induction l as [|a l IH]; [done|].
  cbn [embed fmap list_fmap]. fold (embed l). fold (embed (hyphenate <$> l)).
  by rewrite hyphenate_embed, IH.
Qed.

Lemma anchor_embed header :
  Toc.anchor ascii_tables (embed (chars header)) = embed (chars (anchor header)).
Proof.
  unfold Toc.anchor, anchor.
  by rewrite chars_text, filter_embed, strip_embed, lower_embed, hyphenated_embed.
Qed.

Lemma chars_append s s' : chars (s +:+ s') = chars s ++ chars s'.
Proof.
  unfold chars. induction s as [|a s IH]; [done|].
  change (String a s +:+ s') with (String a (s +:+ s')).
  cbn [String.list_ascii_of_string app]. by rewrite IH.
Qed.

Lemma toc_entry_embed header :
  Toc.toc_entry ascii_tables (embed (chars header)) = embed (chars (toc_entry header)).
Proof.
  unfold Toc.toc_entry, toc_entry.
  rewrite !chars_append, !embed_app, anchor_embed. reflexivity.
Qed.

Lemma join_embed (lines : list string) :
  Toc.join [10%N] ((fun line => embed (chars line)) <$> lines)
  = embed (chars (join nl lines)).
Proof.
  induction lines as [|line lines IH]; [done|].
  destruct lines as [|line' lines]; [done|].
  change (join nl (line :: line' :: lines)) with (line +:+ nl +:+ join nl (line' :: lines)).
  rewrite !chars_append, !embed_app, <- IH. reflexivity.
Qed.

Lemma generate_toc_embed markdown_content has_useful_links :
  Toc.generate_toc_from_markdown ascii_tables (embed (chars markdown_content))
    has_useful_links
  = embed (chars (generate_toc_from_markdown markdown_content has_useful_links)).
Proof.
  unfold Toc.generate_toc_from_markdown, generate_toc_from_markdown.
  assert (Hh : Toc.toc_headers (embed (chars markdown_content)) has_useful_links
               = (fun header => embed (chars header))
                   <$> toc_headers markdown_content has_useful_links).
  { unfold Toc.toc_headers, toc_headers. rewrite fmap_app, find_headers_embed.
    by destruct has_useful_links. }
  rewrite Hh. destruct (toc_headers markdown_content has_useful_links) as [|h hs]; [done|].
  set (headers := h :: hs).
  change ((fun header => embed (chars header)) <$> headers)
    with (embed (chars h) :: ((fun header => embed (chars header)) <$> hs)).
  cbv iota.
  change (embed (chars h) :: ((fun header => embed (chars header)) <$> hs))
    with ((fun header => embed (chars header)) <$> headers).
  rewrite chars_append, embed_app. f_equal.
  rewrite <- join_embed. cbn [fmap list_fmap]. f_equal. f_equal.
  rewrite <- !list_fmap_compose. apply list_fmap_ext. intros i header _.
  apply toc_entry_embed.
Qed.

(** On ASCII text the two functions are one: the table of contents of the
    bytes is the table of contents of the code points, whatever the tables,
    if they are the ASCII ones on ASCII. *)
Lemma generate_toc_ascii u markdown_content has_useful_links :
  ascii_tables_agree u ->
  Forall (fun a => (N_of_ascii a < 128)%N) (chars markdown_content) ->
  Toc.generate_toc_from_markdown u (Toc.points markdown_content) has_useful_links
  = embed (chars (generate_toc_from_markdown markdown_content has_useful_links)).
Proof.
  intros Hu Hc. unfold Toc.points. rewrite (codepoints_ascii _ Hc).
  rewrite generate_toc_agree; [apply generate_toc_embed|done|].
  apply Forall_fmap. eapply Forall_impl; [exact Hc|]. done.
Qed.

Lemma anchor_ascii u header :
  ascii_tables_agree u ->
  Forall (fun a => (N_of_ascii a < 128)%N) (chars header) ->
  Toc.anchor u (Toc.points header) = embed (chars (anchor header)).
Proof.
  intros Hu Hc. unfold Toc.points. rewrite (codepoints_ascii _ Hc).
  rewrite anchor_agree; [apply anchor_embed|done|].
  apply Forall_fmap. eapply Forall_impl; [exact Hc|]. done.
Qed.

(** ** Order of the items of a section *)

Section good_cmp.
Context {A} (cmp : A -> A -> comparison) `{!GoodCmp cmp}.

Lemma cmp_refl a : cmp a a = Eq.
Proof. by apply cmp_eq. Qed.

Lemma cmp_gt_lt a b : cmp a b = Gt -> cmp b a = Lt.
Proof. intros H. by rewrite cmp_opp, H. Qed.

Lemma cmp_lt_gt a b : cmp a b = Lt -> cmp b a = Gt.
Proof. intros H. by rewrite cmp_opp, H. Qed.

Lemma not_gt_total a b : not_gt (cmp a b) = true \/ not_gt (cmp b a) = true.
Proof.
  destruct (cmp a b) eqn:E; [by left|by left|].
  right. by rewrite (cmp_gt_lt _ _ E).
Qed.

End good_cmp.

#[local] Instance lex_good {A B} (c1 : A -> A -> comparison) (c2 : B -> B -> comparison)
  `{!GoodCmp c1, !GoodCmp c2} : GoodCmp (lex_cmp c1 c2).
Proof.
  split.
  - intros [a1 b1] [a2 b2]. unfold lex_cmp. cbn.
    destruct (c1 a1 a2) eqn:E.
    + apply cmp_eq in E. subst.
      split; [intros H%cmp_eq; by subst|intros [= ->]; by apply cmp_eq].
    + split; [done|]. intros [= -> ->]. by rewrite (cmp_refl c1) in E.
    + split; [done|]. intros [= -> ->]. by rewrite (cmp_refl c1) in E.
  - intros [a1 b1] [a2 b2]. unfold lex_cmp. cbn.
    rewrite (cmp_opp (cmp:=c1) a1 a2). destruct (c1 a1 a2); cbn; [|done..].
    apply cmp_opp.
  - intros [a1 b1] [a2 b2] [a3 b3]. unfold lex_cmp. cbn.
    destruct (c1 a1 a2) eqn:E1; [| |done]; destruct (c1 a2 a3) eqn:E2; try done.
    + apply cmp_eq in E1, E2. subst. rewrite (cmp_refl c1). apply cmp_lt_trans.
    + apply cmp_eq in E1. subst. by rewrite E2.
    + apply cmp_eq in E2. subst. by rewrite E1.
    + by rewrite (cmp_lt_trans _ _ _ E1 E2).
Qed.

#[local] Instance nat_good : GoodCmp Nat.compare.
Proof.
  split.
  - apply Nat.compare_eq_iff.
  - intros a b. apply Nat.compare_antisym.
  - intros a b c. rewrite !Nat.compare_lt_iff. lia.
Qed.

#[local] Instance Z_good : GoodCmp Z.compare.
Proof.
  split.
  - apply Z.compare_eq_iff.
  - intros a b. apply Z.compare_antisym.
  - intros a b c. rewrite !Z.compare_lt_iff. lia.
Qed.

Lemma string_compare_refl s : String.compare s s = Eq.
Proof.
  induction s as [|c s IH]; cbn; [done|].
  unfold Ascii.compare. by rewrite N.compare_refl.
Qed.

#[local] Instance string_good : GoodCmp String.compare.
Proof.
  split.
  - intros a b. split; [apply String.compare_eq_iff|].
    intros ->. apply string_compare_refl.
  - intros a b. apply String.compare_antisym.
  - intros a b c H1 H2.
    assert (L1 : String.le a b) by (unfold String.le, String.leb; by rewrite H1).
    assert (L2 : String.le b c) by (unfold String.le, String.leb; by rewrite H2).
    assert (L3 : String.le a c) by (by etrans).
    unfold String.le, String.leb in L3.
    destruct (String.compare a c) eqn:E; [|done|done].
    apply String.compare_eq_iff in E. subst c.
    rewrite String.compare_antisym, H1 in H2. done.
Qed.

#[local] Instance order_good : GoodCmp order_compare.
Proof.
  split.
  - intros [x|s] [y|t]; cbn; rewrite ?cmp_eq; naive_solver.
  - intros [x|s] [y|t]; cbn; try done; apply cmp_opp.
  - intros [x|s] [y|t] [z|u]; cbn; try done; apply cmp_lt_trans.
Qed.

Lemma key_leb_compare a b : key_leb a b = not_gt (key_compare a b).
Proof.
  unfold key_leb, key_compare, lex_cmp. cbn.
  destruct (a.1.1 ?= b.1.1)%nat; [|done..].
  destruct (order_compare a.1.2 b.1.2); done.
Qed.

Lemma key_leb_total a b : key_leb a b = true \/ key_leb b a = true.
Proof. rewrite !key_leb_compare. apply not_gt_total, _. Qed.



Section sorted.
Context {A K : Type} (leb : K -> K -> bool) (key : A -> K).
Hypothesis leb_total : forall a b, leb a b = true \/ leb b a = true.
Hypothesis leb_trans : forall a b c, leb a b = true -> leb b c = true -> leb a c = true.

Lemma insert_by_perm x l : insert_by leb key x l ≡ₚ x :: l.
Proof.
  induction l as [|y l IH]; cbn; [done|].
  destruct (leb (key x) (key y)); [done|].
  rewrite IH. apply perm_swap.
Qed.

Lemma sorted_perm l : sorted leb key l ≡ₚ l.
Proof.
  induction l as [|x l IH]; cbn; [done|].
  by rewrite insert_by_perm, IH.
Qed.



Lemma sorted_reverse_perm l : sorted_reverse leb key l ≡ₚ l.
Proof.
  unfold sorted_reverse. by rewrite <- Permutation_rev, sorted_perm, <- Permutation_rev.
Qed.
End sorted.




Lemma keyed_items section_items keyed :
  map_result (fun it => order_of (item_order it) ≫= fun o => Ok (o, it)) section_items
  = Ok keyed ->
  keyed = (fun it => (item_key it, it)) <$> section_items.
Proof.
  revert keyed. induction section_items as [|it items IH]; intros keyed H; cbn in *.
  - by simplify_eq.
  - unfold item_key. destruct (order_of (item_order it)); [|done]. cbn in H.
    destruct (map_result _ items) as [ks|]; [|done]. cbn in H. simplify_eq.
    by rewrite (IH ks eq_refl).
Qed.



(** ** Outcomes *)

Lemma bind_return {A B} (m : M A) (f : A -> M B) t b t' :
  (m ≫= f) t = Return b t' ->
  exists a t1, m t = Return a t1 /\ f a t1 = Return b t'.
Proof.
  unfold mbind, M_bind. destruct (m t) as [a t1| |]; [|done..]. eauto.
Qed.

Lemma bind_run {A B} (m : M A) (f : A -> M B) t a t1 :
  m t = Return a t1 -> (m ≫= f) t = f a t1.
Proof. unfold mbind, M_bind. by intros ->. Qed.

Lemma lift_return {A} (r : result A) t a t' :
  lift r t = Return a t' -> r = Ok a /\ t' = t.
Proof. destruct r; cbn; [|done]. by intros [= -> ->]. Qed.

Lemma lift_ok {A} (a : A) t : lift (Ok a) t = Return a t.
Proof. done. Qed.

Lemma observe_return {A B} (f : trace -> A) (k : A -> M B) t :
  (observe f ≫= k) t = k (f t) t.
Proof. done. Qed.

Lemma emit_return {B} e (k : unit -> M B) t : (emit e ≫= k) t = k tt (t ++ [e]).
Proof. done. Qed.

(** ** The skip of a notebook without metadata *)

Lemma apply_overrides_dict w file_path meta config merged :
  apply_metadata_overrides w file_path meta config = Ok merged ->
  exists m, merged = JDict m.
Proof.
  intros H. unfold apply_metadata_overrides in H.
  destruct (dict_copy meta) as [m0|] eqn:Hc; [|done].
  destruct (dict_copy_dict _ _ Hc) as [m ->]. cbn [mbind result_bind] in H.
  apply (apply_rules_ok _ _ _ (iter_overrides_values config)) in H. eauto.
Qed.

Lemma notebook_metadata_dict notebook metadata :
  get_notebook_metadata notebook = Ok metadata -> exists nb, notebook = JDict nb.
Proof. destruct notebook; try done. eauto. Qed.

(** C6, as stated, fails: a notebook with no embedded workshop block is
    still processed when an override rule of the configuration matches it
    and gives it metadata.  Here [*.ipynb] supplies a title, and the
    notebook is published. *)
Lemma notebook_without_block_is_processed :
  get_notebook_metadata c6_notebook = Ok (JDict ∅)
  /\ (exists info t,
        process_notebook c6_world intro_path (Path "docs") c6_config [] = Return (Some info) t
        /\ s_title info = JStr "Intro"
        /\ length t = 4).
Proof.
  split; [vm_compute; reflexivity|].
  eexists _, _. split; [vm_compute; reflexivity|]. split; reflexivity.
Qed.

(** C6, amended: a notebook whose workshop metadata is empty once the
    matching override rules are merged in is skipped: [process_notebook]
    returns no record, does nothing to the file system, raises nothing and
    does not exit, and the loop over the notebooks of the section collects
    nothing for it. *)
Theorem notebook_without_metadata_is_skipped (w : world) (notebook_path output_dir : path)
    (config : config) (t : trace) (notebook metadata merged : json) :
  load_notebook w t notebook_path = Ok notebook ->
  get_notebook_metadata notebook = Ok metadata ->
  apply_metadata_overrides w notebook_path metadata config = Ok merged ->
  truthy merged = false ->
  process_notebook w notebook_path output_dir config t = Return None t
  /\ forall title folder section_slides,
       process_files (fun p => process_notebook w p output_dir config)
         title folder section_slides [notebook_path] t
       = Return [] t.
Proof.
  intros Hload Hmeta Happly Hfalsy.
  assert (Hskip : process_notebook w notebook_path output_dir config t = Return None t).
  { unfold process_notebook. rewrite observe_return, Hload.
    rewrite (bind_run _ _ _ _ _ (lift_ok notebook t)).
    rewrite Hmeta, (bind_run _ _ _ _ _ (lift_ok metadata t)).
    rewrite Happly, (bind_run _ _ _ _ _ (lift_ok merged t)).
    destruct (notebook_metadata_dict _ _ Hmeta) as [nb ->].
    destruct (apply_overrides_dict _ _ _ _ _ Happly) as [md ->].
    by rewrite Hfalsy. }
  split; [exact Hskip|]. intros title folder section_slides.
  cbn [process_files]. by rewrite (bind_run _ _ _ _ _ Hskip).
Qed.

Lemma notebook_without_metadata_is_skipped_witness :
  process_notebook (fixed_world [] [("section1/intro.ipynb", c6_notebook)] [])
    intro_path (Path "docs") base_config [] = Return None []
  /\ forall title folder section_slides,
       process_files
         (fun p => process_notebook
                     (fixed_world [] [("section1/intro.ipynb", c6_notebook)] [])
                     p (Path "docs") base_config)
         title folder section_slides [intro_path] []
       = Return [] [].
Proof.
  apply (notebook_without_metadata_is_skipped _ _ _ _ _ c6_notebook (JDict ∅) (JDict ∅));
    vm_compute; reflexivity.
Defined.

(** ** The exercise variant *)

Lemma map_result_lookup {A B} (f : A -> result B) l l' :
  map_result f l = Ok l' ->
  length l' = length l
  /\ forall i x, l !! i = Some x -> exists y, f x = Ok y /\ l' !! i = Some y.
Proof.
  revert l'. induction l as [|x l IH]; intros l' H; cbn in H.
  - simplify_eq. split; [done|]. intros i x Hi. by rewrite lookup_nil in Hi.
  - destruct (f x) as [y|] eqn:Hy; [|done]. cbn [mbind result_bind] in H.
    destruct (map_result f l) as [ys|]; [|done]. cbn in H. simplify_eq.
    destruct (IH ys eq_refl) as [Hlen Hi]. split; [cbn; by rewrite Hlen|].
    intros [|i] z Hz; cbn in *; [simplify_eq; eauto|]. by apply Hi.
Qed.

Lemma cleared_code_cell source : cleared (code_cell source).
Proof. intros c [= <-] _. split; vm_compute; reflexivity. Qed.

Lemma cleared_markdown_cell source : cleared (markdown_cell source).
Proof. intros c [= <-] H. vm_compute in H. discriminate H. Qed.

Lemma is_str_eq s j : is_str s j = true <-> j = JStr s.
Proof.
  destruct j; cbn; try (split; [done|intros [=]]).
  rewrite String.eqb_eq. split; [by intros ->|by intros [= ->]].
Qed.

Lemma cell_tags_cleared (c : gmap string json) :
  cell_tags (<["execution_count" := JNull]> (<["outputs" := JList []]> c)) = cell_tags c.
Proof. unfold cell_tags. by rewrite !lookup_insert_ne. Qed.

Lemma exercise_cell_spec cell cell' :
  exercise_cell cell = Ok cell' ->
  cleared cell' /\ (solution_tagged cell = true -> cell' = empty_code_cell).
Proof.
  unfold exercise_cell, solution_tagged. destruct cell as [| | | | |c]; try done.
  destruct (c !! "cell_type") as [ty|] eqn:Hty; [|done].
  set (c' := if is_str "code" ty then _ else c).
  assert (Htags : cell_tags c' = cell_tags c).
  { unfold c'. destruct (is_str "code" ty); [apply cell_tags_cleared|done]. }
  assert (Hc' : cleared (JDict c')).
  { intros ? [= <-] Hcode. unfold c' in *. destruct (is_str "code" ty) eqn:E.
    - split; [by rewrite lookup_insert_ne, lookup_insert_eq|by rewrite lookup_insert_eq].
    - rewrite Hty in Hcode. by simplify_eq. }
  rewrite Htags. destruct (cell_tags c) as [tags|]; [|done]. cbn [mbind result_bind].
  destruct (truthy tags); [|intros [= <-]; by split].
  destruct (has_solution tags) as [[]|]; cbn; [| |done]; intros [= <-].
  - split; [apply cleared_code_cell|done].
  - by split.
Qed.

Lemma install_cells_code install cells :
  install_cells install = Ok cells -> Forall (fun c => exists src, c = code_cell src) cells.
Proof.
  unfold install_cells. destruct (truthy install); [|intros [= <-]; constructor].
  destruct (map_result install_line _) as [lines|]; [|done]. cbn.
  destruct (match install with JStr s => _ | JList l => l | _ => [] end);
    intros [= <-]; repeat constructor. eauto.
Qed.

Lemma setup_cells_code w zip_name config install folder codespaces cells :
  create_setup_cells w zip_name config install folder codespaces = Ok cells ->
  Forall (fun c => exists src, c = code_cell src) cells.
Proof.
  unfold create_setup_cells. destruct codespaces; [intros [= <-]; constructor|].
  destruct (github_repo config); [|done].
  destruct (install_cells install) as [ic|] eqn:Hi; [|done]. cbn. intros [= <-].
  apply Forall_app. split; [by eapply install_cells_code|].
  destruct zip_name as [zip|]; [|constructor].
  destruct (String.eqb zip ""); repeat constructor. unfold download_cell. eauto.
Qed.

(** What a run of [process_notebook] that returns a record has written. *)
Lemma process_notebook_writes w notebook_path output_dir config t info t' :
  process_notebook w notebook_path output_dir config t = Return (Some info) t' ->
  exists nb metadata md cells exercise_cells front pre exercise complete,
    load_notebook w t notebook_path = Ok (JDict nb)
    /\ get_notebook_metadata (JDict nb) = Ok metadata
    /\ apply_metadata_overrides w notebook_path metadata config = Ok (JDict md)
    /\ cells_of nb = Ok cells
    /\ map_result exercise_cell cells = Ok exercise_cells
    /\ Forall cleared front
    /\ (truthy (get "data_files" md) = false -> truthy (get "install" md) = false
        -> truthy (get "slides" md) = false -> front = [])
    /\ cells_of exercise = Ok (front ++ exercise_cells)
    /\ cells_of complete = Ok (front ++ cells)
    /\ t' = pre ++ [WriteNotebook (exercise_path notebook_path output_dir) (JDict exercise);
                    WriteNotebook (answers_path notebook_path output_dir) (JDict complete)].
Proof.
  unfold process_notebook. rewrite observe_return. intros H.
  apply bind_return in H as (notebook & t1 & [Hload ->]%lift_return & H).
  apply bind_return in H as (metadata & t1 & [Hmeta ->]%lift_return & H).
  apply bind_return in H as (merged & t1 & [Hmerged ->]%lift_return & H).
  destruct notebook as [| | | | |nb]; try done. destruct merged as [| | | | |md]; try done.
  destruct (negb (truthy (JDict md))); [done|].
  apply bind_return in H as (nb_metadata & t1 & [_ ->]%lift_return & H).
  apply bind_return in H as (cells & t1 & [Hcells ->]%lift_return & H).
  apply bind_return in H as (exercise_cells & t1 & [Hex ->]%lift_return & H).
  apply bind_return in H as (setup_cells & t1 & Hsetup & H).
  rewrite !emit_return in H.
  apply bind_return in H as ([] & t2 & _ & H).
  apply bind_return in H as (slide_cells & t3 & Hslide & H).
  apply bind_return in H as ([] & t4 & _ & H).
  rewrite !emit_return in H. unfold mret, M_ret in H. injection H as <- <-.
  assert (Hs : Forall cleared setup_cells
               /\ (truthy (get "data_files" md) = false
                   -> truthy (get "install" md) = false -> setup_cells = [])).
  { destruct (truthy (get "data_files" md) || truthy (get "install" md)) eqn:E.
    - apply lift_return in Hsetup as [Hsetup _]. split.
      + eapply Forall_impl; [by eapply setup_cells_code|].
        intros c [src ->]. apply cleared_code_cell.
      + intros H1 H2. by rewrite H1, H2 in E.
    - unfold mret, M_ret in Hsetup. by simplify_eq. }
  assert (Hl : Forall cleared slide_cells
               /\ (truthy (get "slides" md) = false -> slide_cells = [])).
  { destruct (truthy (get "slides" md)) eqn:E.
    - destruct (get "slides" md); try done.
      apply bind_return in Hslide as ([] & t5 & _ & Hslide).
      unfold mret, M_ret in Hslide. simplify_eq. split; [|done].
      apply Forall_singleton. unfold slide_link_cell. apply cleared_markdown_cell.
    - unfold mret, M_ret in Hslide. by simplify_eq. }
  destruct Hs as [Hs1 Hs2], Hl as [Hl1 Hl2].
  eexists nb, metadata, md, cells, exercise_cells, (setup_cells ++ slide_cells), t4, _, _.
  do 5 (split; [done|]).
  split; [by apply Forall_app|]. split.
  { intros H1 H2 H3. by rewrite Hs2, Hl2. }
  split; [|split]; [| |rewrite <- (assoc_L (++)); reflexivity].
  - unfold cells_of. by rewrite lookup_insert_eq, <- (assoc_L (++)).
  - unfold cells_of. by rewrite lookup_insert_eq, <- (assoc_L (++)).
Qed.

Lemma exercise_cell_keeps cell cell' :
  exercise_cell cell = Ok cell' -> solution_tagged cell = false ->
  exists c c', cell = JDict c /\ cell' = JDict c'
    /\ forall key, key <> "outputs" -> key <> "execution_count" -> c' !! key = c !! key.
Proof.
  unfold exercise_cell, solution_tagged. destruct cell as [| | | | |c]; try done.
  destruct (c !! "cell_type") as [ty|] eqn:Hty; [|done].
  set (c' := if is_str "code" ty then _ else c).
  assert (Htags : cell_tags c' = cell_tags c).
  { unfold c'. destruct (is_str "code" ty); [apply cell_tags_cleared|done]. }
  assert (Hkeep : forall key, key <> "outputs" -> key <> "execution_count" ->
                    c' !! key = c !! key).
  { intros key H1 H2. unfold c'. destruct (is_str "code" ty); [|done].
    by rewrite !lookup_insert_ne. }
  rewrite Htags. destruct (cell_tags c) as [tags|]; [|done]. cbn [mbind result_bind].
  destruct (truthy tags); [|intros [= <-] _; eauto 6].
  destruct (has_solution tags) as [[]|]; cbn; [done| |done].
  intros [= <-] _. eauto 6.
Qed.

Lemma lookup_app_plus {A} (l1 l2 : list A) i : (l1 ++ l2) !! (length l1 + i) = l2 !! i.
Proof. rewrite lookup_app_r by lia. f_equal. lia. Qed.

(** C2, as stated, fails on the positions: the cells that
    [create_setup_cells] and the slide link put in front of both variants
    shift every cell of the notebook.  The notebook here asks for
    [install: pandas] and has one cell, tagged [solution], at position 0;
    position 0 of the exercise variant holds the install cell, which is not
    empty, and position 0 of the complete variant is not the notebook's
    cell. *)
Lemma setup_cells_shift_positions :
  cells_of (match c2_notebook with JDict nb => nb | _ => ∅ end) = Ok [c2_solution_cell]
  /\ solution_tagged c2_solution_cell = true
  /\ (exists info exercise complete,
        process_notebook c2_world intro_path (Path "docs") base_config []
        = Return (Some info)
            [Mkdir (Path "docs"); Mkdir (Path "docs/section1");
             WriteNotebook (Path "docs/section1/intro.ipynb") (JDict exercise);
             WriteNotebook (Path "docs/section1/intro-ANSWERS.ipynb") (JDict complete)]
        /\ cells_of exercise = Ok [c2_install_cell; empty_code_cell]
        /\ cells_of complete = Ok [c2_install_cell; c2_solution_cell])
  /\ c2_install_cell <> empty_code_cell
  /\ c2_install_cell <> c2_solution_cell.
Proof.
  split; [by vm_compute|]. split; [by vm_compute|]. split.
  - eexists _, _, _. split; [vm_compute; reflexivity|]. split; vm_compute; reflexivity.
  - split; intros H;
      apply (f_equal (fun c => match c with
                               | JDict m => match m !! "source" with
                                            | Some (JList l) => length l
                                            | _ => 0
                                            end
                               | _ => 0
                               end)) in H; vm_compute in H; discriminate H.
Qed.

(** C2, amended: a run of [process_notebook] that returns a record ends by
    writing the exercise variant and then the complete variant; both start
    with the same [k] added cells, after which cell [i] of the notebook is
    at position [k + i]: unchanged in the complete variant, and in the
    exercise variant an empty code cell when it is tagged [solution],
    otherwise the same cell up to its outputs and execution count.  Every
    code cell of the exercise variant is cleared.  [k] is 0 when the merged
    metadata asks for no data files, no packages and no slides. *)
Theorem exercise_variant_blanks_solutions w notebook_path output_dir config t info t' :
  process_notebook w notebook_path output_dir config t = Return (Some info) t' ->
  exists nb metadata md cells k pre exercise complete exercise_cells complete_cells,
    load_notebook w t notebook_path = Ok (JDict nb)
    /\ get_notebook_metadata (JDict nb) = Ok metadata
    /\ apply_metadata_overrides w notebook_path metadata config = Ok (JDict md)
    /\ cells_of nb = Ok cells
    /\ t' = pre ++ [WriteNotebook (exercise_path notebook_path output_dir) (JDict exercise);
                    WriteNotebook (answers_path notebook_path output_dir) (JDict complete)]
    /\ cells_of exercise = Ok exercise_cells
    /\ cells_of complete = Ok complete_cells
    /\ length exercise_cells = k + length cells
    /\ length complete_cells = k + length cells
    /\ (forall i, i < k -> exercise_cells !! i = complete_cells !! i)
    /\ (forall i c, cells !! i = Some c ->
          complete_cells !! (k + i) = Some c
          /\ (solution_tagged c = true ->
                exercise_cells !! (k + i) = Some empty_code_cell)
          /\ (solution_tagged c = false ->
                exists c0 e, c = JDict c0 /\ exercise_cells !! (k + i) = Some (JDict e)
                  /\ forall key, key <> "outputs" -> key <> "execution_count" ->
                       e !! key = c0 !! key))
    /\ Forall cleared exercise_cells
    /\ (truthy (get "data_files" md) = false -> truthy (get "install" md) = false ->
        truthy (get "slides" md) = false -> k = 0).
Proof.
  intros H.
  destruct (process_notebook_writes _ _ _ _ _ _ _ H)
    as (nb & metadata & md & cells & ex & front & pre & exercise & complete
        & Hload & Hmeta & Hmerged & Hcells & Hex & Hfront & Hnone & Hec & Hcc & ->).
  destruct (map_result_lookup _ _ _ Hex) as [Hlen Hat].
  exists nb, metadata, md, cells, (length front), pre, exercise, complete,
    (front ++ ex), (front ++ cells).
  do 7 (split; [done|]).
  split; [by rewrite length_app, Hlen|]. split; [by rewrite length_app|].
  split; [intros i Hi; by rewrite !lookup_app_l|]. split; [|split].
  - intros i c Hi. destruct (Hat _ _ Hi) as (c' & Hc' & Hi').
    rewrite !lookup_app_plus.
    split; [done|]. split.
    + intros Hs. destruct (exercise_cell_spec _ _ Hc') as [_ Hb]. by rewrite Hi', Hb.
    + intros Hs. destruct (exercise_cell_keeps _ _ Hc' Hs) as (c0 & e & -> & -> & Hk).
      eauto.
  - apply Forall_app. split; [done|]. apply Forall_lookup. intros i c' Hi.
    destruct (lookup_lt_is_Some_2 cells i) as [c Hc].
    { rewrite <- Hlen. by eapply lookup_lt_Some. }
    destruct (Hat _ _ Hc) as (c'' & Hc'' & Hi''). simplify_eq.
    by destruct (exercise_cell_spec _ _ Hc'').
  - intros H1 H2 H3. by rewrite Hnone.
Qed.

Lemma exercise_variant_blanks_solutions_witness :
  exists info t',
    process_notebook c2_world intro_path (Path "docs") base_config [] = Return (Some info) t'
    /\ exists nb (cells : list json) k (exercise_cells complete_cells : list json),
         load_notebook c2_world [] intro_path = Ok (JDict nb)
         /\ cells_of nb = Ok cells
         /\ length exercise_cells = k + length cells
         /\ length complete_cells = k + length cells
         /\ Forall cleared exercise_cells.
Proof.
  assert (E : exists info t',
             process_notebook c2_world intro_path (Path "docs") base_config []
             = Return (Some info) t') by (eexists _, _; vm_compute; reflexivity).
  destruct E as (info & t' & E). exists info, t'. split; [exact E|].
  destruct (exercise_variant_blanks_solutions _ _ _ _ _ _ _ E)
    as (nb & _ & _ & cells & k & _ & _ & _ & ex & co & H1 & _ & _ & H2 & _ & _ & _
        & H3 & H4 & _ & _ & H5 & _).
  exists nb, cells, k, ex, co. auto.
Defined.

(** ** Calls that leave the index alone *)

Lemma index_written_app t e :
  index_written (t ++ [e])
  = index_written t || match e with WriteIndex _ _ => true | _ => false end.
Proof. unfold index_written. by rewrite existsb_app; cbn; rewrite orb_false_r. Qed.

Lemma tame_ret {A} (a : A) : tame (mret a).
Proof. intros t. split; [done|]. intros c t' H. discriminate H. Qed.

Lemma tame_bind {A B} (m : M A) (f : A -> M B) :
  tame m -> (forall a, tame (f a)) -> tame (m ≫= f).
Proof.
  intros Hm Hf t. destruct (Hm t) as [H1 H2]. unfold mbind, M_bind.
  destruct (m t) as [a t1| |]; cbn in *.
  - destruct (Hf a t1) as [H3 H4]. split; [by rewrite H3|done].
  - split; [done|]. intros c t' [= <- <-]. eauto.
  - split; [done|]. intros c t' H. discriminate H.
Qed.

Lemma tame_emit e :
  match e with WriteIndex _ _ => False | _ => True end -> tame (emit e).
Proof.
  intros He t. split; [|intros c t' H; discriminate H]. cbn.
  rewrite index_written_app. destruct e; try done; apply orb_false_r.
Qed.

Lemma tame_exit {A} : tame (@sys_exit A 1).
Proof. intros t. split; [done|]. by intros c t' [= <- <-]. Qed.

Lemma tame_raise {A} e : tame (@raise A e).
Proof. intros t. split; [done|]. intros c t' H. discriminate H. Qed.

Lemma tame_observe {A} (f : trace -> A) : tame (observe f).
Proof. intros t. split; [done|]. intros c t' H. discriminate H. Qed.

Lemma tame_lift {A} (r : result A) : tame (lift r).
Proof. destruct r; [apply tame_ret|apply tame_raise]. Qed.

Lemma tame_for_each {A} (l : list A) (body : A -> M unit) :
  (forall x, tame (body x)) -> tame (for_each l body).
Proof.
  intros H. induction l as [|x l IH]; cbn; [apply tame_ret|].
  apply tame_bind; [apply H|intros _; apply IH].
Qed.

(** One step of the proof that a call is tame: the monad's operations, then
    a case analysis on what the call branches on. *)
Ltac tame_step :=
  lazymatch goal with
  | |- tame (mret _) => apply tame_ret
  | |- tame (_ ≫= _) => apply tame_bind; [|intros ?]
  | |- tame (emit _) => apply tame_emit; exact I
  | |- tame (sys_exit 1) => apply tame_exit
  | |- tame (raise _) => apply tame_raise
  | |- tame (observe _) => apply tame_observe
  | |- tame (lift _) => apply tame_lift
  | |- tame (for_each _ _) => apply tame_for_each; intros ?
  | |- tame (if ?b then _ else _) => destruct b
  | |- tame (match ?x with _ => _ end) => destruct x
  | |- tame (let _ := _ in _) => cbv zeta
  end.

Ltac tame := repeat tame_step.

Lemma tame_zip_matches zip_path base_dir matches added_files :
  tame (zip_matches zip_path base_dir matches added_files).
Proof.
  revert added_files. induction matches as [|m matches IH]; intros added; cbn.
  - apply tame_ret.
  - case_bool_decide; [apply IH|]. tame. apply IH.
Qed.

Lemma tame_zip_patterns w zip_path base_dir patterns added_files :
  tame (zip_patterns w zip_path base_dir patterns added_files).
Proof.
  revert added_files. induction patterns as [|p patterns IH]; intros added; cbn.
  - apply tame_ret.
  - destruct p; try apply tame_raise. tame; [apply tame_zip_matches|apply IH].
Qed.

Lemma tame_create_data_zip w data_patterns zip_path base_dir :
  tame (create_data_zip w data_patterns zip_path base_dir).
Proof. unfold create_data_zip. tame. apply tame_zip_patterns. Qed.

Lemma tame_copy_reference w source_dir output_dir ref :
  tame (copy_reference w source_dir output_dir ref).
Proof. unfold copy_reference. tame. Qed.

Lemma tame_find_and_copy w cells notebook_dir output_dir :
  tame (find_and_copy_referenced_files w cells notebook_dir output_dir).
Proof.
  unfold find_and_copy_referenced_files, find_and_copy_cell. tame;
    apply tame_copy_reference.
Qed.

Lemma tame_copy_slide_file w slide_file notebook_dir output_subdir :
  tame (copy_slide_file w slide_file notebook_dir output_subdir).
Proof. unfold copy_slide_file. tame. Qed.

Lemma tame_process_notebook w notebook_path output_dir config :
  tame (process_notebook w notebook_path output_dir config).
Proof.
  unfold process_notebook. tame;
    first [apply tame_find_and_copy|apply tame_copy_slide_file|apply tame_create_data_zip].
Qed.

Lemma tame_generate_slide_embed w slide_file notebook_dir output_dir item_type section_folder :
  tame (generate_slide_embed w slide_file notebook_dir output_dir item_type section_folder).
Proof.
  unfold generate_slide_embed, find_slide_file, convert_pptx_to_pdf, create_slide_thumbnail.
  tame.
Qed.

Lemma tame_process_markdown w markdown_path output_dir config :
  tame (process_markdown w markdown_path output_dir config).
Proof.
  unfold process_markdown, copy_markdown_referenced_files.
  apply tame_bind; [apply tame_observe|intros content].
  destruct (extract_markdown_frontmatter w content) as [frontmatter markdown_content].
  tame; first [apply tame_copy_reference|apply tame_create_data_zip
              |apply tame_generate_slide_embed].
Qed.

(** ** The missing slide file ends the run *)

Lemma copy_slide_file_missing w sf notebook_dir output_subdir t :
  slides_missing w notebook_dir sf ->
  copy_slide_file w sf notebook_dir output_subdir t = Exit 1 t.
Proof.
  intros H. destruct (H t) as [H1 H2]. unfold copy_slide_file.
  rewrite observe_return, H1, observe_return, H2. reflexivity.
Qed.

Lemma find_slide_file_missing w sf notebook_dir t :
  slides_missing w notebook_dir sf ->
  find_slide_file w sf notebook_dir t = Exit 1 t.
Proof.
  intros H. destruct (H t) as [H1 H2]. unfold find_slide_file.
  rewrite observe_return, H1, observe_return, H2. reflexivity.
Qed.

Lemma generate_slide_embed_missing w sf notebook_dir output_dir item_type section_folder t :
  slides_missing w notebook_dir sf ->
  generate_slide_embed w sf notebook_dir output_dir item_type section_folder t = Exit 1 t.
Proof.
  intros H. unfold generate_slide_embed, mbind, M_bind.
  by rewrite find_slide_file_missing.
Qed.

Lemma get_lookup k (d : gmap string json) v : d !! k = Some v -> get k d = v.
Proof. unfold get. by intros ->. Qed.

Lemma truthy_str s : s <> "" -> truthy (JStr s) = true.
Proof. intros H. cbn. by destruct (String.eqb_spec s ""). Qed.

Lemma truthy_dict (m : gmap string json) k v : m !! k = Some v -> truthy (JDict m) = true.
Proof.
  intros H. cbn. destruct (Nat.eqb_spec (size m) 0) as [E|]; [|done].
  apply map_size_empty_inv in E. subst m. by rewrite lookup_empty in H.
Qed.

Lemma process_notebook_missing_slides w config p output_dir :
  notebook_slides_missing w config p ->
  never_returns (process_notebook w p output_dir config).
Proof.
  intros (nb & metadata & md & sf & Hload & Hmeta & Hmerged & Hsf & Hne & Hmiss) t.
  destruct (process_notebook w p output_dir config t) as [info t'| |] eqn:H; [|done..].
  unfold process_notebook in H. rewrite observe_return, Hload in H.
  apply bind_return in H as (notebook & t1 & [[= <-] ->]%lift_return & H).
  rewrite Hmeta in H.
  apply bind_return in H as (? & t1 & [[= <-] ->]%lift_return & H).
  rewrite Hmerged in H.
  apply bind_return in H as (? & t1 & [[= <-] ->]%lift_return & H).
  rewrite (truthy_dict _ _ _ Hsf) in H. cbn [negb] in H.
  apply bind_return in H as (nb_metadata & t1 & _ & H).
  apply bind_return in H as (cells & t2 & _ & H).
  apply bind_return in H as (exercise_cells & t3 & _ & H).
  apply bind_return in H as (setup_cells & t4 & _ & H).
  rewrite !emit_return in H.
  apply bind_return in H as ([] & t5 & _ & H).
  apply bind_return in H as (slide_cells & t6 & Hslide & _).
  rewrite (get_lookup _ _ _ Hsf) in Hslide.
  rewrite (truthy_str _ Hne) in Hslide.
  apply bind_return in Hslide as ([] & t7 & Hcopy & _).
  by rewrite copy_slide_file_missing in Hcopy.
Qed.

Lemma process_markdown_missing_slides w config p output_dir :
  markdown_slides_missing w config p ->
  never_returns (process_markdown w p output_dir config).
Proof.
  intros (sf & Hne & Hmiss & Hfm) t.
  destruct (process_markdown w p output_dir config t) as [info t'| |] eqn:H; [|done..].
  unfold process_markdown in H. rewrite observe_return in H.
  destruct (Hfm t) as (fm & Hmerged & Hsf).
  destruct (extract_markdown_frontmatter w (read_text w t p)) as [frontmatter body].
  cbn [fst] in Hmerged. rewrite Hmerged in H.
  apply bind_return in H as (? & t1 & [[= <-] ->]%lift_return & H).
  rewrite !emit_return in H.
  apply bind_return in H as ([] & t2 & _ & H).
  apply bind_return in H as ([] & t3 & _ & H).
  apply bind_return in H as (slide_part & t4 & Hslide & _).
  rewrite (get_lookup _ _ _ Hsf) in Hslide.
  rewrite (truthy_str _ Hne) in Hslide.
  apply bind_return in Hslide as (html & t5 & Hembed & _).
  by rewrite generate_slide_embed_missing in Hembed.
Qed.

Lemma never_returns_bind_l {A B} (m : M A) (f : A -> M B) :
  never_returns m -> never_returns (m ≫= f).
Proof. intros H t. specialize (H t). unfold mbind, M_bind. by destruct (m t). Qed.

Lemma never_returns_bind_r {A B} (m : M A) (f : A -> M B) :
  (forall a, never_returns (f a)) -> never_returns (m ≫= f).
Proof.
  intros H t. unfold mbind, M_bind. destruct (m t) as [a t1| |]; [|done..]. apply H.
Qed.

Lemma process_files_never_returns process title folder section_slides files f :
  f ∈ files -> never_returns (process f) ->
  never_returns (process_files process title folder section_slides files).
Proof.
  intros Hin Hf. induction files as [|g files IH]; [by apply elem_of_nil in Hin|].
  apply elem_of_cons in Hin as [<-|Hin]; cbn.
  - by apply never_returns_bind_l.
  - apply never_returns_bind_r. intros info. apply never_returns_bind_l. by apply IH.
Qed.

Lemma tame_process_files process title folder section_slides files :
  (forall f, tame (process f)) ->
  tame (process_files process title folder section_slides files).
Proof.
  intros H. induction files as [|f files IH]; cbn; [apply tame_ret|].
  apply tame_bind; [apply H|intros info]. apply tame_bind; [apply IH|intros rest].
  apply tame_ret.
Qed.

Lemma tame_process_section w config output_dir section :
  tame (process_section w config output_dir section).
Proof.
  unfold process_section.
  destruct (match section with SectionDict s => sec_draft s | SectionName _ => false end);
    [apply tame_ret|].
  apply tame_bind; [apply tame_observe|intros found].
  destruct (_ || _); [apply tame_ret|].
  apply tame_bind.
  { destruct section as [s|f]; [|apply tame_ret].
    destruct (sec_data_files s); [apply tame_ret|].
    apply tame_bind; [apply tame_emit; exact I|intros _; apply tame_create_data_zip]. }
  intros _. apply tame_bind; [apply tame_observe|intros notebooks].
  apply tame_bind; [apply tame_process_files; intros; apply tame_process_notebook|].
  intros notebook_items. apply tame_bind; [apply tame_observe|intros markdowns].
  apply tame_bind; [apply tame_process_files; intros; apply tame_process_markdown|].
  intros markdown_items. apply tame_ret.
Qed.

Lemma tame_process_sections w config output_dir sections :
  tame (process_sections w config output_dir sections).
Proof.
  induction sections as [|s sections IH]; cbn; [apply tame_ret|].
  apply tame_bind; [apply tame_process_section|intros items].
  apply tame_bind; [apply IH|intros rest; apply tame_ret].
Qed.

Lemma process_section_never_returns w config output_dir section p :
  section_is_draft section = false ->
  section_folder_of section <> "" ->
  (forall t, exists_ w t (Path (section_folder_of section)) = true) ->
  found_in w config p section ->
  never_returns (process_section w config output_dir section).
Proof.
  intros Hlive Hname Hdir Hitem t. unfold process_section.
  fold (section_is_draft section) (section_folder_of section).
  rewrite Hlive, observe_return, Hdir.
  destruct (String.eqb_spec (section_folder_of section) "") as [|_]; [done|].
  cbn [orb negb]. revert t. apply never_returns_bind_r. intros _ t.
  rewrite observe_return. revert t. destruct Hitem as [section Hglob Hcheck Hmiss|section Hglob Hmiss].
  - intros t. revert t. apply never_returns_bind_l.
    intros t. eapply process_files_never_returns;
      [|by apply process_notebook_missing_slides].
    apply list_elem_of_filter. split; [exact Hcheck|apply Hglob].
  - apply never_returns_bind_r. intros notebook_items t. rewrite observe_return. revert t.
    apply never_returns_bind_l. intros t.
    eapply process_files_never_returns; [apply Hglob|].
    by apply process_markdown_missing_slides.
Qed.

Lemma process_sections_never_returns w config output_dir sections section :
  section ∈ sections ->
  never_returns (process_section w config output_dir section) ->
  never_returns (process_sections w config output_dir sections).
Proof.
  intros Hin Hs. induction sections as [|s sections IH]; [by apply elem_of_nil in Hin|].
  apply elem_of_cons in Hin as [<-|Hin]; cbn.
  - by apply never_returns_bind_l.
  - apply never_returns_bind_r. intros items. apply never_returns_bind_l. by apply IH.
Qed.

(** A tame call that never returns ends the run with status 1 or an
    exception, whatever follows it, and the index is not written. *)
Lemma stops_before_index {A B} (m : M A) (f : A -> M B) t :
  tame m -> never_returns m ->
  exit_status ((m ≫= f) t) = 1%Z
  /\ index_written (trace_of ((m ≫= f) t)) = index_written t.
Proof.
  intros Ht Hn. destruct (Ht t) as [H1 H2]. specialize (Hn t). unfold mbind, M_bind.
  destruct (m t) as [a t1|c t1|e t1]; [done| |]; cbn in *; [|done].
  split; [|done]. by apply (H2 c t1).
Qed.

(** C7: when an item of a section that is processed declares, in its merged
    metadata, a slide file found neither beside the item nor as a path of
    its own, the run ends with status 1 and no index page has been written
    since it started.  The exit is raised where the slide file is used:
    [copy_slide_file] (notebooks) and [generate_slide_embed] (pages) end the
    run with status 1 before they emit anything. *)
Theorem missing_slides_end_the_run w config commit section p t :
  section ∈ cfg_sections config ->
  section_is_draft section = false ->
  section_folder_of section <> "" ->
  (forall t, exists_ w t (Path (section_folder_of section)) = true) ->
  found_in w config p section ->
  exit_status (main w config commit t) = 1%Z
  /\ index_written (trace_of (main w config commit t)) = index_written t
  /\ (forall sf dir out item_type folder t0,
        slides_missing w dir sf ->
        copy_slide_file w sf dir out t0 = Exit 1 t0
        /\ generate_slide_embed w sf dir out item_type folder t0 = Exit 1 t0).
Proof.
  intros Hin Hlive Hname Hdir Hitem.
  assert (Hstop : forall t1,
    index_written t1 = index_written t ->
    let o := match cfg_sections config, has_root_content config with
             | [], false => mret []
             | sections, _ =>
                 process_sections w config (Path (default "docs" (cfg_output_dir config)))
                   sections ≫= fun processed_items =>
                 (match processed_items with
                  | [] => if has_root_content config
                          then create_index w processed_items config
                                 (Path (default "docs" (cfg_output_dir config)))
                          else mret tt
                  | _ => create_index w processed_items config
                           (Path (default "docs" (cfg_output_dir config)))
                  end) ≫= fun _ =>
                 publish w commit ≫= fun _ => mret processed_items
             end t1 in
    exit_status o = 1%Z /\ index_written (trace_of o) = index_written t).
  { intros t1 Ht1. destruct (cfg_sections config) as [|s sections] eqn:E;
      [by apply elem_of_nil in Hin|].
    cbv zeta. rewrite <- Ht1. apply stops_before_index; [apply tame_process_sections|].
    eapply process_sections_never_returns; [exact Hin|].
    by eapply process_section_never_returns. }
  split; [|split].
  - unfold main. rewrite observe_return. destruct (exists_ w t _).
    + rewrite !emit_return. apply Hstop. by rewrite !index_written_app, !orb_false_r.
    + unfold mbind at 1, M_bind at 1, mret at 1, M_ret at 1. rewrite emit_return.
      apply Hstop. by rewrite index_written_app, orb_false_r.
  - unfold main. rewrite observe_return. destruct (exists_ w t _).
    + rewrite !emit_return. apply Hstop. by rewrite !index_written_app, !orb_false_r.
    + unfold mbind at 1, M_bind at 1, mret at 1, M_ret at 1. rewrite emit_return.
      apply Hstop. by rewrite index_written_app, orb_false_r.
  - intros sf dir out item_type folder t0 Hmiss. split;
      [by apply copy_slide_file_missing|by apply generate_slide_embed_missing].
Qed.

Lemma missing_slides_end_the_run_witness :
  exit_status (main c7_world c7_config false []) = 1%Z
  /\ index_written (trace_of (main c7_world c7_config false [])) = false.
Proof.
  assert (Hitem : found_in c7_world c7_config intro_path (SectionName "section1")).
  { apply found_notebook.
    - intros t. apply list_elem_of_here.
    - reflexivity.
    - eexists _, _, _, "slides.pdf".
      split; [intros t; reflexivity|]. split; [reflexivity|].
      split; [vm_compute; reflexivity|]. split; [reflexivity|]. split; [done|].
      intros t. split; reflexivity. }
  destruct (missing_slides_end_the_run c7_world c7_config false (SectionName "section1")
              intro_path [] (list_elem_of_here _ _) eq_refl
              ltac:(discriminate) (fun _ => eq_refl) Hitem) as (H1 & H2 & _).
  split; [exact H1|exact H2].
Defined.

(** ** Draft sections *)

(** C8: every draft section gives exactly one placeholder and touches
    nothing, but the index does not always render it as the claim says.
    [create_index] groups the records by section title and takes a group for
    a draft only when it holds exactly one record; two draft sections with
    the same title give a group of two placeholders, which is rendered as
    ordinary items, and reading [exercise_file] from a placeholder raises
    [KeyError]: the run ends before the index is written. *)
Theorem draft_sections_sharing_a_title :
  (forall w config output_dir section t,
     section_is_draft section = true ->
     exists title folder description,
       process_section w config output_dir section t
       = Return [DraftPlaceholder title folder description] t)
  /\ process_sections c8_world c8_config (Path "docs") (cfg_sections c8_config) []
     = Return [DraftPlaceholder "Coming soon" "week3" (JStr "Later.");
               DraftPlaceholder "Coming soon" "week4" (JStr "Later.")] []
  /\ main c8_world c8_config false [] = Raise (KeyError "exercise_file") [Mkdir (Path "docs")]
  /\ exit_status (main c8_world c8_config false []) = 1%Z
  /\ index_written (trace_of (main c8_world c8_config false [])) = false.
Proof.
  split.
  { intros w config output_dir section t Hdraft. unfold process_section.
    fold (section_is_draft section). rewrite Hdraft. eauto. }
  split; [vm_compute; reflexivity|].
  assert (H : main c8_world c8_config false []
              = Raise (KeyError "exercise_file") [Mkdir (Path "docs")])
    by (vm_compute; reflexivity).
  rewrite H. done.
Qed.

(** ** The merger on the object store writes only to new objects *)

Module StoreFacts.
Import Store.

Lemma unchanged_refl h : unchanged h h.
Proof. done. Qed.

Lemma unchanged_trans h1 h2 h3 : unchanged h1 h2 -> unchanged h2 h3 -> unchanged h1 h3.
Proof. unfold unchanged. by intros; etrans. Qed.

Lemma unchanged_alloc h o : unchanged h (alloc o h).2.
Proof. by apply prefix_app_r. Qed.

Lemma unchanged_lookup h h' a o : unchanged h h' -> h !! a = Some o -> h' !! a = Some o.
Proof.
  intros [rest ->] H. rewrite lookup_app_l; [done|]. by eapply lookup_lt_Some.
Qed.

Lemma unchanged_length h h' : unchanged h h' -> length h <= length h'.
Proof. apply prefix_length. Qed.

Lemma length_set_item d k v h : length (set_item d k v h) = length h.
Proof. unfold set_item. destruct (h !! d) as [[]|]; by rewrite ?length_insert. Qed.

Lemma unchanged_set_item h0 h d k v :
  unchanged h0 h -> length h0 <= d -> unchanged h0 (set_item d k v h).
Proof.
  intros [rest ->] Hd. unfold set_item.
  destruct ((h0 ++ rest) !! d) as [[items|]|]; try by apply prefix_app_r.
  rewrite insert_app_r_alt by done. by apply prefix_app_r.
Qed.

Lemma set_item_dict d k v h items :
  h !! d = Some (ODict items) ->
  set_item d k v h !! d = Some (ODict (item_set k v items)).
Proof.
  intros H. unfold set_item. rewrite H. apply list_lookup_insert_eq.
  by eapply lookup_lt_Some.
Qed.

(** [_deep_merge] returns a mapping it has made, at the first free address,
    and no object that was there before differs afterwards; the same holds
    of the store when it raises. *)
Lemma deep_merge_frame fuel : forall base override h,
  match _deep_merge fuel base override h with
  | Done r h' =>
      unchanged h h' /\ r = length h /\ exists items, h' !! r = Some (ODict items)
  | Failed _ h' => unchanged h h'
  | OutOfFuel => True
  end.
Proof.
  induction fuel as [|fuel IH]; intros base override h; [done|].
  cbn [_deep_merge]. unfold alloc.
  set (h1 := h ++ [ODict (default [] (dict_items h base))]).
  assert (H1 : unchanged h h1) by by apply prefix_app_r.
  assert (H2 : exists items, h1 !! length h = Some (ODict items)).
  { eexists. unfold h1. by rewrite lookup_app_r, Nat.sub_diag by lia. }
  destruct (truthy h1 override); [|done].
  destruct (dict_items h1 override) as [items|]; [|done].
  revert H1 H2. generalize h1. clear h1.
  induction items as [|[k v] items IHl]; intros hc H1 H2; [done|].
  destruct (is_dict hc v && is_dict hc _).
  - specialize (IH (get k (default [] (dict_items hc (VRef (length h))))) v hc).
    destruct (_deep_merge fuel _ v hc) as [merged hc'|e hc'|]; [| |done].
    + destruct IH as (H3 & -> & H4). destruct H2 as [its H2]. apply IHl.
      * apply unchanged_set_item; [by eapply unchanged_trans|done].
      * eexists. apply set_item_dict. by eapply unchanged_lookup.
    + by eapply unchanged_trans.
  - destruct H2 as [its H2]. apply IHl.
    + by apply unchanged_set_item.
    + eexists. by apply set_item_dict.
Qed.


Lemma bounded_unchanged h h' n : forall v,
  unchanged h h' -> bounded h n v -> bounded h' n v.
Proof.
  induction n as [|n IH]; intros [| | | |a] Hu; cbn; try done.
  destruct (h !! a) as [o|] eqn:Ha; [|done].
  rewrite (unchanged_lookup _ _ _ _ Hu Ha).
  destruct o; intros HF; (eapply Forall_impl; [exact HF|]); intros; by apply IH.
Qed.

Lemma bounded_deeper h n : forall m v, n <= m -> bounded h n v -> bounded h m v.
Proof.
  induction n as [|n IH]; intros [|m] [| | | |a] Hm; cbn; try done; try lia.
  destruct (h !! a) as [[]|]; try done; intros HF;
    (eapply Forall_impl; [exact HF|]); intros; apply IH; (lia || done).
Qed.

Lemma bounded_dict_items h h1 n v items :
  unchanged h h1 -> bounded h n v -> dict_items h1 v = Some items ->
  exists n', n = S n' /\ Forall (fun kv => bounded h n' kv.2) items.
Proof.
  intros Hu. destruct v as [| | | |a]; try done.
  destruct n as [|n]; cbn; [done|]. destruct (h !! a) as [o|] eqn:Ha; [|done].
  rewrite (unchanged_lookup _ _ _ _ Hu Ha). destruct o; [|done].
  intros H [= <-]. eauto.
Qed.

Lemma bounded_item_get h n k items v :
  Forall (fun kv => bounded h n kv.2) items -> item_get k items = Some v -> bounded h n v.
Proof.
  induction 1 as [|[k' v'] items Hv _ IH]; cbn; [done|].
  destruct (String.eqb k' k); [by intros [= <-]|done].
Qed.

Lemma bounded_get h n k items :
  Forall (fun kv => bounded h n kv.2) items -> bounded h n (get k items).
Proof.
  intros H. unfold get. destruct (item_get k items) as [v|] eqn:E; [|by destruct n].
  by eapply bounded_item_get.
Qed.

Lemma bounded_py_or h h' n a b : bounded h n a -> bounded h n b -> bounded h n (py_or h' a b).
Proof. unfold py_or. by destruct (truthy h' a). Qed.

(** [_deep_merge] returns or raises when the fuel exceeds the nesting of
    the override. *)
Lemma deep_merge_fuel fuel : forall n base override h,
  bounded h n override -> n < fuel ->
  match _deep_merge fuel base override h with OutOfFuel => False | _ => True end.
Proof.
  induction fuel as [|fuel IH]; intros n base override h Hb Hn; [lia|].
  cbn [_deep_merge]. unfold alloc.
  set (h1 := h ++ [ODict (default [] (dict_items h base))]).
  assert (H1 : unchanged h h1) by by apply prefix_app_r.
  destruct (truthy h1 override); [|done].
  destruct (dict_items h1 override) as [items|] eqn:Hd; [|done].
  destruct (bounded_dict_items h h1 n override items H1 Hb Hd) as (n' & -> & Hitems).
  assert (H2 : exists its, h1 !! length h = Some (ODict its)).
  { eexists. unfold h1. by rewrite lookup_app_r, Nat.sub_diag by lia. }
  clear Hd. revert H1 H2. generalize h1. clear h1.
  induction items as [|[k v] items IHl]; intros hc H1 H2; [done|].
  apply Forall_cons in Hitems as [Hv Hitems]. cbn in Hv.
  destruct H2 as [its H2].
  destruct (is_dict hc v && is_dict hc _).
  - pose proof (deep_merge_frame fuel
                  (get k (default [] (dict_items hc (VRef (length h))))) v hc) as Hf.
    pose proof (IH n' (get k (default [] (dict_items hc (VRef (length h))))) v hc
                  (bounded_unchanged _ _ _ _ H1 Hv) ltac:(lia)) as Ht.
    destruct (_deep_merge fuel _ v hc) as [merged hc'|e hc'|]; [|done|done].
    destruct Hf as (H4 & -> & H5). apply (IHl Hitems).
    + apply unchanged_set_item; [by eapply unchanged_trans|done].
    + eexists. apply set_item_dict. by eapply unchanged_lookup.
  - apply (IHl Hitems).
    + by apply unchanged_set_item.
    + eexists. by apply set_item_dict.
Qed.

Lemma snapshot_unchanged h h' : forall d n v,
  unchanged h h' -> bounded h n v -> snapshot d h' v = snapshot d h v.
Proof.
  induction d as [|d IH]; intros n [| | | |a] Hu Hb; try done.
  destruct n as [|n]; [done|]. cbn in *.
  destruct (h !! a) as [o|] eqn:Ha; [|done].
  rewrite (unchanged_lookup _ _ _ _ Hu Ha). destruct o; f_equal.
  - apply Forall_fmap_ext_1. eapply Forall_impl; [exact Hb|].
    intros [k v] Hv. cbn in *. f_equal. by eapply IH.
  - apply Forall_fmap_ext_1. eapply Forall_impl; [exact Hb|].
    intros v Hv. by eapply IH.
Qed.

Lemma rule_of_source_frame h src : unchanged h (rule_of_source h src).2.
Proof.
  destruct src as [pattern values|item]; cbn; [done|].
  destruct (dict_items h item) as [d|]; [|done].
  destruct (truthy h (py_or h (get "values" d) (get "merge" d))); cbn; [done|].
  by apply prefix_app_r.
Qed.

Lemma rule_of_source_bounded h0 h n src pattern values h' :
  unchanged h0 h -> source_bounded h0 n src ->
  rule_of_source h src = (Some (pattern, values), h') ->
  bounded h' n values.
Proof.
  intros Hu Hb. destruct src as [p vs|item]; cbn in *.
  - destruct (is_dict h vs); [|done]. intros [= <- <- <-]. by eapply bounded_unchanged.
  - destruct (dict_items h item) as [d|] eqn:Hd; [|done].
    destruct (bounded_dict_items h0 h n item d Hu Hb Hd) as (n' & -> & Hitems).
    destruct (truthy h (py_or h (get "values" d) (get "merge" d))) eqn:Hv; cbn.
    + destruct (_ && _); [|done]. intros [= <- <- <-].
      refine (bounded_unchanged h0 h (S n') (py_or h (get "values" d) (get "merge" d)) Hu _).
      apply (bounded_deeper _ n'); [lia|].
      apply bounded_py_or; by apply bounded_get.
    + destruct (_ && _); [|done]. intros [= <- <- <-]. cbn.
      rewrite lookup_app_r, Nat.sub_diag by lia. cbn.
      apply Forall_forall. intros kv [_ Hin]%list_elem_of_filter.
      pose proof (proj1 (Forall_forall _ _) Hitems kv Hin) as Hkv.
      eapply bounded_unchanged; [|exact Hkv].
      eapply unchanged_trans; [exact Hu|]. by apply prefix_app_r.
Qed.

Lemma bounded_list_elems h h1 n a elems :
  unchanged h h1 -> bounded h n (VRef a) -> h1 !! a = Some (OList elems) ->
  exists n', n = S n' /\ Forall (bounded h n') elems.
Proof.
  intros Hu. destruct n as [|n]; cbn; [done|].
  destruct (h !! a) as [o|] eqn:Ha; [|done].
  rewrite (unchanged_lookup _ _ _ _ Hu Ha). intros H [= ->]. eauto.
Qed.

Lemma rule_sources_bounded h h1 n config :
  unchanged h h1 -> bounded h n config ->
  Forall (source_bounded h n) (rule_sources h1 config).
Proof.
  intros Hu Hb. unfold rule_sources.
  set (cfg := default [] (dict_items h1 config)).
  assert (Hcfg : Forall (fun kv => bounded h n kv.2) cfg).
  { unfold cfg. destruct (dict_items h1 config) as [items|] eqn:Hc; [|constructor].
    destruct (bounded_dict_items h h1 n config items Hu Hb Hc) as (n' & -> & H).
    eapply Forall_impl; [exact H|]. intros kv Hkv. apply (bounded_deeper _ n'); [lia|done]. }
  set (md := py_or h1 (get "metadata_overrides" cfg) (get "metadata" cfg)).
  assert (Hmd : bounded h n md) by (apply bounded_py_or; by apply bounded_get).
  destruct (truthy h1 md); [|constructor]. destruct md as [| | | |a]; try by constructor.
  destruct (h1 !! a) as [[items|elems]|] eqn:Ha; [| |constructor].
  - assert (Hd : dict_items h1 (VRef a) = Some items) by (cbn; by rewrite Ha).
    destruct (bounded_dict_items h h1 n (VRef a) items Hu Hmd Hd) as (n' & -> & H).
    apply Forall_fmap. eapply Forall_impl; [exact H|].
    intros kv Hkv. apply (bounded_deeper _ n'); [lia|done].
  - destruct (bounded_list_elems h h1 n a elems Hu Hmd Ha) as (n' & -> & H).
    apply Forall_fmap. eapply Forall_impl; [exact H|].
    intros v Hv. apply (bounded_deeper _ n'); [lia|done].
Qed.

Lemma apply_sources_frame h0 fuel rel file_name : forall sources h merged,
  unchanged h0 h -> length h0 <= merged ->
  (exists items, h !! merged = Some (ODict items)) ->
  match apply_sources fuel rel file_name merged sources h with
  | Done r h' =>
      unchanged h0 h' /\ length h0 <= r /\ exists items, h' !! r = Some (ODict items)
  | Failed _ h' => unchanged h0 h'
  | OutOfFuel =>
      forall n, Forall (source_bounded h0 n) sources -> fuel <= n
  end.
Proof.
  induction sources as [|src sources IH]; intros h merged Hu Hm Hd; [done|].
  cbn [apply_sources].
  pose proof (rule_of_source_frame h src) as Hf.
  destruct (rule_of_source h src) as [rule h1] eqn:Hr. cbn in Hf.
  assert (Hu1 : unchanged h0 h1) by by eapply unchanged_trans.
  assert (Hd1 : exists items, h1 !! merged = Some (ODict items)).
  { destruct Hd as [items Hd]. eexists. exact (unchanged_lookup h h1 _ _ Hf Hd). }
  assert (Hrest : match apply_sources fuel rel file_name merged sources h1 with
                  | Done r h' =>
                      unchanged h0 h' /\ length h0 <= r
                      /\ exists items, h' !! r = Some (ODict items)
                  | Failed _ h' => unchanged h0 h'
                  | OutOfFuel =>
                      forall n, Forall (source_bounded h0 n) (src :: sources) -> fuel <= n
                  end).
  { specialize (IH h1 merged Hu1 Hm Hd1).
    destruct (apply_sources fuel rel file_name merged sources h1); try done.
    intros n [_ H]%Forall_cons. by apply IH. }
  destruct rule as [[pattern values]|]; [|done].
  destruct pattern as [| | |pattern|]; try done.
  destruct (rule_matches rel file_name pattern); [|done].
  pose proof (deep_merge_frame fuel (VRef merged) values h1) as Hdm.
  pose proof (deep_merge_fuel fuel) as Hfuel.
  destruct (_deep_merge fuel (VRef merged) values h1) as [merged' h2|e h2|] eqn:Em.
  - destruct Hdm as (Hu2 & -> & Hd2).
    assert (Hu3 : unchanged h0 h2) by by eapply unchanged_trans.
    specialize (IH h2 (length h1) Hu3 ltac:(by apply unchanged_length) Hd2).
    destruct (apply_sources fuel rel file_name (length h1) sources h2); try done.
    intros n [_ H]%Forall_cons. by apply IH.
  - by eapply unchanged_trans.
  - intros n [Hs _]%Forall_cons.
    destruct (decide (fuel <= n)) as [|Hlt]; [done|]. exfalso.
    specialize (Hfuel n (VRef merged) values h1
                  (rule_of_source_bounded _ _ _ _ _ _ _ Hu Hs Hr) ltac:(lia)).
    by rewrite Em in Hfuel.
Qed.

(** The frame of [apply_metadata_overrides]: it returns a mapping made
    during the call, and whether it returns or raises, every object that was
    in the store before is as it was. *)
Lemma apply_overrides_frame fuel rel file_name meta config h :
  match apply_metadata_overrides fuel rel file_name meta config h with
  | Done r h' =>
      unchanged h h' /\ length h <= r /\ exists items, h' !! r = Some (ODict items)
  | Failed _ h' => unchanged h h'
  | OutOfFuel => forall n, bounded h n config -> fuel <= n
  end.
Proof.
  unfold apply_metadata_overrides.
  destruct (dict_copy h meta) as [copied|e] eqn:Ec; [|done]. unfold alloc.
  set (o := ODict copied).
  assert (Hu : unchanged h (h ++ [o])) by by apply prefix_app_r.
  assert (Ho : exists items, (h ++ [o]) !! length h = Some (ODict items)).
  { eexists. by rewrite lookup_app_r, Nat.sub_diag by lia. }
  pose proof (apply_sources_frame h fuel rel file_name (rule_sources (h ++ [o]) config)
                (h ++ [o]) (length h) Hu ltac:(lia) Ho) as H.
  destruct (apply_sources _ _ _ _ _ _); try done.
  intros n Hb. apply H. by apply rule_sources_bounded.
Qed.

End StoreFacts.

(** C10: [apply_metadata_overrides] returns a mapping it has made during
    the call (its address is past every object of the store it started
    from), and whether it returns or raises, no object that was in the store
    differs afterwards: the metadata passed in, its nested mappings and the
    configuration read the same before and after.  The call returns or
    raises whenever the fuel exceeds the nesting of the configuration. *)
Theorem merger_leaves_its_inputs fuel rel file_name meta config h :
  match Store.apply_metadata_overrides fuel rel file_name meta config h with
  | Store.Done r h' =>
      Store.unchanged h h' /\ length h <= r
      /\ (exists items, h' !! r = Some (Store.ODict items))
      /\ forall d n v, Store.bounded h n v -> Store.snapshot d h' v = Store.snapshot d h v
  | Store.Failed _ h' =>
      Store.unchanged h h'
      /\ forall d n v, Store.bounded h n v -> Store.snapshot d h' v = Store.snapshot d h v
  | Store.OutOfFuel => forall n, Store.bounded h n config -> fuel <= n
  end.
Proof.
  pose proof (StoreFacts.apply_overrides_frame fuel rel file_name meta config h) as H.
  destruct (Store.apply_metadata_overrides fuel rel file_name meta config h)
    as [r h'|e h'|]; [| |done].
  - destruct H as (Hu & Hr & Hd). repeat split; try done.
    intros d n v Hb. by eapply StoreFacts.snapshot_unchanged.
  - split; [done|]. intros d n v Hb. by eapply StoreFacts.snapshot_unchanged.
Qed.

(** A run on [c10_store]: the rule matches, the result is a new mapping at
    address 6 with the title replaced and the nested mapping merged into a
    new one, and the metadata at address 0 reads as before. *)
Example merger_run :
  exists h',
    Store.apply_metadata_overrides 3 "section1/intro.ipynb" "intro.ipynb"
      (Store.VRef 0) (Store.VRef 2) c10_store = Store.Done 7 h'
    /\ Store.snapshot 3 h' (Store.VRef 7)
       = Store.TDict [("title", Store.TStr "B");
                      ("options", Store.TDict [("x", Store.TNum 1); ("y", Store.TNum 2)])]
    /\ Store.snapshot 3 h' (Store.VRef 0)
       = Store.TDict [("title", Store.TStr "A");
                      ("options", Store.TDict [("x", Store.TNum 1)])].
Proof. eexists. split; [vm_compute; reflexivity|]. split; vm_compute; reflexivity. Qed.

(** * Further properties of the code *)

(** ** Footprints *)

Lemma emits_only_ret allowed {A} (a : A) : emits_only allowed (mret a).
Proof. intros t. exists []. by rewrite app_nil_r. Qed.

Lemma emits_only_bind allowed {A B} (m : M A) (f : A -> M B) :
  emits_only allowed m -> (forall a, emits_only allowed (f a)) ->
  emits_only allowed (m ≫= f).
Proof.
  intros Hm Hf t. destruct (Hm t) as (a1 & H1 & H2). unfold mbind, M_bind.
  destruct (m t) as [a t1| |]; cbn in *; [|by eauto..]. subst t1.
  destruct (Hf a (t ++ a1)) as (a2 & H3 & H4). exists (a1 ++ a2).
  by rewrite H3, (assoc_L (++)), forallb_app, H2, H4.
Qed.

Lemma emits_only_emit (allowed : event -> bool) e :
  allowed e = true -> emits_only allowed (emit e).
Proof. intros H t. exists [e]. cbn. by rewrite H. Qed.

Lemma emits_only_exit allowed {A} c : emits_only allowed (@sys_exit A c).
Proof. intros t. exists []. by rewrite app_nil_r. Qed.

Lemma emits_only_raise allowed {A} e : emits_only allowed (@raise A e).
Proof. intros t. exists []. by rewrite app_nil_r. Qed.

Lemma emits_only_observe allowed {A} (f : trace -> A) : emits_only allowed (observe f).
Proof. intros t. exists []. by rewrite app_nil_r. Qed.

Lemma emits_only_lift allowed {A} (r : result A) : emits_only allowed (lift r).
Proof. destruct r; [apply emits_only_ret|apply emits_only_raise]. Qed.

Lemma emits_only_for_each allowed {A} (l : list A) (body : A -> M unit) :
  (forall x, emits_only allowed (body x)) -> emits_only allowed (for_each l body).
Proof.
  intros H. induction l as [|x l IH]; cbn; [apply emits_only_ret|].
  apply emits_only_bind; [apply H|intros _; apply IH].
Qed.

Lemma emits_only_weaken (allowed allowed' : event -> bool) {A} (m : M A) :
  (forall e, allowed e = true -> allowed' e = true) ->
  emits_only allowed m -> emits_only allowed' m.
Proof.
  intros Hsub Hm t. destruct (Hm t) as (added & H1 & H2). exists added. split; [done|].
  apply forallb_forall. intros e He. apply Hsub.
  by apply (proj1 (forallb_forall _ _) H2).
Qed.

(** One step of a footprint proof, as for [tame]. *)
Ltac footprint_step :=
  lazymatch goal with
  | |- emits_only _ (mret _) => apply emits_only_ret
  | |- emits_only _ (_ ≫= _) => apply emits_only_bind; [|intros ?]
  | |- emits_only _ (emit _) => apply emits_only_emit; reflexivity
  | |- emits_only _ (sys_exit _) => apply emits_only_exit
  | |- emits_only _ (raise _) => apply emits_only_raise
  | |- emits_only _ (observe _) => apply emits_only_observe
  | |- emits_only _ (lift _) => apply emits_only_lift
  | |- emits_only _ (for_each _ _) => apply emits_only_for_each; intros ?
  | |- emits_only _ (if ?b then _ else _) => destruct b
  | |- emits_only _ (match ?x with _ => _ end) => destruct x
  | |- emits_only _ (let _ := _ in _) => cbv zeta
  end.

Ltac footprint := repeat footprint_step.

Lemma footprint_zip_matches (allowed : event -> bool) zip_path base_dir matches added_files :
  (forall z f a, allowed (ZipMember z f a) = true) ->
  emits_only allowed (zip_matches zip_path base_dir matches added_files).
Proof.
  intros Hz. revert added_files. induction matches as [|m matches IH]; intros added; cbn.
  - apply emits_only_ret.
  - case_bool_decide; [apply IH|].
    apply emits_only_bind; [apply emits_only_emit, Hz|intros _; apply IH].
Qed.

Lemma footprint_zip_patterns (allowed : event -> bool) w zip_path base_dir patterns added :
  (forall z f a, allowed (ZipMember z f a) = true) ->
  emits_only allowed (zip_patterns w zip_path base_dir patterns added).
Proof.
  intros Hz. revert added. induction patterns as [|p patterns IH]; intros added; cbn.
  - apply emits_only_ret.
  - destruct p; try apply emits_only_raise.
    apply emits_only_bind; [apply emits_only_observe|intros matches].
    apply emits_only_bind; [by apply footprint_zip_matches|intros ?; apply IH].
Qed.

Lemma footprint_create_data_zip (allowed : event -> bool) w data_patterns zip_path base_dir :
  (forall z, allowed (CreateZip z) = true) ->
  (forall z f a, allowed (ZipMember z f a) = true) ->
  emits_only allowed (create_data_zip w data_patterns zip_path base_dir).
Proof.
  intros Hc Hz. unfold create_data_zip.
  apply emits_only_bind; [apply emits_only_emit, Hc|intros _].
  apply emits_only_bind; [apply emits_only_lift|intros patterns].
  by apply footprint_zip_patterns.
Qed.

Lemma footprint_copy_reference w source_dir output_dir ref :
  emits_only copy_event (copy_reference w source_dir output_dir ref).
Proof. unfold copy_reference. footprint. Qed.

Lemma footprint_find_and_copy w cells notebook_dir output_dir :
  emits_only copy_event (find_and_copy_referenced_files w cells notebook_dir output_dir).
Proof.
  unfold find_and_copy_referenced_files, find_and_copy_cell. footprint;
    apply footprint_copy_reference.
Qed.

Lemma footprint_copy_slide_file w slide_file notebook_dir output_subdir :
  emits_only copy_event (copy_slide_file w slide_file notebook_dir output_subdir).
Proof. unfold copy_slide_file. footprint. Qed.

Lemma copy_event_notebook e : copy_event e = true -> notebook_event e = true.
Proof. by destruct e. Qed.

Lemma copy_event_page e : copy_event e = true -> page_event e = true.
Proof. by destruct e. Qed.

Lemma copy_event_index e : copy_event e = true -> index_event e = true.
Proof. by destruct e. Qed.

Lemma footprint_generate_slide_embed w slide_file notebook_dir output_dir item_type folder :
  emits_only index_event
    (generate_slide_embed w slide_file notebook_dir output_dir item_type folder).
Proof.
  unfold generate_slide_embed, find_slide_file, convert_pptx_to_pdf, create_slide_thumbnail.
  footprint.
Qed.

Lemma index_event_page e : index_event e = true -> page_event e = true.
Proof. by destruct e. Qed.

Lemma footprint_process_notebook w notebook_path output_dir config :
  emits_only notebook_event (process_notebook w notebook_path output_dir config).
Proof.
  unfold process_notebook. footprint;
    first [ apply (emits_only_weaken copy_event); [apply copy_event_notebook|];
            first [apply footprint_find_and_copy|apply footprint_copy_slide_file]
          | by apply footprint_create_data_zip ].
Qed.

Lemma footprint_process_markdown w markdown_path output_dir config :
  emits_only page_event (process_markdown w markdown_path output_dir config).
Proof.
  unfold process_markdown, copy_markdown_referenced_files.
  apply emits_only_bind; [apply emits_only_observe|intros content].
  destruct (extract_markdown_frontmatter w content) as [frontmatter markdown_content].
  footprint;
    first [ apply (emits_only_weaken copy_event); [apply copy_event_page|];
            apply footprint_copy_reference
          | by apply footprint_create_data_zip
          | apply (emits_only_weaken index_event); [apply index_event_page|];
            apply footprint_generate_slide_embed ].
Qed.






(** Publishing a notebook only makes directories, copies files, builds
    archives and writes notebooks, and publishing a markdown page only makes
    directories, copies files, builds archives, converts slides and writes
    pages, however they end: neither removes anything, writes the index or
    touches the repository. *)
Theorem items_footprint w file_path output_dir config t :
  (exists added,
     trace_of (process_notebook w file_path output_dir config t) = t ++ added
     /\ forallb notebook_event added = true)
  /\ (exists added,
        trace_of (process_markdown w file_path output_dir config t) = t ++ added
        /\ forallb page_event added = true).
Proof.
  split; [apply footprint_process_notebook|apply footprint_process_markdown].
Qed.

(** ** The index page *)

Lemma footprint_render_root w config output_dir :
  emits_only index_event (render_root w config output_dir).
Proof.
  unfold render_root. footprint;
    first [apply footprint_generate_slide_embed|by apply footprint_create_data_zip].
Qed.

Lemma footprint_render_section w config github_repo section section_items :
  emits_only index_event (render_section w config github_repo section section_items).
Proof.
  unfold render_section.
  destruct section_items as [|[info folder slides|title folder description] [|it rest]];
    try apply emits_only_ret;
    (apply emits_only_bind;
     [destruct (section_config config section ≫= sec_slides) as [slides'|];
      [|apply emits_only_ret];
      destruct (String.eqb slides' ""); [apply emits_only_ret|];
      match goal with |- emits_only _ (let '(_, _) := ?x in _) => destruct x end;
      apply emits_only_bind; [apply footprint_generate_slide_embed|intros ?];
      apply emits_only_ret
     |intros slide_part; footprint]).
Qed.

Lemma footprint_render_sections w config github_repo sections order :
  emits_only index_event (render_sections w config github_repo sections order).
Proof.
  induction order as [|section order IH]; cbn; [apply emits_only_ret|].
  apply emits_only_bind; [apply footprint_render_section|intros md].
  apply emits_only_bind; [apply IH|intros rest; apply emits_only_ret].
Qed.

(** [create_index] writes the index page once, as its last step, and only
    when every part was rendered: a run that raises or exits has written no
    index page. *)
Theorem create_index_writes_last w notebooks config output_dir t :
  match create_index w notebooks config output_dir t with
  | Return _ t' =>
      exists added notebooks_md,
        t' = t ++ added ++ [WriteIndex (joinpath output_dir "index.html") notebooks_md]
        /\ forallb index_event added = true
  | Exit _ t' | Raise _ t' =>
      exists added, t' = t ++ added /\ forallb index_event added = true
  end.
Proof.
  unfold create_index. destruct (github_repo config) as [repo|].
  2:{ exists []. by rewrite app_nil_r. }
  unfold mbind, M_bind.
  destruct (footprint_render_root w config output_dir t) as (a1 & H1 & H2).
  destruct (render_root w config output_dir t) as [root_md t1|c t1|e t1]; cbn in H1;
    subst t1; [|by eauto..].
  destruct (footprint_render_sections w config repo (group_by_section notebooks)
              (section_order config (group_by_section notebooks)) (t ++ a1))
    as (a2 & H3 & H4).
  destruct (render_sections _ _ _ _ _ _) as [sections_md t2|c t2|e t2]; cbn in H3; subst t2.
  - exists (a1 ++ a2), (root_md ++ sections_md). unfold emit.
    split; [by rewrite !(assoc_L (++))|]. by rewrite forallb_app, H2, H4.
  - exists (a1 ++ a2). split; [by rewrite (assoc_L (++))|]. by rewrite forallb_app, H2, H4.
  - exists (a1 ++ a2). split; [by rewrite (assoc_L (++))|]. by rewrite forallb_app, H2, H4.
Qed.



(** ** A missing slide file, before anything of the item is written *)

Lemma adds_bind {A B} (allowed : event -> bool) (m : M A) (f : A -> M B) t :
  emits_only allowed m ->
  (forall a t1, m t = Return a t1 ->
     exists added, trace_of (f a t1) = t1 ++ added /\ forallb allowed added = true) ->
  exists added, trace_of ((m ≫= f) t) = t ++ added /\ forallb allowed added = true.
Proof.
  intros Hm Hf. destruct (Hm t) as (a1 & H1 & H2). unfold mbind, M_bind.
  destruct (m t) as [a t1| |]; cbn in *; [|by eauto..]. subst t1.
  destruct (Hf a _ eq_refl) as (a2 & H3 & H4). exists (a1 ++ a2).
  by rewrite H3, (assoc_L (++)), forallb_app, H2, H4.
Qed.

Lemma adds_nothing (allowed : event -> bool) {A} (o : outcome A) t :
  trace_of o = t -> exists added, trace_of o = t ++ added /\ forallb allowed added = true.
Proof. intros ->. exists []. by rewrite app_nil_r. Qed.

Lemma c7_notebook_slides_missing : notebook_slides_missing c7_world c7_config intro_path.
Proof.
  eexists _, _, _, "slides.pdf".
  split; [intros t; reflexivity|]. split; [reflexivity|].
  split; [vm_compute; reflexivity|]. split; [reflexivity|]. split; [done|].
  intros t. split; reflexivity.
Qed.

(** When the merged metadata of a notebook declares a slide file that is
    found neither beside the notebook nor as a path of its own, the run of
    [process_notebook] has only made directories and copied referenced
    files: neither variant of the notebook and no archive is written. *)
Theorem missing_slides_leave_no_notebook w config notebook_path output_dir t :
  notebook_slides_missing w config notebook_path ->
  exists added,
    trace_of (process_notebook w notebook_path output_dir config t) = t ++ added
    /\ forallb copy_event added = true.
Proof.
  intros (nb & metadata & md & sf & Hload & Hmeta & Hmerged & Hsf & Hne & Hmiss).
  unfold process_notebook. rewrite observe_return, Hload.
  rewrite (bind_run _ _ _ _ _ (lift_ok (JDict nb) t)), Hmeta.
  rewrite (bind_run _ _ _ _ _ (lift_ok metadata t)), Hmerged.
  rewrite (bind_run _ _ _ _ _ (lift_ok (JDict md) t)).
  rewrite (truthy_dict _ _ _ Hsf). cbn [negb].
  apply adds_bind; [apply emits_only_lift|intros nb_metadata t1 _].
  apply adds_bind; [apply emits_only_lift|intros cells t2 _].
  apply adds_bind; [apply emits_only_lift|intros exercise_cells t3 _].
  apply adds_bind; [destruct (_ || _); [apply emits_only_lift|apply emits_only_ret]|].
  intros setup_cells t4 _.
  apply adds_bind; [by apply emits_only_emit|intros _ t5 _].
  apply adds_bind; [by apply emits_only_emit|intros _ t6 _].
  apply adds_bind; [apply footprint_find_and_copy|intros _ t7 _].
  rewrite (get_lookup _ _ _ Hsf), (truthy_str _ Hne).
  apply adds_nothing. unfold mbind, M_bind.
  by rewrite copy_slide_file_missing.
Qed.

Lemma missing_slides_leave_no_notebook_witness :
  exists added,
    trace_of (process_notebook c7_world intro_path (Path "docs") c7_config []) = [] ++ added
    /\ forallb copy_event added = true.
Proof.
  apply (missing_slides_leave_no_notebook c7_world c7_config intro_path (Path "docs") []).
  apply c7_notebook_slides_missing.
Defined.

(** ** The deep merge, key by key *)

(** [_deep_merge] of two mappings returns a mapping that holds, under each
    key: the base's value when the override lacks the key; the merge of the
    two values when both are mappings; the override's value otherwise. *)
Theorem deep_merge_by_key (base override : gmap string json) :
  exists result,
    _deep_merge (JDict base) (JDict override) = Ok (JDict result)
    /\ forall k,
         match override !! k, base !! k with
         | None, cur => result !! k = cur
         | Some (JDict v), Some (JDict cur) =>
             exists r, _deep_merge (JDict cur) (JDict v) = Ok r /\ result !! k = Some r
         | Some v, _ => result !! k = Some v
         end.
Proof.
  exists (merge_items (JDict override) base). split; [apply deep_merge_dicts|].
  intros k. rewrite merge_items_lookup. unfold step, merged_value.
  destruct (override !! k) as [v|]; [|done].
  destruct v as [| | | | |v]; try done.
  destruct (base !! k) as [[| | | | |cur]|]; try done.
  eexists. split; [apply deep_merge_dicts|done].
Qed.

(** The keys of the result of [_deep_merge] are those of the base together
    with those of the override: a merge never drops a key. *)
Theorem deep_merge_keeps_keys (base override : gmap string json) :
  exists result,
    _deep_merge (JDict base) (JDict override) = Ok (JDict result)
    /\ dom result = dom base ∪ dom override.
Proof.
  exists (merge_items (JDict override) base). split; [apply deep_merge_dicts|].
  apply set_eq. intros k. rewrite elem_of_union, !elem_of_dom, merge_items_lookup.
  unfold step. destruct (override !! k) as [v|], (base !! k) as [x|];
    split; intros H; eauto; destruct H as [[? [=]]|[? [=]]] || idtac;
    try (by destruct H as [H|H]; destruct H as [? [=]]).
Qed.

(** The edge cases of [_deep_merge]: an override that is falsy ([None], an
    empty mapping, ...) leaves a copy of the base, a base that is no mapping
    counts as the empty one, and an override that is truthy but no mapping
    raises [AttributeError]. *)
Theorem deep_merge_edge_cases :
  (forall base override,
     truthy override = false ->
     _deep_merge base override
     = Ok (JDict match base with JDict b => b | _ => ∅ end))
  /\ (forall base (override : gmap string json),
        is_dict base = false -> _deep_merge base (JDict override) = Ok (JDict override))
  /\ (forall base override,
        truthy override = true -> is_dict override = false ->
        _deep_merge base override = Err AttributeError).
Proof.
  split; [|split].
  - intros base override H. unfold _deep_merge. by rewrite H.
  - intros base override H. unfold _deep_merge.
    destruct base; try done; cbn [truthy];
      (destruct (size override =? 0)%nat eqn:E; cbn [negb];
       [apply Nat.eqb_eq, map_size_empty_inv in E; by subst
       |by rewrite merge_items_empty_base]).
  - intros base override H1 H2. unfold _deep_merge. rewrite H1. by destruct override.
Qed.

(** Merging the same override a second time changes nothing. *)
Theorem deep_merge_idempotent (base override : gmap string json) :
  (_deep_merge (JDict base) (JDict override) ≫= fun merged =>
   _deep_merge merged (JDict override))
  = _deep_merge (JDict base) (JDict override).
Proof.
  rewrite deep_merge_dicts. cbn [mbind result_bind]. rewrite deep_merge_dicts.
  do 2 f_equal. apply (merge_all_absorb [] override base).
Qed.

(** ** Overrides, rule by rule *)

Lemma matching_values_app rel file_name rules rules' :
  matching_values rel file_name (rules ++ rules')
  = matching_values rel file_name rules ++ matching_values rel file_name rules'.
Proof.
  induction rules as [|[pat vals] rules IH]; [done|]. cbn.
  destruct pat; try done. destruct vals; try done.
  destruct (rule_matches rel file_name s); [by rewrite IH|done].
Qed.


Lemma fold_step_some x ws : is_Some x -> is_Some (foldl step x ws).
Proof.
  revert x. induction ws as [|a ws IH]; intros x Hx; [done|]. cbn. apply IH.
  destruct a; [by eexists|done].
Qed.

(** When no rule of the configuration applies to a file,
    [apply_metadata_overrides] returns the metadata it was given: the same
    mapping, or the empty mapping for metadata that is falsy. *)
Theorem overrides_without_match w file_path meta config :
  Forall (rule_misses (rel_of w file_path) (name file_path))
    (_iter_metadata_overrides config) ->
  (truthy meta = true -> is_dict meta = true) ->
  apply_metadata_overrides w file_path meta config
  = Ok (if truthy meta then meta else JDict ∅).
Proof.
  intros Hmiss Hmeta. unfold apply_metadata_overrides, dict_copy. fold (rel_of w file_path).
  assert (Hrules : forall m : json,
            apply_rules (rel_of w file_path) (name file_path) m
              (_iter_metadata_overrides config) = Ok m).
  { intros m. induction Hmiss as [|[pat vals] rules (pattern & Hpat & Hno) _ IH]; [done|].
    cbn in *. subst pat. unfold apply_rule. cbn [fst snd]. by rewrite Hno. }
  destruct (truthy meta); [|apply Hrules].
  specialize (Hmeta eq_refl). destruct meta; try done. apply Hrules.
Qed.

Lemma overrides_without_match_witness :
  apply_metadata_overrides c6_world (Path "notes/readme.txt")
    (JDict {[ "title" := JStr "Read me" ]}) x_config
  = Ok (if truthy (JDict {[ "title" := JStr "Read me" ]})
        then JDict {[ "title" := JStr "Read me" ]} else JDict ∅).
Proof.
  apply (overrides_without_match c6_world (Path "notes/readme.txt")
           (JDict {[ "title" := JStr "Read me" ]}) x_config).
  - repeat constructor; eexists; (split; [reflexivity|vm_compute; reflexivity]).
  - reflexivity.
Defined.

(** The last rule that applies to a file and has a key decides it: when
    its value there is no mapping, that value is what the merged metadata
    holds, whatever the metadata and the earlier rules had. *)
Theorem last_matching_rule_wins w file_path meta config merged
    before pattern (values : gmap string json) after k v :
  _iter_metadata_overrides config = before ++ (JStr pattern, JDict values) :: after ->
  rule_matches (rel_of w file_path) (name file_path) pattern = true ->
  values !! k = Some v -> is_dict v = false ->
  Forall (rule_silent (rel_of w file_path) (name file_path) k) after ->
  apply_metadata_overrides w file_path meta config = Ok merged ->
  exists m, merged = JDict m /\ m !! k = Some v.
Proof.
  intros Hrules Hmatch Hk Hv Hafter H.
  unfold apply_metadata_overrides in H. fold (rel_of w file_path) in H.
  destruct (dict_copy meta) as [m0|] eqn:Hc; [|done].
  destruct (dict_copy_dict _ _ Hc) as [m ->]. cbn [mbind result_bind] in H.
  apply (apply_rules_ok _ _ _ (iter_overrides_values config)) in H. subst merged.
  eexists. split; [done|].
  rewrite merge_all_lookup, Hrules, matching_values_app, map_app, foldl_app.
  cbn [matching_values]. rewrite Hmatch. cbn [map foldl]. rewrite Hk.
  set (x := foldl step (m !! k) _).
  assert (Hx : step x (Some v) = Some v) by (unfold step, merged_value; by destruct v).
  rewrite Hx. clear Hx x Hrules.
  induction Hafter as [|[pat vals] after (p & Hp & Hsilent) _ IH]; [done|].
  cbn in *. subst pat. destruct vals as [| | | | |vals]; try done.
  destruct Hsilent as [Hno|(values' & [= <-] & Hnone)].
  - by rewrite Hno.
  - destruct (rule_matches _ _ p); [|done]. cbn. by rewrite Hnone.
Qed.

Lemma last_matching_rule_wins_witness :
  exists m,
    JDict (<["title" := JStr "Section one"]> {[ "install" := JStr "pandas" ]}) = JDict m
    /\ m !! "title" = Some (JStr "Section one").
Proof.
  apply (last_matching_rule_wins c6_world intro_path (JDict {[ "title" := JStr "Old" ]})
           x_config _
           [(JStr "*.ipynb",
             JDict {[ "title" := JStr "Notebook"; "install" := JStr "pandas" ]})]
           "section1/*" {[ "title" := JStr "Section one" ]}
           [(JStr "*.md", JDict {[ "title" := JStr "Page" ]})] "title" (JStr "Section one")).
  - reflexivity.
  - vm_compute. reflexivity.
  - reflexivity.
  - reflexivity.
  - repeat constructor. exists "*.md". split; [reflexivity|]. left. vm_compute. reflexivity.
  - vm_compute. reflexivity.
Defined.

(** Overrides never remove a key: every key of the metadata passed in is a
    key of the merged metadata. *)
Theorem overrides_keep_keys w file_path (meta : gmap string json) config merged k :
  apply_metadata_overrides w file_path (JDict meta) config = Ok merged ->
  is_Some (meta !! k) ->
  exists m, merged = JDict m /\ is_Some (m !! k).
Proof.
  intros H Hk. unfold apply_metadata_overrides in H. rewrite dict_copy_of_dict in H.
  cbn [mbind result_bind] in H.
  apply (apply_rules_ok _ _ _ (iter_overrides_values config)) in H. subst merged.
  eexists. split; [done|]. rewrite merge_all_lookup. by apply fold_step_some.
Qed.

Lemma overrides_keep_keys_witness :
  exists m,
    JDict (<["title" := JStr "Section one"]>
             (<["install" := JStr "pandas"]> {[ "order" := JNum 3 ]})) = JDict m
    /\ is_Some (m !! "order").
Proof.
  apply (overrides_keep_keys c6_world intro_path {[ "order" := JNum 3 ]} x_config _ "order").
  - vm_compute. reflexivity.
  - by eexists.
Defined.

(** ** The table of contents *)

Lemma anchor_safe_char c :
  anchor_char c = true -> anchor_safe (hyphenate (to_lower c)) = true.
Proof. destruct c as [[] [] [] [] [] [] [] []]; vm_compute; done. Qed.

(** An anchor holds no space and no upper-case letter: every character is
    a lower-case letter, a digit, an underscore, a hyphen or white space
    other than the space, and the anchor neither starts nor ends with white
    space. *)
Theorem anchor_characters header :
  forallb anchor_safe (chars (anchor header)) = true
  /\ (forall c rest, chars (anchor header) = c :: rest -> is_space c = false)
  /\ (forall c front, chars (anchor header) = front ++ [c] -> is_space c = false).
Proof.
  unfold anchor. rewrite chars_text.
  set (kept := filter (fun c => anchor_char c = true) (chars header)).
  assert (Hkept : Forall (fun c => anchor_char c = true) (strip kept)).
  { apply strip_Forall, Forall_forall. intros c Hc.
    by apply list_elem_of_filter in Hc as [? _]. }
  assert (Hkeep : forall c, is_space c = false -> is_space (hyphenate (to_lower c)) = false).
  { intros c. destruct c as [[] [] [] [] [] [] [] []]; vm_compute; done. }
  assert (Hl : forall l c rest, lstrip l = c :: rest -> is_space c = false).
  { induction l as [|x l IH]; intros c rest; cbn; [done|].
    destruct (is_space x) eqn:E; [apply IH|]. by intros [= <- _]. }
  split; [|split].
  - apply forallb_forall. intros c Hc. apply list_elem_of_In in Hc.
    apply list_elem_of_fmap in Hc as (c1 & -> & Hc1). unfold lower in Hc1.
    apply list_elem_of_In, in_map_iff in Hc1 as (c0 & <- & Hc0).
    apply anchor_safe_char. apply list_elem_of_In in Hc0.
    by apply (proj1 (Forall_forall _ _) Hkept).
  - intros c rest H. unfold lower, strip in H.
    destruct (lstrip kept) as [|k0 ks] eqn:Ek; [done|].
    assert (Hk0 : is_space k0 = false) by (by eapply Hl).
    assert (Hgen : forall l, exists tail, lstrip (l ++ [k0]) = tail ++ [k0]).
    { induction l as [|x l IH]; cbn.
      - rewrite Hk0. by exists [].
      - destruct (is_space x); [apply IH|]. by exists (x :: l). }
    cbn [rev] in H. destruct (Hgen (rev ks)) as [tail Htail].
    rewrite Htail, rev_app_distr in H. cbn in H. injection H as <- _. by apply Hkeep.
  - intros c front H. unfold lower, strip in H.
    destruct (lstrip (rev (lstrip kept))) as [|c0 l0] eqn:E.
    { by destruct front. }
    cbn [rev] in H. rewrite map_app, fmap_app in H. cbn in H.
    apply app_inj_tail in H as [_ <-]. apply Hkeep. by eapply Hl.
Qed.

Lemma append_nl_nonempty s : s +:+ nl <> "".
Proof. by destruct s. Qed.

(** The table of contents is the empty string exactly when there is nothing
    to list: no links are declared and no line of the body is a second-level
    heading. *)
Theorem toc_empty_iff markdown_content has_useful_links :
  generate_toc_from_markdown markdown_content has_useful_links = ""
  <-> has_useful_links = false /\ find_headers markdown_content = [].
Proof.
  unfold generate_toc_from_markdown, toc_headers. split.
  - destruct has_useful_links; cbn [app].
    + intros H. by apply append_nl_nonempty in H.
    + destruct (find_headers markdown_content); [done|].
      intros H. by apply append_nl_nonempty in H.
  - intros [-> ->]. reflexivity.
Qed.

(** ** Set-up cells *)





(** ** A configuration without [github_repo] *)

Lemma tame_publish w commit : tame (publish w commit).
Proof. unfold publish. tame. Qed.

(** Without [github_repo] in the configuration, no index page is ever
    written: [create_index] raises [KeyError] before it renders anything,
    and [main] can only return when there was nothing to put on the page. *)
Theorem missing_repo_writes_no_index w config commit t :
  github_repo config = None ->
  index_written (trace_of (main w config commit t)) = index_written t
  /\ (forall notebooks output_dir t0,
        create_index w notebooks config output_dir t0 = Raise (KeyError "github_repo") t0)
  /\ (forall items t', main w config commit t = Return items t' ->
        items = [] /\ has_root_content config = false).
Proof.
  intros Hrepo.
  assert (Hci : forall notebooks output_dir t0,
            create_index w notebooks config output_dir t0
            = Raise (KeyError "github_repo") t0).
  { intros. unfold create_index. by rewrite Hrepo. }
  set (output_dir := Path (default "docs" (cfg_output_dir config))).
  assert (Hrest : forall sections t1,
    let o := (process_sections w config output_dir sections ≫= fun processed_items =>
              (match processed_items with
               | [] => if has_root_content config
                       then create_index w processed_items config output_dir
                       else mret tt
               | _ => create_index w processed_items config output_dir
               end) ≫= fun _ =>
              publish w commit ≫= fun _ => mret processed_items) t1 in
    index_written (trace_of o) = index_written t1
    /\ forall items t', o = Return items t' ->
         items = [] /\ has_root_content config = false).
  { intros sections t1. cbv zeta. unfold mbind, M_bind.
    destruct (tame_process_sections w config output_dir sections t1) as [H1 _].
    destruct (process_sections w config output_dir sections t1) as [items t2|c t2|e t2];
      cbn [trace_of] in H1; [|by split..].
    destruct items as [|it items].
    - destruct (has_root_content config).
      + rewrite Hci. by split.
      + cbn. destruct (tame_publish w commit t2) as [H2 _].
        destruct (publish w commit t2) as [[] t3|c t3|e t3]; cbn [trace_of] in *;
          unfold mret, M_ret; cbn [trace_of];
          (split; [congruence|]); [|done..].
        by intros items t' [= <- _].
    - rewrite Hci. by split. }
  split; [|split; [exact Hci|]].
  - unfold main. fold output_dir. rewrite observe_return.
    destruct (exists_ w t output_dir).
    + rewrite !emit_return.
      destruct (cfg_sections config) as [|s sections];
        [destruct (has_root_content config)|];
        first [ destruct (Hrest [] ((t ++ [Rmtree output_dir]) ++ [Mkdir output_dir]))
                  as [H _]; cbv zeta in H; rewrite H
              | destruct (Hrest (s :: sections)
                            ((t ++ [Rmtree output_dir]) ++ [Mkdir output_dir]))
                  as [H _]; cbv zeta in H; rewrite H
              | cbn ];
        by rewrite !index_written_app, !orb_false_r.
    + unfold mbind at 1, M_bind at 1, mret at 1, M_ret at 1. rewrite emit_return.
      destruct (cfg_sections config) as [|s sections];
        [destruct (has_root_content config)|];
        first [ destruct (Hrest [] (t ++ [Mkdir output_dir])) as [H _];
                cbv zeta in H; rewrite H
              | destruct (Hrest (s :: sections) (t ++ [Mkdir output_dir])) as [H _];
                cbv zeta in H; rewrite H
              | cbn ];
        by rewrite !index_written_app, !orb_false_r.
  - intros items t'. unfold main. fold output_dir. rewrite observe_return.
    destruct (exists_ w t output_dir).
    + rewrite !emit_return.
      destruct (cfg_sections config) as [|s sections];
        [destruct (has_root_content config) eqn:Hroot|].
      * intros H. by apply (Hrest [] _) in H.
      * by intros [= <- _].
      * intros H. by apply (Hrest (s :: sections) _) in H.
    + unfold mbind at 1, M_bind at 1, mret at 1, M_ret at 1. rewrite emit_return.
      destruct (cfg_sections config) as [|s sections];
        [destruct (has_root_content config) eqn:Hroot|].
      * intros H. by apply (Hrest [] _) in H.
      * by intros [= <- _].
      * intros H. by apply (Hrest (s :: sections) _) in H.
Qed.

Lemma missing_repo_writes_no_index_witness :
  index_written (trace_of (main plain_world no_repo_config false [])) = index_written []
  /\ exists nb1 nb2,
       main plain_world no_repo_config false []
       = Raise (KeyError "github_repo")
           [Mkdir (Path "docs"); Mkdir (Path "docs"); Mkdir (Path "docs/section1");
            WriteNotebook (Path "docs/section1/intro.ipynb") nb1;
            WriteNotebook (Path "docs/section1/intro-ANSWERS.ipynb") nb2].
Proof.
  split.
  - apply (missing_repo_writes_no_index plain_world no_repo_config false []). reflexivity.
  - eexists _, _. vm_compute. reflexivity.
Defined.

(** ** The sections of the index *)

Lemma section_items_add it sections s :
  section_items_of (add_to_section it sections) s
  = section_items_of sections s ++ (if String.eqb (item_section it) s then [it] else []).
Proof.
  induction sections as [|[s' its] sections IH]; cbn.
  - by rewrite String.eqb_sym.
  - destruct (String.eqb_spec s' (item_section it)) as [->|Hne]; cbn.
    + destruct (String.eqb_spec (item_section it) s); [done|]. by rewrite app_nil_r.
    + destruct (String.eqb_spec s' s) as [->|_]; [|apply IH].
      destruct (String.eqb_spec (item_section it) s); [by subst|]. by rewrite app_nil_r.
Qed.


Lemma group_by_section_snoc items it :
  group_by_section (items ++ [it]) = add_to_section it (group_by_section items).
Proof. unfold group_by_section. by rewrite foldl_app. Qed.

Lemma section_items_grouped items s :
  section_items_of (group_by_section items) s
  = filter (fun it => item_section it = s) items.
Proof.
  induction items as [|it items IH] using rev_ind; [done|].
  rewrite group_by_section_snoc, section_items_add, IH, filter_app.
  f_equal. rewrite filter_cons, filter_nil.
  destruct (String.eqb_spec (item_section it) s), (decide (item_section it = s)); done.
Qed.




(** A draft section whose title no other record shares is rendered as its
    heading, its description when it has one, and the notice that content
    comes later, and rendering it touches nothing. *)
Theorem lone_draft_section_shows_notice w config github_repo (notebooks : list item)
    title folder description t :
  filter (fun it => item_section it = title) notebooks
  = [DraftPlaceholder title folder description] ->
  render_section w config github_repo title
    (section_items_of (group_by_section notebooks) title) t
  = Return ([section_heading title]
            ++ (if truthy description then [draft_description w description] else [])
            ++ [draft_notice]) t.
Proof. intros H. by rewrite section_items_grouped, H. Qed.

Lemma lone_draft_section_shows_notice_witness :
  render_section c8_world base_config "jsoma/workshop" "Week 3"
    (section_items_of (group_by_section x_items) "Week 3") []
  = Return ([section_heading "Week 3"]
            ++ (if truthy (JStr "Later.")
                then [draft_description c8_world (JStr "Later.")] else [])
            ++ [draft_notice]) [].
Proof.
  apply (lone_draft_section_shows_notice c8_world base_config "jsoma/workshop" x_items
           "Week 3" "week3" (JStr "Later.") []).
  reflexivity.
Defined.

(** ** Archives *)

Lemma zip_members_app t t' : zip_members (t ++ t') = zip_members t ++ zip_members t'.
Proof. unfold zip_members. apply omap_app. Qed.

Lemma zip_members_cons z f a t :
  zip_members (ZipMember z f a :: t) = as_posix f :: zip_members t.
Proof. reflexivity. Qed.

Lemma zip_matches_members zip_path base_dir matches : forall added_files t,
  exists added,
    zip_matches zip_path base_dir matches added_files t
    = Return (added_files ++ zip_members added) (t ++ added)
    /\ (NoDup added_files -> NoDup (added_files ++ zip_members added))
    /\ Forall (fun e => exists f a, e = ZipMember zip_path f a) added.
Proof.
  induction matches as [|m matches IH]; intros af t; cbn.
  - exists []. by rewrite !app_nil_r.
  - case_bool_decide as Hin.
    + apply IH.
    + unfold mbind, M_bind, emit.
      destruct (IH (af ++ [as_posix (Path m)])
                  (t ++ [ZipMember zip_path (Path m)
                           (as_posix (default (Path m) (relative_to (Path m) base_dir)))]))
        as (added & H1 & H2 & H3).
      eexists (_ :: added). rewrite H1. split; [|split].
      * rewrite zip_members_cons. by rewrite <- !(assoc_L (++)).
      * intros Hnd. rewrite zip_members_cons.
        change (as_posix (Path m) :: zip_members added)
          with ([as_posix (Path m)] ++ zip_members added).
        rewrite (assoc_L (++)). apply H2.
        apply NoDup_app. split; [done|]. split; [|apply NoDup_singleton].
        intros x Hx ->%list_elem_of_singleton. done.
      * constructor; [by eauto|done].
Qed.

Lemma zip_patterns_members w zip_path base_dir patterns : forall added_files t,
  exists added,
    trace_of (zip_patterns w zip_path base_dir patterns added_files t) = t ++ added
    /\ (NoDup added_files -> NoDup (added_files ++ zip_members added))
    /\ Forall (fun e => exists f a, e = ZipMember zip_path f a) added.
Proof.
  induction patterns as [|p patterns IH]; intros af t; cbn.
  - exists []. by rewrite !app_nil_r.
  - destruct p; try (exists []; by rewrite !app_nil_r).
    rewrite observe_return. unfold mbind, M_bind.
    destruct (zip_matches_members zip_path base_dir
                (glob w t (as_posix (joinpath base_dir s))) af t)
      as (a1 & H1 & H2 & H3).
    rewrite H1.
    destruct (IH (af ++ zip_members a1) (t ++ a1)) as (a2 & H4 & H5 & H6).
    exists (a1 ++ a2). rewrite H4. split; [by rewrite (assoc_L (++))|]. split.
    + intros Hnd. rewrite zip_members_app, (assoc_L (++)). auto.
    + by apply Forall_app.
Qed.

(** [create_data_zip] starts a new archive and adds every matched file to
    it at most once, however its patterns overlap, and it writes to no other
    archive. *)
Theorem archive_has_no_duplicates w data_patterns zip_path base_dir t :
  exists added,
    trace_of (create_data_zip w data_patterns zip_path base_dir t)
    = t ++ CreateZip zip_path :: added
    /\ NoDup (zip_members added)
    /\ Forall (fun e => exists f a, e = ZipMember zip_path f a) added.
Proof.
  unfold create_data_zip. rewrite emit_return. unfold mbind, M_bind.
  destruct (iterate data_patterns) as [patterns|e]; cbn [lift].
  - unfold mret, M_ret.
    destruct (zip_patterns_members w zip_path base_dir patterns [] (t ++ [CreateZip zip_path]))
      as (added & H1 & H2 & H3).
    exists added. rewrite H1, <- (assoc_L (++)). split; [done|]. split; [|done].
    apply (H2 (NoDup_nil_2)).
  - exists []. unfold raise. cbn. split; [done|]. split; constructor.
Qed.

(** ** The notebooks that are written *)

Lemma normalize_kernelspec_spec original ks md :
  normalize_kernelspec original = Ok ks ->
  published_metadata original (<["workshop" := JDict md]> ks) md.
Proof.
  unfold normalize_kernelspec. intros H.
  destruct (match original !! "kernelspec" with
            | None => Ok ∅
            | Some (JDict ks) => Ok ks
            | Some _ => Err TypeError
            end) as [ks0|] eqn:E; [|done].
  cbn in H. injection H as <-. split; [|split].
  - by rewrite lookup_insert_eq.
  - eexists. rewrite lookup_insert_ne, lookup_insert_eq by done. split; [done|].
    split; [by rewrite !lookup_insert_ne, lookup_insert_eq by done|].
    split; [by rewrite lookup_insert_ne, lookup_insert_eq by done|].
    split; [by rewrite lookup_insert_eq|].
    intros key H1 H2 H3. rewrite !lookup_insert_ne by done.
    destruct (original !! "kernelspec") as [[]|]; by simplify_eq.
  - intros key H1 H2. by rewrite !lookup_insert_ne by done.
Qed.

(** Both variants of a published notebook are the notebook that was loaded
    with new cells and metadata: every other top-level key is kept, and the
    metadata declares the Python 3 kernel (name, display name and language,
    whatever the notebook declared), carries the merged workshop metadata
    and keeps its other keys. *)
Theorem written_notebooks_keep_the_rest w notebook_path output_dir config t info t' :
  process_notebook w notebook_path output_dir config t = Return (Some info) t' ->
  exists nb metadata md pre exercise complete,
    load_notebook w t notebook_path = Ok (JDict nb)
    /\ get_notebook_metadata (JDict nb) = Ok metadata
    /\ apply_metadata_overrides w notebook_path metadata config = Ok (JDict md)
    /\ t' = pre ++ [WriteNotebook (exercise_path notebook_path output_dir) (JDict exercise);
                    WriteNotebook (answers_path notebook_path output_dir) (JDict complete)]
    /\ published_variant nb exercise md
    /\ published_variant nb complete md.
Proof.
  unfold process_notebook. rewrite observe_return. intros H.
  apply bind_return in H as (notebook & t1 & [Hload ->]%lift_return & H).
  apply bind_return in H as (metadata & t1 & [Hmeta ->]%lift_return & H).
  apply bind_return in H as (merged & t1 & [Hmerged ->]%lift_return & H).
  destruct notebook as [| | | | |nb]; try done. destruct merged as [| | | | |md]; try done.
  destruct (negb (truthy (JDict md))); [done|].
  apply bind_return in H as (ks & t1 & [Hks ->]%lift_return & H).
  apply bind_return in H as (cells & t1 & [Hcells ->]%lift_return & H).
  apply bind_return in H as (exercise_cells & t1 & [Hex ->]%lift_return & H).
  apply bind_return in H as (setup_cells & t1 & Hsetup & H).
  rewrite !emit_return in H.
  apply bind_return in H as ([] & t2 & _ & H).
  apply bind_return in H as (slide_cells & t3 & Hslide & H).
  apply bind_return in H as ([] & t4 & _ & H).
  rewrite !emit_return in H. unfold mret, M_ret in H. injection H as <- <-.
  pose proof (normalize_kernelspec_spec _ _ md Hks) as Hpub.
  eexists nb, metadata, md, t4, _, _. do 3 (split; [done|]).
  split; [rewrite <- (assoc_L (++)); reflexivity|].
  split; (split; [eexists; split; [by rewrite lookup_insert_ne, lookup_insert_eq by done|done]|]);
    intros key H1 H2; by rewrite !lookup_insert_ne by done.
Qed.

Lemma written_notebooks_keep_the_rest_witness :
  exists info t',
    process_notebook plain_world intro_path (Path "docs") base_config [] = Return (Some info) t'
    /\ exists nb md exercise complete,
         load_notebook plain_world [] intro_path = Ok (JDict nb)
         /\ published_variant nb exercise md
         /\ published_variant nb complete md.
Proof.
  assert (E : exists info t',
             process_notebook plain_world intro_path (Path "docs") base_config []
             = Return (Some info) t') by (eexists _, _; vm_compute; reflexivity).
  destruct E as (info & t' & E). exists info, t'. split; [exact E|].
  destruct (written_notebooks_keep_the_rest _ _ _ _ _ _ _ E)
    as (nb & _ & md & _ & exercise & complete & H1 & _ & _ & _ & H2 & H3).
  exists nb, md, exercise, complete. split; [exact H1|]. split; [exact H2|exact H3].
Defined.

(** ** Ties in the order of the items *)

Section stable.
Context {A K : Type} (leb : K -> K -> bool) (key : A -> K).
Context (P : A -> Prop) `{!forall x, Decision (P x)}.
Hypothesis tied : forall x y, P x -> P y -> leb (key x) (key y) = true.

Lemma insert_by_filter x l : filter P (insert_by leb key x l) = filter P (x :: l).
Proof.
  induction l as [|y l IH]; [done|]. cbn [insert_by].
  destruct (leb (key x) (key y)) eqn:E; [done|].
  rewrite (filter_cons _ y), IH, !(filter_cons _ x), (filter_cons _ y).
  destruct (decide (P x)) as [Hx|], (decide (P y)) as [Hy|]; try done.
  by rewrite (tied _ _ Hx Hy) in E.
Qed.

Lemma sorted_filter l : filter P (sorted leb key l) = filter P l.
Proof.
  induction l as [|x l IH]; [done|]. cbn [sorted].
  by rewrite insert_by_filter, !filter_cons, IH.
Qed.

Lemma filter_rev_list (l : list A) : filter P (rev l) = rev (filter P l).
Proof.
  induction l as [|x l IH]; [done|]. cbn [rev].
  rewrite filter_app, IH, !filter_cons, filter_nil.
  destruct (decide (P x)); [done|]. by rewrite app_nil_r.
Qed.

Lemma sorted_reverse_filter l : filter P (sorted_reverse leb key l) = filter P l.
Proof.
  unfold sorted_reverse.
  by rewrite filter_rev_list, sorted_filter, filter_rev_list, rev_involutive.
Qed.
End stable.

Lemma filter_fmap_snd {A B} (P : B -> Prop) `{!forall x, Decision (P x)} (l : list (A * B)) :
  filter P (l.*2) = (filter (fun ab => P ab.2) l).*2.
Proof.
  induction l as [|[a b] l IH]; [done|]. rewrite fmap_cons, !filter_cons. cbn [snd].
  destruct (decide (P b)); by rewrite ?fmap_cons, IH.
Qed.

Lemma filter_ext_in {A} (P Q : A -> Prop) `{!forall x, Decision (P x)}
    `{!forall x, Decision (Q x)} (l : list A) :
  (forall x, x ∈ l -> P x <-> Q x) -> filter P l = filter Q l.
Proof.
  induction l as [|x l IH]; intros Hext; [done|]. rewrite !filter_cons.
  assert (Hx : P x <-> Q x) by (apply Hext; left).
  rewrite IH by (intros y Hy; apply Hext; by right).
  destruct (decide (P x)), (decide (Q x)); tauto || done.
Qed.

Lemma filter_none {A} (P : A -> Prop) `{!forall x, Decision (P x)} (l : list A) :
  (forall x, x ∈ l -> ~ P x) -> filter P l = [].
Proof.
  induction l as [|x l IH]; intros Hno; [done|]. rewrite filter_cons.
  destruct (decide (P x)) as [Hx|_]; [by destruct (Hno x (list_elem_of_here _ _))|].
  apply IH. intros y Hy. apply Hno. by right.
Qed.

Lemma key_leb_refl a : key_leb a a = true.
Proof. by destruct (key_leb_total a a). Qed.

Lemma string_leb_refl s : String.leb s s = true.
Proof. by destruct (String.leb_total s s). Qed.

(** The ordering of a section is stable: records that it cannot tell
    apart (the same ordering key, or no key and the same name) are rendered
    in the order in which they were collected. *)
Theorem ties_keep_their_order (section_items l : list item) k nm :
  sorted_items section_items = Ok l ->
  filter (tied_with k nm) l = filter (tied_with k nm) section_items.
Proof.
  intros H. unfold sorted_items in H.
  destruct (map_result _ section_items) as [keyed|] eqn:Hk; [|done].
  cbn [mbind result_bind] in H.
  destruct (existsb is_int_key keyed && existsb is_str_key keyed); [done|].
  apply keyed_items in Hk.
  set (S := sorted key_leb sort_key keyed) in *.
  set (W := filter (fun ki => has_order ki = true) S) in *.
  set (F := filter (fun ki => has_order ki = false) S) in *.
  set (U := sorted_reverse String.leb (fun ki : option order_key * item => item_name ki.2) F)
    in *.
  injection H as <-.
  set (T := fun ki : option order_key * item =>
              ki.1 = item_key ki.2 /\ tied_with k nm ki.2).
  assert (Hkeyed : forall ki, ki ∈ keyed -> ki.1 = item_key ki.2).
  { intros ki Hin. subst keyed. by apply list_elem_of_fmap in Hin as (it & -> & _). }
  assert (Hkeys : forall ki, ki ∈ S -> ki.1 = item_key ki.2).
  { intros ki Hin. unfold S in Hin. rewrite sorted_perm in Hin. by apply Hkeyed. }
  assert (Hsame : forall x y, T x -> T y -> sort_key x = sort_key y).
  { intros [kx x] [ky y] [Hx [Hx1 Hx2]] [Hy [Hy1 Hy2]]. cbn in *.
    unfold sort_key. cbn. rewrite Hx, Hy, Hx1, Hy1. destruct k; [done|].
    by rewrite Hx2, Hy2. }
  assert (HS : filter T S = filter T keyed).
  { apply sorted_filter. intros x y Hx Hy. rewrite (Hsame x y Hx Hy). apply key_leb_refl. }
  assert (Hend : (filter T keyed).*2 = filter (tied_with k nm) section_items).
  { subst keyed. clear. induction section_items as [|it items IH]; [done|].
    rewrite fmap_cons, !filter_cons.
    destruct (decide (T (item_key it, it))) as [[_ Ht]|Hn],
      (decide (tied_with k nm it)) as [Ht'|Hn']; cbn [snd] in *.
    - by rewrite fmap_cons, IH.
    - done.
    - destruct Hn. by split.
    - done. }
  rewrite filter_fmap_snd.
  rewrite (filter_ext_in (fun ki => tied_with k nm ki.2) T).
  2:{ intros ki Hin. unfold T. split; [|tauto]. intros Ht. split; [|done].
      apply Hkeys. apply elem_of_app in Hin as [Hin|Hin].
      - by apply list_elem_of_filter in Hin as [_ ?].
      - unfold U in Hin. rewrite sorted_reverse_perm in Hin.
        by apply list_elem_of_filter in Hin as [_ ?]. }
  rewrite filter_app, <- Hend, <- HS. f_equal.
  destruct k as [k0|].
  - rewrite (filter_none T U), app_nil_r.
    + unfold W. apply list_filter_filter_l. intros [kx x] [Hx [Hx1 _]]. cbn in *.
      unfold has_order. cbn. by rewrite Hx, Hx1.
    + intros [kx x] Hin [Hx [Hx1 _]]. unfold U in Hin. rewrite sorted_reverse_perm in Hin.
      apply list_elem_of_filter in Hin as [Ho _]. cbn in *.
      unfold has_order in Ho. cbn in Ho. by rewrite Hx, Hx1 in Ho.
  - rewrite (filter_none T W), app_nil_l.
    + unfold U. rewrite sorted_reverse_filter.
      * unfold F. apply list_filter_filter_l. intros [kx x] [Hx [Hx1 _]]. cbn in *.
        unfold has_order. cbn. by rewrite Hx, Hx1.
      * intros [kx x] [ky y] [_ [_ Hx]] [_ [_ Hy]]. cbn in *.
        rewrite (Hx eq_refl), (Hy eq_refl). apply string_leb_refl.
    + intros [kx x] Hin [Hx [Hx1 _]].
      apply list_elem_of_filter in Hin as [Ho _]. cbn in *.
      unfold has_order in Ho. cbn in Ho. by rewrite Hx, Hx1 in Ho.
Qed.

Lemma ties_keep_their_order_witness :
  filter (tied_with (Some (OrderInt 1)) "")
    [c1_item "a" (JNum 0); c1_item "y" (JNum 1); c1_item "x" (JNum 1)]
  = filter (tied_with (Some (OrderInt 1)) "") x_sorted_input.
Proof.
  apply (ties_keep_their_order x_sorted_input
           [c1_item "a" (JNum 0); c1_item "y" (JNum 1); c1_item "x" (JNum 1)]).
  vm_compute. reflexivity.
Defined.

(** ** Sharing between the overrides and the merged metadata *)

Module StoreSharing.
Import Store StoreFacts.

Lemma item_get_set_eq k v items : item_get k (item_set k v items) = Some v.
Proof.
  induction items as [|[k' v'] items IH]; cbn.
  - by rewrite String.eqb_refl.
  - destruct (String.eqb_spec k' k) as [->|Hne]; cbn.
    + by rewrite String.eqb_refl.
    + by destruct (String.eqb_spec k' k).
Qed.

Lemma item_get_set_ne k k' v items :
  k' <> k -> item_get k (item_set k' v items) = item_get k items.
Proof.
  intros Hne. induction items as [|[k0 v0] items IH]; cbn.
  - by destruct (String.eqb_spec k' k).
  - destruct (String.eqb_spec k0 k') as [->|Hne0]; cbn.
    + by destruct (String.eqb_spec k' k).
    + by rewrite IH.
Qed.

Lemma is_dict_unchanged h h' n v :
  unchanged h h' -> bounded h n v -> is_dict h' v = is_dict h v.
Proof.
  intros Hu Hb. destruct v as [| | | |a]; try done. unfold is_dict, dict_items.
  destruct n as [|n]; [done|]. cbn in Hb. destruct (h !! a) as [o|] eqn:Ha; [|done].
  by rewrite (unchanged_lookup _ _ _ _ Hu Ha).
Qed.

(** The value the override has under [k] is what the result holds under
    [k], when that value is no mapping. *)
Lemma deep_merge_shares fuel base override h r h' items n k v :
  _deep_merge fuel base override h = Done r h' ->
  bounded h n override ->
  dict_items h override = Some items -> NoDup (items.*1) ->
  item_get k items = Some v -> is_dict h v = false ->
  exists ritems, h' !! r = Some (ODict ritems) /\ item_get k ritems = Some v.
Proof.
  destruct fuel as [|fuel]; [done|]. intros H Hb Hd Hnd Hk Hv.
  cbn [_deep_merge] in H. unfold alloc in H.
  set (h1 := h ++ [ODict (default [] (dict_items h base))]) in *.
  assert (H1 : unchanged h h1) by by apply prefix_app_r.
  assert (Hd1 : dict_items h1 override = Some items).
  { destruct override as [| | | |a]; try done. cbn in *.
    destruct (h !! a) as [o|] eqn:Ha; [|done].
    by rewrite (unchanged_lookup _ _ _ _ H1 Ha). }
  destruct (bounded_dict_items h h n override items (unchanged_refl h) Hb Hd)
    as (n' & -> & Hitems).
  rewrite Hd1 in H.
  assert (Htruthy : truthy h1 override = true).
  { destruct override as [| | | |a]; try done. cbn in Hd1 |- *.
    destruct (h1 !! a) as [[its|]|]; try done. injection Hd1 as ->. by destruct items. }
  rewrite Htruthy in H.
  assert (Hres : exists ritems, h1 !! length h = Some (ODict ritems)).
  { eexists. unfold h1. by rewrite lookup_app_r, Nat.sub_diag by lia. }
  assert (Hstate : item_get k items = Some v
                   \/ ((k ∉ items.*1)
                       /\ exists ritems, h1 !! length h = Some (ODict ritems)
                            /\ item_get k ritems = Some v)) by by left.
  clear Hd Hd1 Htruthy Hk. revert H1 Hres Hstate H. generalize h1. clear h1.
  induction items as [|[k' v'] items IH]; intros hc H1 Hres Hstate H.
  - injection H as <- <-. destruct Hstate as [Hk|(_ & ritems & ? & ?)]; [done|eauto].
  - apply Forall_cons in Hitems as [Hv' Hitems]. cbn in Hv'.
    apply NoDup_cons in Hnd as [Hnotin Hnd]. destruct Hres as [ritems Hres].
    assert (Hnext : forall x hc',
              unchanged h hc' -> hc' !! length h = Some (ODict ritems) ->
              (k' = k -> x = v) ->
              unchanged h (set_item (length h) k' x hc')
              /\ (exists ritems',
                    set_item (length h) k' x hc' !! length h = Some (ODict ritems'))
              /\ (item_get k items = Some v
                  \/ ((k ∉ items.*1)
                      /\ exists ritems',
                           set_item (length h) k' x hc' !! length h = Some (ODict ritems')
                           /\ item_get k ritems' = Some v))).
    { intros x hc' Hu Hr Hx.
      split; [by apply unchanged_set_item|].
      split; [eexists; by apply set_item_dict|].
      destruct Hstate as [Hk|(Hnk & ritems0 & Hr0 & Hk)].
      - cbn in Hk. destruct (String.eqb_spec k' k) as [->|Hne]; [|by left].
        injection Hk as ->. right. split; [done|]. eexists.
        split; [by apply set_item_dict|]. rewrite (Hx eq_refl). apply item_get_set_eq.
      - right. cbn in Hnk. apply not_elem_of_cons in Hnk as [Hne Hnk]. split; [done|].
        eexists. split; [by apply set_item_dict|].
        rewrite item_get_set_ne by done. congruence. }
    assert (Hsame : k' = k -> v' = v /\ is_dict hc v' = false).
    { intros ->. destruct Hstate as [Hk|(Hnk & _)].
      - cbn in Hk. rewrite String.eqb_refl in Hk. injection Hk as ->. split; [done|].
        by rewrite (is_dict_unchanged h hc n' v H1 Hv').
      - cbn in Hnk. by apply not_elem_of_cons in Hnk as [? _]. }
    destruct (is_dict hc v' && is_dict hc _) eqn:Eb.
    + pose proof (deep_merge_frame fuel
                    (get k' (default [] (dict_items hc (VRef (length h))))) v' hc) as Hf.
      destruct (_deep_merge fuel _ v' hc) as [merged hc'|e hc'|]; [|done..].
      destruct Hf as (H3 & -> & H4).
      destruct (Hnext (VRef (length hc)) hc') as (Ha & Hb' & Hc').
      * by eapply unchanged_trans.
      * by eapply unchanged_lookup.
      * intros Heq. destruct (Hsame Heq) as [_ Hfalse].
        apply andb_true_iff in Eb as [Eb _]. by rewrite Hfalse in Eb.
      * by apply (IH Hnd Hitems _ Ha Hb' Hc').
    + destruct (Hnext v' hc H1 Hres) as (Ha & Hb' & Hc').
      * intros Heq. by destruct (Hsame Heq).
      * by apply (IH Hnd Hitems _ Ha Hb' Hc').
Qed.

End StoreSharing.

(** [_deep_merge] copies no value: under a key where the override has a
    value that is no mapping, the result holds that very value, so a list
    there is the object of the override itself, shared with the result. *)
Theorem merged_values_are_shared fuel base override h r h' items n k v :
  Store._deep_merge fuel base override h = Store.Done r h' ->
  Store.bounded h n override ->
  Store.dict_items h override = Some items -> NoDup (items.*1) ->
  Store.item_get k items = Some v -> Store.is_dict h v = false ->
  (exists ritems, h' !! r = Some (Store.ODict ritems) /\ Store.item_get k ritems = Some v)
  /\ forall a o, v = Store.VRef a -> h !! a = Some o -> h' !! a = Some o.
Proof.
  intros H Hb Hd Hnd Hk Hv. split.
  - by eapply StoreSharing.deep_merge_shares.
  - intros a o _ Ha. pose proof (StoreFacts.deep_merge_frame fuel base override h) as Hf.
    rewrite H in Hf. destruct Hf as [Hu _]. by eapply StoreFacts.unchanged_lookup.
Qed.

Lemma merged_values_are_shared_witness :
  exists h' : list Store.object,
    (exists ritems,
       h' !! 3 = Some (Store.ODict ritems)
       /\ Store.item_get "data_files" ritems = Some (Store.VRef 2))
    /\ forall a o, Store.VRef 2 = Store.VRef a -> x_store !! a = Some o -> h' !! a = Some o.
Proof.
  eexists.
  apply (merged_values_are_shared 2 (Store.VRef 0) (Store.VRef 1) x_store 3 _
           [("data_files", Store.VRef 2)] 2 "data_files" (Store.VRef 2)).
  - vm_compute. reflexivity.
  - cbn. repeat constructor.
  - reflexivity.
  - cbn. apply NoDup_singleton.
  - reflexivity.
  - reflexivity.
Defined.

(** ** What the overrides can raise *)





(** ** Sections that are not there *)

Lemma process_section_unavailable w config output_dir section t :
  section_unavailable w section ->
  process_section w config output_dir section t = Return [] t.
Proof.
  intros [Hlive Hgone]. unfold process_section.
  fold (section_is_draft section) (section_folder_of section).
  rewrite Hlive, observe_return.
  destruct Hgone as [->|Hgone]; [done|]. rewrite Hgone.
  by rewrite orb_true_r.
Qed.

(** A section without a folder, or whose folder is not there, is passed
    over: the run is the one of the configuration without it. *)
Theorem unavailable_section_is_skipped w config output_dir before section after t :
  section_unavailable w section ->
  process_sections w config output_dir (before ++ section :: after) t
  = process_sections w config output_dir (before ++ after) t.
Proof.
  intros Hs. revert t. induction before as [|s before IH]; intros t; cbn.
  - unfold mbind at 1, M_bind at 1. rewrite process_section_unavailable by done.
    unfold mbind, M_bind.
    destruct (process_sections w config output_dir after t); done.
  - unfold mbind, M_bind in *.
    destruct (process_section w config output_dir s t) as [items t1| |]; [|done..].
    by rewrite IH.
Qed.

Lemma unavailable_section_is_skipped_witness :
  process_sections c8_world c8_config (Path "docs")
    ([c8_section "week3"] ++ SectionName "missing" :: [c8_section "week4"]) []
  = process_sections c8_world c8_config (Path "docs")
      ([c8_section "week3"] ++ [c8_section "week4"]) [].
Proof.
  apply (unavailable_section_is_skipped c8_world c8_config (Path "docs")
           [c8_section "week3"] (SectionName "missing") [c8_section "week4"] []).
  split; [reflexivity|]. right. intros t. reflexivity.
Defined.

(** ** Pages *)

(** A markdown page is never skipped: when [process_markdown] returns, it
    has written the page, last, beside the section's outputs, and it
    returns a record, named by the file and titled by the front matter or
    else by the file name; this holds of a page without front matter too. *)
Theorem markdown_page_is_always_published w markdown_path output_dir config t r t' :
  process_markdown w markdown_path output_dir config t = Return r t' ->
  exists info fm pre source,
    r = Some info
    /\ t' = pre ++ [WritePage (page_path markdown_path output_dir) source
                     (fmt w (s_title info))]
    /\ apply_metadata_overrides w markdown_path
         (let frontmatter := (extract_markdown_frontmatter w (read_text w t markdown_path)).1 in
          if truthy frontmatter then frontmatter else JDict ∅) config = Ok (JDict fm)
    /\ s_name info = stem markdown_path
    /\ s_title info = default (JStr (stem markdown_path)) (fm !! "title")
    /\ s_files info
       = MarkdownFile (name (parent markdown_path) +:+ "/" +:+ stem markdown_path +:+ ".html").
Proof.
  unfold process_markdown. rewrite observe_return. intros H.
  destruct (extract_markdown_frontmatter w (read_text w t markdown_path))
    as [frontmatter body].
  apply bind_return in H as (merged & t1 & [Hmerged ->]%lift_return & H).
  destruct merged as [| | | | |fm]; try done.
  rewrite !emit_return in H.
  apply bind_return in H as ([] & t2 & _ & H).
  apply bind_return in H as ([] & t3 & _ & H).
  apply bind_return in H as (slide_part & t4 & _ & H).
  apply bind_return in H as (links_part & t5 & _ & H).
  rewrite !emit_return in H. unfold mret, M_ret in H. injection H as <- <-.
  eexists _, fm, t5, _. split; [reflexivity|]. split; [reflexivity|]. by split.
Qed.

Lemma markdown_page_is_always_published_witness :
  exists r t',
    process_markdown x_page_world (Path "section1/notes.md") (Path "docs") base_config []
    = Return r t'
    /\ exists info, r = Some info /\ s_title info = JStr "notes".
Proof.
  assert (E : exists r t',
             process_markdown x_page_world (Path "section1/notes.md") (Path "docs")
               base_config [] = Return r t')
    by (eexists _, _; vm_compute; reflexivity).
  destruct E as (r & t' & E). exists r, t'. split; [exact E|].
  destruct (markdown_page_is_always_published _ _ _ _ _ _ _ E)
    as (info & fm & _ & _ & -> & _ & Hfm & _ & Htitle & _).
  exists info. split; [reflexivity|]. rewrite Htitle.
  vm_compute in Hfm. injection Hfm as <-. reflexivity.
Defined.

(** ** Copies never overwrite *)

Lemma checked_nothing ok {A} t (o : outcome A) : trace_of o = t -> checked ok t o.
Proof. intros H. exists []. rewrite app_nil_r. split; [done|]. by intros i e [=]. Qed.

Lemma checked_emit ok {A} e t (o : outcome A) :
  ok t e = true -> checked ok (t ++ [e]) o -> checked ok t o.
Proof.
  intros He (added & H1 & H2). exists (e :: added).
  split; [by rewrite H1, <- (assoc_L (++))|].
  intros [|i] e' Hi; cbn in *.
  - injection Hi as <-. by rewrite app_nil_r.
  - specialize (H2 i e' Hi). by rewrite <- (assoc_L (++)) in H2.
Qed.

Lemma checked_bind ok {A B} (m : M A) (f : A -> M B) t :
  checked ok t (m t) ->
  (forall a t1, m t = Return a t1 -> checked ok t1 (f a t1)) ->
  checked ok t ((m ≫= f) t).
Proof.
  intros (a1 & H1 & H2) Hf. unfold mbind, M_bind.
  destruct (m t) as [a t1|c t1|e t1] eqn:E; cbn in H1; subst t1;
    [|by exists a1..].
  destruct (Hf a _ eq_refl) as (a2 & H3 & H4). exists (a1 ++ a2).
  split; [by rewrite H3, (assoc_L (++))|]. intros i e Hi.
  destruct (decide (i < length a1)) as [Hlt|Hge].
  - rewrite lookup_app_l in Hi by done. rewrite take_app_le by lia. by apply H2.
  - rewrite lookup_app_r in Hi by lia. rewrite take_app_ge by lia.
    rewrite (assoc_L (++)). by apply H4.
Qed.

Lemma checked_for_each ok {A} (l : list A) (body : A -> M unit) :
  (forall x t, checked ok t (body x t)) -> forall t, checked ok t (for_each l body t).
Proof.
  intros H. induction l as [|x l IH]; intros t; cbn; [by apply checked_nothing|].
  apply checked_bind; [apply H|intros _ t1 _; apply IH].
Qed.

Ltac fresh_copy :=
  lazymatch goal with
  | H : exists_ ?w ?t ?p = false |- copy_is_fresh ?w ?t (CopyFile _ ?p) = true =>
      cbn; by rewrite H
  end.

(** One step of running a call forward, for [checked]. *)
Ltac run_step :=
  lazymatch goal with
  | |- checked _ _ ((observe _ ≫= _) _) => rewrite observe_return
  | |- checked _ _ ((emit ?e ≫= _) _) =>
      rewrite emit_return; apply (checked_emit _ e); [first [reflexivity|fresh_copy]|]
  | |- checked _ _ (emit ?e _) =>
      unfold emit; apply (checked_emit _ e);
      [first [reflexivity|fresh_copy]|by apply checked_nothing]
  | |- checked _ _ ((lift ?r ≫= _) _) =>
      destruct r; [rewrite (bind_run _ _ _ _ _ (lift_ok _ _))|by apply checked_nothing]
  | |- checked _ _ (mret _ _) => by apply checked_nothing
  | |- checked _ _ (observe _ _) => by apply checked_nothing
  | |- checked _ _ (raise _ _) => by apply checked_nothing
  | |- checked _ _ (sys_exit _ _) => by apply checked_nothing
  | |- checked _ _ ((mret _ ≫= _) _) => unfold mbind at 1, M_bind at 1, mret at 1, M_ret at 1
  | |- checked _ _ ((raise _ ≫= _) _) => by apply checked_nothing
  | |- checked _ _ ((sys_exit _ ≫= _) _) => by apply checked_nothing
  | |- checked _ _ ((if ?b then _ else _) _) => destruct b eqn:?
  | |- checked _ _ ((match ?x with _ => _ end) _) => destruct x eqn:?
  | |- checked _ _ (((if ?b then _ else _) ≫= _) _) => destruct b eqn:?
  | |- checked _ _ (((match ?x with _ => _ end) ≫= _) _) => destruct x eqn:?
  | |- checked _ _ ((let _ := _ in _) _) => cbv zeta
  | |- checked _ _ ((_ ≫= _) _) => apply checked_bind; [|intros ? ? _]
  end.

Lemma fresh_copy_reference w source_dir output_dir ref t :
  checked (copy_is_fresh w) t (copy_reference w source_dir output_dir ref t).
Proof.
  unfold copy_reference. repeat run_step.
Qed.

Lemma emits_only_checked (allowed : event -> bool) ok {A} (m : M A) t :
  (forall e t', allowed e = true -> ok t' e = true) ->
  emits_only allowed m -> checked ok t (m t).
Proof.
  intros Hok Hm. destruct (Hm t) as (added & H1 & H2). exists added. split; [done|].
  intros i e Hi. apply Hok. apply (proj1 (forallb_forall _ _) H2).
  apply list_elem_of_In. by eapply list_elem_of_lookup_2.
Qed.

Lemma fresh_create_data_zip w data_patterns zip_path base_dir t :
  checked (copy_is_fresh w) t (create_data_zip w data_patterns zip_path base_dir t).
Proof.
  apply (emits_only_checked
           (fun e => match e with CreateZip _ | ZipMember _ _ _ => true | _ => false end)).
  - by intros [].
  - by apply footprint_create_data_zip.
Qed.

Lemma fresh_find_and_copy w cells notebook_dir output_dir t :
  checked (copy_is_fresh w) t
    (find_and_copy_referenced_files w cells notebook_dir output_dir t).
Proof.
  revert t. unfold find_and_copy_referenced_files. apply checked_for_each.
  intros cell t. unfold find_and_copy_cell. repeat run_step.
  apply checked_for_each. intros ref t'.
  apply checked_bind; [apply fresh_copy_reference|intros ? ? _; by apply checked_nothing].
Qed.

Lemma fresh_copy_slide_file w slide_file notebook_dir output_subdir t :
  checked (copy_is_fresh w) t (copy_slide_file w slide_file notebook_dir output_subdir t).
Proof. unfold copy_slide_file. repeat run_step. Qed.

Lemma fresh_generate_slide_embed w slide_file notebook_dir output_dir item_type folder t :
  checked (copy_is_fresh w) t
    (generate_slide_embed w slide_file notebook_dir output_dir item_type folder t).
Proof.
  unfold generate_slide_embed, find_slide_file, convert_pptx_to_pdf, create_slide_thumbnail.
  repeat run_step.
Qed.

Lemma fresh_process_notebook w notebook_path output_dir config t :
  checked (copy_is_fresh w) t (process_notebook w notebook_path output_dir config t).
Proof.
  unfold process_notebook.
  repeat first [ run_step | apply fresh_find_and_copy | apply fresh_copy_slide_file
               | apply fresh_create_data_zip ].
Qed.

Lemma fresh_process_markdown w markdown_path output_dir config t :
  checked (copy_is_fresh w) t (process_markdown w markdown_path output_dir config t).
Proof.
  unfold process_markdown, copy_markdown_referenced_files. rewrite observe_return.
  destruct (extract_markdown_frontmatter w _) as [frontmatter markdown_content].
  repeat first [ run_step | apply fresh_create_data_zip | apply fresh_generate_slide_embed
               | apply checked_for_each; intros ? ?
               | apply fresh_copy_reference ].
Qed.

Lemma fresh_render_root w config output_dir t :
  checked (copy_is_fresh w) t (render_root w config output_dir t).
Proof.
  unfold render_root.
  repeat first [ run_step | apply fresh_create_data_zip | apply fresh_generate_slide_embed ].
Qed.

Lemma fresh_render_section w config github_repo section section_items t :
  checked (copy_is_fresh w) t (render_section w config github_repo section section_items t).
Proof.
  unfold render_section.
  destruct section_items as [|[info folder slides|title folder description] [|it rest]];
    repeat first [ run_step | apply fresh_generate_slide_embed ].
Qed.

Lemma fresh_render_sections w config github_repo sections order : forall t,
  checked (copy_is_fresh w) t (render_sections w config github_repo sections order t).
Proof.
  induction order as [|section order IH]; intros t; cbn; [by apply checked_nothing|].
  apply checked_bind; [apply fresh_render_section|intros md t1 _].
  apply checked_bind; [apply IH|intros rest t2 _; by apply checked_nothing].
Qed.

(** No copy overwrites a file: whenever publishing a notebook or a page, or
    building the index, copies a file, nothing is at the destination at
    that moment. *)
Theorem copies_never_overwrite w file_path output_dir config notebooks t :
  checked (copy_is_fresh w) t (process_notebook w file_path output_dir config t)
  /\ checked (copy_is_fresh w) t (process_markdown w file_path output_dir config t)
  /\ checked (copy_is_fresh w) t (create_index w notebooks config output_dir t).
Proof.
  split; [apply fresh_process_notebook|]. split; [apply fresh_process_markdown|].
  unfold create_index. destruct (github_repo config) as [repo|];
    [|by apply checked_nothing].
  apply checked_bind; [apply fresh_render_root|intros root_md t1 _].
  apply checked_bind; [apply fresh_render_sections|intros sections_md t2 _].
  unfold emit. apply (checked_emit _ (WriteIndex (joinpath output_dir "index.html")
                                        (root_md ++ sections_md))); [done|].
  by apply checked_nothing.
Qed.

(** ** [commit_and_push_main] *)

Lemma snoc_last {A} (l before : list A) c :
  l = before ++ [c] -> last l = Some c /\ before = take (length l - 1) l.
Proof.
  intros ->. split; [apply last_snoc|].
  rewrite length_app. cbn. rewrite Nat.add_sub. by rewrite take_app_length.
Qed.

Ltac git_cases :=
  unfold Git.commit_and_push_main, Git.stage_commit_push, Git.push_and_return,
    publishing_branch;
  repeat match goal with
         | |- context [match ?git ?h ?c with _ => _ end] =>
             let E := fresh "E" in destruct (git h c) eqn:E
         | |- context [if ?b then _ else _] =>
             let E := fresh "E" in destruct b eqn:E
         end.

Ltac git_absent H :=
  unfold Git.push, Git.switch, Git.rev_parse_git_dir, Git.rev_parse_head,
    Git.add_all, Git.commit in H;
  repeat (apply elem_of_cons in H as [H|H]; [discriminate H|]);
  by apply elem_of_nil in H.

Ltac git_differ H :=
  unfold Git.push, Git.switch, Git.rev_parse_git_dir, Git.rev_parse_head,
    Git.add_all, Git.commit in H;
  discriminate H.

(** A push is never run on its own: when [commit_and_push_main] has run
    [git push origin <branch>], the two commands right before it were
    [git add -A], which succeeded, and [git commit], which succeeded or
    reported that there was nothing to commit; after the push comes nothing,
    or one switch of branch. *)
Theorem push_follows_stage_and_commit git config :
  Git.push (publishing_branch config) ∈ (Git.commit_and_push_main git config).1 ->
  exists before after,
    (Git.commit_and_push_main git config).1
    = before ++ [Git.add_all; Git.commit; Git.push (publishing_branch config)] ++ after
    /\ (exists out, git before Git.add_all = Git.Succeeded out)
    /\ match git (before ++ [Git.add_all]) Git.commit with
       | Git.Succeeded _ => True
       | Git.CalledProcessError stdout stderr => Git.nothing_to_commit stdout stderr = true
       | Git.FileNotFoundError => False
       end
    /\ (after = [] \/ exists current, after = [Git.switch current]).
Proof.
  git_cases; cbn [fst snd]; intros H.
  all: try (exfalso; cbn [app] in H; git_absent H).
  all: clear H.
  all: match goal with
       | Ha : _ ?b Git.add_all = Git.Succeeded _ |- _ => exists b
       end.
  all: first [exists []; split; [by cbn [app]|]
             | eexists [Git.switch _]; split; [by cbn [app]|]].
  all: (split; [by eexists|]).
  all: match goal with
       | Hc : _ _ Git.commit = _ |- _ => rewrite Hc
       end.
  all: split; [done|]; first [by left | right; by eexists].
Qed.

Lemma push_follows_stage_and_commit_witness :
  exists before after,
    (Git.commit_and_push_main x_git no_repo_config).1
    = before ++ [Git.add_all; Git.commit; Git.push (publishing_branch no_repo_config)] ++ after
    /\ (exists out, x_git before Git.add_all = Git.Succeeded out)
    /\ match x_git (before ++ [Git.add_all]) Git.commit with
       | Git.Succeeded _ => True
       | Git.CalledProcessError stdout stderr => Git.nothing_to_commit stdout stderr = true
       | Git.FileNotFoundError => False
       end
    /\ (after = [] \/ exists current, after = [Git.switch current]).
Proof.
  apply (push_follows_stage_and_commit x_git no_repo_config).
  apply list_elem_of_lookup. exists 5. reflexivity.
Defined.

(** [commit_and_push_main] returns [False] exactly when the last command it
    ran is the switch to the publishing branch, the staging, the commit or
    the push, and this command failed (for the commit: with something other
    than nothing to commit).  Nothing is run after the failure: the
    repository is not switched back to the branch it was on. *)
Theorem failure_is_the_last_command git config :
  (Git.commit_and_push_main git config).2 = Git.Returns false <->
  exists before c stdout stderr,
    (Git.commit_and_push_main git config).1 = before ++ [c]
    /\ c ∈ fatal_commands config
    /\ git before c = Git.CalledProcessError stdout stderr
    /\ (c = Git.commit -> Git.nothing_to_commit stdout stderr = false).
Proof.
  unfold fatal_commands.
  git_cases; cbn [fst snd]; split.
  all: try (intros _; do 4 eexists; split; [reflexivity|];
            split; [set_solver|]; split; [eassumption|];
            first [done | intros; discriminate]).
  all: try discriminate.
  all: try (intros _; reflexivity).
  all: intros (before & c & out & err & Hh & Hc & Hg & Hn); exfalso.
  all: apply snoc_last in Hh as [Hl ->]; cbn in Hl; injection Hl as <-.
  all: cbn [app length take Nat.sub Nat.add] in *.
  all: try congruence.
  all: try (apply elem_of_cons in Hc as [Hc|Hc];
            [injection Hc as Hc;
             rewrite Hc, String.eqb_refl, andb_false_r in *; discriminate
            |git_absent Hc]).
  all: git_absent Hc.
Qed.

(** [commit_and_push_main] returns [True] exactly when there is no
    repository (or no [git]), or when the push to the publishing branch
    succeeded; after the push it runs nothing, or only the switch back to
    the branch [HEAD] was on, another one than the publishing branch, and a
    failure of that switch does not change the result. *)
Theorem success_means_pushed_or_no_repository git config :
  (Git.commit_and_push_main git config).2 = Git.Returns true <->
  (forall stdout, git [] Git.rev_parse_git_dir <> Git.Succeeded stdout)
  \/ exists before after stdout,
       (Git.commit_and_push_main git config).1
       = before ++ [Git.push (publishing_branch config)] ++ after
       /\ git before (Git.push (publishing_branch config)) = Git.Succeeded stdout
       /\ (after = []
           \/ after = [Git.switch (original_branch git)]
              /\ original_branch git <> publishing_branch config
              /\ git (before ++ [Git.push (publishing_branch config)])
                   (Git.switch (original_branch git)) <> Git.FileNotFoundError).
Proof.
  unfold original_branch. split.
  - git_cases; cbn [fst snd]; try discriminate; intros _.
    all: try (left; congruence).
    all: right;
      match goal with
      | Hp : _ ?b (Git.push _) = Git.Succeeded _ |- _ => exists b
      end.
    all: first [exists []; eexists; split; [by cbn [app]|]; split; [eassumption|]; by left
               |eexists [Git.switch _]; eexists; split; [by cbn [app]|];
                split; [eassumption|]; right; split; [reflexivity|]; split; [|congruence]].
    all: intros Heq; rewrite Heq, String.eqb_refl, andb_false_r in *; discriminate.
  - intros [Hno | (before & after & out & Hh & Hg & [-> | (-> & Hne & Hsw)])].
    + revert Hno. git_cases; cbn [fst snd]; try reflexivity.
      all: intros Hno; exfalso; by eapply Hno.
    + revert Hh Hg. git_cases; cbn [fst snd]; try reflexivity.
      all: intros Hh Hg; exfalso.
      all: apply snoc_last in Hh as [Hl ->]; cbn in Hl.
      all: cbn [app length take Nat.sub Nat.add] in *.
      all: try congruence.
      all: git_differ Hl.
    + revert Hh Hg Hne Hsw. git_cases; cbn [fst snd]; try reflexivity.
      all: intros Hh Hg Hne Hsw; exfalso.
      all: rewrite (assoc_L (++) before) in Hh.
      all: apply snoc_last in Hh as [Hl Hb]; cbn in Hl.
      all: cbn [app length take Nat.sub Nat.add] in *.
      all: symmetry in Hb; apply snoc_last in Hb as [Hl' ->]; cbn in Hl'.
      all: cbn [app length take Nat.sub Nat.add] in *.
      all: try congruence.
      all: try git_differ Hl'.
      all: git_differ Hl.
Qed.

(** ** [prepare_codespaces_build] *)

Lemma copy_section_actions fs config h section :
  section ∈ cfg_sections config ->
  Forall (codespaces_action config) h ->
  Forall (codespaces_action config) (Codespaces.copy_section fs h section).
Proof.
  intros Hin Hh. unfold Codespaces.copy_section.
  destruct (match section with SectionDict s => sec_draft s | SectionName _ => false end)
    eqn:Hd; [done|].
  destruct (String.eqb _ _); [done|].
  destruct (negb _ || negb _); [done|].
  apply Forall_app; split; [done|]. apply Forall_singleton.
  right. exists section. by destruct section.
Qed.

Lemma copy_sections_actions fs config sections :
  forall h,
    sections ⊆ cfg_sections config ->
    Forall (codespaces_action config) h ->
    Forall (codespaces_action config) (foldl (Codespaces.copy_section fs) h sections).
Proof.
  induction sections as [|section sections IH]; intros h Hsub Hh; [done|].
  cbn [foldl]. apply IH; [set_solver|].
  apply copy_section_actions; [set_solver|done].
Qed.

(** Whatever the configuration and the file system, the Codespaces build
    touches only its own directory: it removes and makes [build-codespaces],
    writes [requirements.txt] and [README.md] in it, and copies into it the
    devcontainer template and folders of configured sections, each under
    the last component of its path; the folder of a section marked as a
    draft is copied only if a section that is no draft names it too. *)
Theorem codespaces_build_leaves_drafts_out fs config codespaces :
  Forall (codespaces_action config)
    (Codespaces.prepare_codespaces_build fs config codespaces).1.
Proof.
  unfold Codespaces.prepare_codespaces_build.
  set (h0 := if Codespaces.exists_ fs [] Codespaces.build_dir then _ else _).
  assert (H0 : Forall (codespaces_action config) (h0 ++ [Codespaces.Mkdir Codespaces.build_dir])).
  { apply Forall_app; split; [|by apply Forall_singleton].
    subst h0. destruct (Codespaces.exists_ _ _ _); [by apply Forall_singleton|done]. }
  destruct (negb _); [done|].
  destruct (Codespaces.requirements codespaces) as [reqs|]; [|done].
  cbn [fst].
  set (h1 := Codespaces.write_requirements reqs _).
  assert (H1 : Forall (codespaces_action config) h1).
  { subst h1. unfold Codespaces.write_requirements.
    destruct reqs as [| | | |[|item items]|]; try done.
    destruct (Codespaces.strings _); [|done].
    apply Forall_app; split; [done|]. apply Forall_singleton. by left. }
  set (h2 := if _ && _ then _ else _).
  assert (H2 : Forall (codespaces_action config) h2).
  { subst h2. destruct (_ && _); [|done].
    apply Forall_app; split; [done|]. apply Forall_singleton. by left. }
  pose proof (copy_sections_actions fs config (cfg_sections config) h2
                (reflexivity _) H2) as H3.
  destruct (Codespaces.exists_ fs _ (joinpath _ _)); [done|].
  apply Forall_app; split; [done|]. apply Forall_singleton. by right.
Qed.




